(** * Fraud scoring engine: a shallow embedding of [FraudDetector],
      [DataAnalyzer], the CSV parser and the scoring handlers of [App]

    The TypeScript sources are [services/FraudDetector.ts],
    [services/DataAnalyzer.ts], [utils/csvParser.ts], [App.tsx],
    [components/Analytics.tsx] and [types/Transaction.ts].  JavaScript
    numbers are IEEE 754 binary64 values, so they are embedded as Rocq's
    primitive floats: [0 / 0] is [NaN], [x || d] tests JavaScript
    truthiness, and sums are rounded in the order in which the source adds
    them.  Plain objects used as dictionaries keep their own keys in
    insertion order and inherit the members of [Object.prototype]; [Map]s
    are finite maps.  A call that throws is a value: [None] where the only
    exception the call can raise is a [TypeError], the left summand of a
    sum with [thrown] otherwise.  TensorFlow is a set of opaque calls, each
    of which may throw; the trained network is an opaque handle. *)

From Stdlib Require Import Floats ZArith Uint63 Ascii Lia.
From stdpp Require Import gmap strings list sorting.

(** ** JavaScript numbers *)

Module JS.

(** A value is falsy when it is [NaN], [+0] or [-0] ([=?] on floats
    identifies the two zeros and is false on [NaN]). *)
Definition truthy (x : float) : bool :=
  negb (is_nan x) && negb (x =? 0)%float.

(** [x || d] on numbers. *)
Definition or_else (x d : float) : float :=
  if truthy x then x else d.

(** [o?.field || d]: [undefined] is falsy. *)
Definition opt_or_else (o : option float) (d : float) : float :=
  match o with
  | Some x => or_else x d
  | None => d
  end.

(** [x > y]. *)
Definition gt (x y : float) : bool := (y <? x)%float.

(** [v === k] for a field that may be [undefined] and a number [k]. *)
Definition strict_eq (v : option float) (k : float) : bool :=
  match v with
  | Some x => (x =? k)%float
  | None => false
  end.

(** The number held by [array.length], and by a counter that started at
    [0] and was incremented [n] times: an array has fewer than [2^32]
    elements, and every integer below [2^53] is a binary64 value, so both
    are the exact conversion of [n]. *)
Definition of_length (n : nat) : float :=
  of_uint63 (Uint63.of_Z (Z.of_nat n)).

(** [xs.reduce((a, b) => a + b, 0)]. *)
Definition sum (xs : list float) : float :=
  foldl (fun a b => a + b)%float 0%float xs.

(** [Math.pow(x, 2)], the correctly rounded square. *)
Definition pow2 (x : float) : float := (x * x)%float.

(** [row[i]] used as an operand of [+] or [-]: a missing element is
    [undefined], which arithmetic turns into [NaN]. *)
Definition at_index (row : list float) (i : nat) : float :=
  nth i row nan.

End JS.

(** ** Data model ([types/Transaction.ts]) *)

(** [TX_FRAUD] is declared [number], but the scoring functions also receive
    objects built outside the parser (the prediction form hands over an
    [any]); [None] stands for a field that is [undefined] on the object.
    [predicted_scenario] is the extra field that the rule-based classifier
    spreads into its result. *)
Record Transaction := {
  TRANSACTION_ID : string;
  TX_DATETIME : string;
  CUSTOMER_ID : string;
  TERMINAL_ID : string;
  TX_AMOUNT : float;
  TX_TIME_SECONDS : float;
  TX_TIME_DAYS : float;
  TX_FRAUD : option float;
  TX_FRAUD_SCENARIO : option float;
  predicted_fraud : option float;
  predicted_probability : option float;
  predicted_scenario : option float
}.

Record ModelMetrics := {
  accuracy : float;
  precision : float;
  recall : float;
  f1Score : float;
  confusion_matrix : list (list nat)
}.

(** The anonymous objects stored in the two [Map]s of [FraudDetector]. *)
Module CustomerStat.
Record t := {
  avgAmount : float;
  transactionCount : nat;
  amountVariation : float
}.
End CustomerStat.

Module TerminalStat.
Record t := {
  avgAmount : float;
  transactionCount : nat;
  fraudRate : float
}.
End TerminalStat.

(** What a call can throw: an [Error] with a message (the detector's own, or
    one raised by the training backend), or a [TypeError]: reading a
    property of [undefined], or calling something that is not a function. *)
Inductive thrown :=
  | Thrown_Error (message : string)
  | Thrown_TypeError.

(** ** Plain objects used as dictionaries

    The object literal [{}] that the aggregators fill has its own
    properties, kept in the order in which they were created, and inherits
    the members of [Object.prototype]. *)

Module Dict.
Section Dict.
Context {V : Type}.

(** The own property [k] of the object, if it has one. *)
Fixpoint get (k : string) (d : list (string * V)) : option V :=
  match d with
  | [] => None
  | (k', v) :: d' => if decide (k = k') then Some v else get k d'
  end.

(** In-place update of the value stored under an existing key. *)
Fixpoint update (f : V -> V) (k : string) (d : list (string * V))
  : list (string * V) :=
  match d with
  | [] => []
  | (k', v) :: d' =>
      if decide (k = k') then (k', f v) :: d'
      else (k', v) :: update f k d'
  end.

End Dict.
End Dict.

(** The names that every plain object inherits from [Object.prototype].
    Read on an object that has no own property of that name, each of them
    is a function or, for [__proto__], the prototype object: a truthy value
    without a [push] method. *)
Definition Object_prototype_names : list string :=
  [ "constructor"; "hasOwnProperty"; "isPrototypeOf"; "propertyIsEnumerable";
    "toLocaleString"; "toString"; "valueOf"; "__proto__";
    "__defineGetter__"; "__defineSetter__"; "__lookupGetter__";
    "__lookupSetter__" ]%string.

(** One step of the grouping loop shared by all four aggregators:
    [if (!acc[k]) acc[k] = []; acc[k].push(t); return acc;].  A stored
    group is an array, hence truthy, and the row is pushed onto it.  When
    the object has no own property [k], [acc[k]] is [undefined] and a new
    group is created, unless [k] names an inherited member: then [!acc[k]]
    is false, no group is created, and the call of [acc[k].push], which is
    [undefined], throws a [TypeError] ([None]).  No step ever creates an
    own property with an inherited name. *)
Definition group_step (key : Transaction -> string)
    (acc : list (string * list Transaction)) (t : Transaction)
  : option (list (string * list Transaction)) :=
  match Dict.get (key t) acc with
  | Some _ => Some (Dict.update (fun g => g ++ [t]) (key t) acc)
  | None =>
      if decide (key t ∈ Object_prototype_names) then None
      else Some (acc ++ [(key t, [t])])
  end.

(** [txs.reduce((acc, t) => ..., {})]: the exception of a step ends the
    loop. *)
Definition groupBy (key : Transaction -> string) (txs : list Transaction)
  : option (list (string * list Transaction)) :=
  foldl (fun acc t => acc ≫= fun d => group_step key d t) (Some []) txs.

(** ** Property enumeration order

    [Object.entries] lists the own properties that are array indices first,
    in ascending numeric order, and then the other string keys in the order
    in which they were created. *)

Definition digit_of (a : ascii) : option N :=
  let n := N_of_ascii a in
  if ((48 <=? n) && (n <=? 57))%N then Some (n - 48)%N else None.

Fixpoint parse_digits (acc : N) (s : string) : option N :=
  match s with
  | EmptyString => Some acc
  | String a s' =>
      match digit_of a with
      | Some d => parse_digits (10 * acc + d)%N s'
      | None => None
      end
  end.

(** An array index is the canonical decimal spelling of an integer between
    [0] and [2^32 - 2]. *)
Definition array_index (s : string) : option N :=
  match s with
  | EmptyString => None
  | String a s' =>
      if decide (a = "0"%char) then
        if decide (s' = EmptyString) then Some 0%N else None
      else
        match parse_digits 0 s with
        | Some n => if (n <? 4294967295)%N then Some n else None
        | None => None
        end
  end.

Definition index_le {V : Type} (x y : string * V) : Prop :=
  (default 0%N (array_index x.1) <= default 0%N (array_index y.1))%N.

#[global] Instance index_le_dec {V : Type} : RelDecision (@index_le V).
Proof. intros x y. unfold index_le. apply _. Defined.

Definition Object_entries {V : Type} (d : list (string * V))
  : list (string * V) :=
  merge_sort index_le (filter (fun kv => is_Some (array_index kv.1)) d)
  ++ filter (fun kv => ~ is_Some (array_index kv.1)) d.

(** ** StatsAggregator ([FraudDetector.calculateCustomerStats],
       [FraudDetector.calculateTerminalStats]) *)

(** [rows.filter(t => t.TX_FRAUD === 1)]. *)
Definition fraud_rows (txs : list Transaction) : list Transaction :=
  filter (λ t, JS.strict_eq (TX_FRAUD t) 1 = true) txs.

(** The body of the [forEach] callback for one customer group. *)
Definition customerStat_of (customerTransactions : list Transaction)
  : CustomerStat.t :=
  let amounts := TX_AMOUNT <$> customerTransactions in
  let avgAmount := (JS.sum amounts / JS.of_length (length amounts))%float in
  let amountVariation :=
    PrimFloat.sqrt
      (foldl (fun sum amount => sum + JS.pow2 (amount - avgAmount))%float
         0%float amounts
       / JS.of_length (length amounts))%float in
  {| CustomerStat.avgAmount := avgAmount;
     CustomerStat.transactionCount := length customerTransactions;
     CustomerStat.amountVariation := amountVariation |}.

(** [None] is the [TypeError] of the grouping loop. *)
Definition calculateCustomerStats (transactions : list Transaction)
  : option (gmap string CustomerStat.t) :=
  customerGroups ← groupBy CUSTOMER_ID transactions;
  Some
    (foldl (fun customerStats '(customerId, customerTransactions) =>
              <[customerId := customerStat_of customerTransactions]>
                customerStats)
       ∅ (Object_entries customerGroups)).

(** The body of the [forEach] callback for one terminal group. *)
Definition terminalStat_of (terminalTransactions : list Transaction)
  : TerminalStat.t :=
  let amounts := TX_AMOUNT <$> terminalTransactions in
  let avgAmount := (JS.sum amounts / JS.of_length (length amounts))%float in
  let fraudCount := length (fraud_rows terminalTransactions) in
  let fraudRate :=
    (JS.of_length fraudCount / JS.of_length (length terminalTransactions))%float in
  {| TerminalStat.avgAmount := avgAmount;
     TerminalStat.transactionCount := length terminalTransactions;
     TerminalStat.fraudRate := fraudRate |}.

Definition calculateTerminalStats (transactions : list Transaction)
  : option (gmap string TerminalStat.t) :=
  terminalGroups ← groupBy TERMINAL_ID transactions;
  Some
    (foldl (fun terminalStats '(terminalId, terminalTransactions) =>
              <[terminalId := terminalStat_of terminalTransactions]>
                terminalStats)
       ∅ (Object_entries terminalGroups)).

(** ** Normalizer ([FraudDetector.normalizeFeatures],
       [FraudDetector.applyNormalization]) *)

Record Scaler := {
  mean : list float;
  std : list float
}.

(** The instance fields of the class; [Model] is the handle of the trained
    network, which the class treats as opaque. *)
Record FraudDetector {Model : Type} := {
  model : option Model;
  scaler : option Scaler;
  isTraining : bool
}.
Arguments FraudDetector : clear implicits.

(** [new FraudDetector()]. *)
Definition new_FraudDetector {Model : Type} : FraudDetector Model :=
  {| model := None; scaler := None; isTraining := false |}.

(** [means[i]] as the first loop assigns it. *)
Definition column_mean (features : list (list float)) (i : nat) : float :=
  (foldl (fun sum row => sum + JS.at_index row i) 0 features
   / JS.of_length (length features))%float.

(** [stds[i]] as the second loop assigns it. *)
Definition column_std (features : list (list float)) (means : list float)
    (i : nat) : float :=
  let variance :=
    (foldl (fun sum row => sum + JS.pow2 (JS.at_index row i - JS.at_index means i))
       0 features
     / JS.of_length (length features))%float in
  JS.or_else (PrimFloat.sqrt variance) 1.

(** [row.map((value, i) => (value - mean[i]) / std[i])]. *)
Definition scale_row (means stds : list float) (row : list float) : list float :=
  imap (fun i value =>
          ((value - JS.at_index means i) / JS.at_index stds i)%float) row.

Definition normalizeFeatures {Model : Type} (this : FraudDetector Model)
    (features : list (list float))
  : FraudDetector Model * list (list float) :=
  match features with
  | [] => (this, features)
  | row0 :: _ =>
      let numFeatures := length row0 in
      let means := column_mean features <$> seq 0 numFeatures in
      let stds := column_std features means <$> seq 0 numFeatures in
      ({| model := model this;
          scaler := Some {| mean := means; std := stds |};
          isTraining := isTraining this |},
       scale_row means stds <$> features)
  end.

Definition applyNormalization {Model : Type} (this : FraudDetector Model)
    (features : list (list float)) : list (list float) :=
  match scaler this with
  | None => features
  | Some s => scale_row (mean s) (std s) <$> features
  end.

(** ** MetricsEvaluator ([FraudDetector.calculateMetrics]) *)

Record Counts := {
  tp : nat;
  fp : nat;
  tn : nat;
  fn : nat
}.

(** One iteration of the counting loop. *)
Definition count_row (c : Counts) (actualLabel : option float)
    (predictedLabel : float) : Counts :=
  if JS.strict_eq actualLabel 1 && (predictedLabel =? 1)%float then
    {| tp := S (tp c); fp := fp c; tn := tn c; fn := fn c |}
  else if JS.strict_eq actualLabel 0 && (predictedLabel =? 1)%float then
    {| tp := tp c; fp := S (fp c); tn := tn c; fn := fn c |}
  else if JS.strict_eq actualLabel 0 && (predictedLabel =? 0)%float then
    {| tp := tp c; fp := fp c; tn := S (tn c); fn := fn c |}
  else if JS.strict_eq actualLabel 1 && (predictedLabel =? 0)%float then
    {| tp := tp c; fp := fp c; tn := tn c; fn := S (fn c) |}
  else c.

(** [for (let i = 0; i < actual.length; i++)]: the two arrays are walked
    with the same index; reading a field of [predicted[i]] when that
    element is missing raises a [TypeError], which is [None] here. *)
Fixpoint count_loop (actual predicted : list Transaction) (c : Counts)
  : option Counts :=
  match actual with
  | [] => Some c
  | a :: actual' =>
      match predicted with
      | [] => None
      | p :: predicted' =>
          count_loop actual' predicted'
            (count_row c (TX_FRAUD a) (JS.opt_or_else (predicted_fraud p) 0))
      end
  end.

Definition metrics_of (c : Counts) : ModelMetrics :=
  let accuracy :=
    (JS.of_length (tp c + tn c)
     / JS.of_length (tp c + fp c + tn c + fn c))%float in
  let precision :=
    JS.or_else (JS.of_length (tp c) / JS.of_length (tp c + fp c))%float 0 in
  let recall :=
    JS.or_else (JS.of_length (tp c) / JS.of_length (tp c + fn c))%float 0 in
  let f1Score :=
    JS.or_else (2 * (precision * recall) / (precision + recall))%float 0 in
  {| accuracy := accuracy;
     precision := precision;
     recall := recall;
     f1Score := f1Score;
     confusion_matrix := [[tn c; fp c]; [fn c; tp c]] |}.

Definition calculateMetrics (actual predicted : list Transaction)
  : option ModelMetrics :=
  metrics_of <$>
    count_loop actual predicted {| tp := 0; fp := 0; tn := 0; fn := 0 |}.

(** ** RuleEngine ([FraudDetector.detectFraudRuleBased]) *)

(** [terminalStat && terminalStat.fraudRate > 0.5]: a stored stat is an
    object, hence truthy. *)
Definition terminal_flagged (terminalStat : option TerminalStat.t) : bool :=
  match terminalStat with
  | Some ts => JS.gt (TerminalStat.fraudRate ts) 0.5
  | None => false
  end.

(** [customerStat && transaction.TX_AMOUNT > customerStat.avgAmount * 3]. *)
Definition amount_spike (customerStat : option CustomerStat.t)
    (amount : float) : bool :=
  match customerStat with
  | Some cs => JS.gt amount (CustomerStat.avgAmount cs * 3)
  | None => false
  end.

(** The body of the [map] callback; the two maps are the ones the method
    has just computed. *)
Definition rule_row (customerStats : gmap string CustomerStat.t)
    (terminalStats : gmap string TerminalStat.t) (transaction : Transaction)
  : Transaction :=
  let '(predictedFraud, predictedScenario) :=
    if JS.gt (TX_AMOUNT transaction) 220 then (1%float, 1%float)
    else
      let terminalStat := terminalStats !! TERMINAL_ID transaction in
      if terminal_flagged terminalStat then (1%float, 2%float)
      else
        let customerStat := customerStats !! CUSTOMER_ID transaction in
        if amount_spike customerStat (TX_AMOUNT transaction)
        then (1%float, 3%float)
        else (0%float, 0%float) in
  {| TRANSACTION_ID := TRANSACTION_ID transaction;
     TX_DATETIME := TX_DATETIME transaction;
     CUSTOMER_ID := CUSTOMER_ID transaction;
     TERMINAL_ID := TERMINAL_ID transaction;
     TX_AMOUNT := TX_AMOUNT transaction;
     TX_TIME_SECONDS := TX_TIME_SECONDS transaction;
     TX_TIME_DAYS := TX_TIME_DAYS transaction;
     TX_FRAUD := TX_FRAUD transaction;
     TX_FRAUD_SCENARIO := TX_FRAUD_SCENARIO transaction;
     predicted_fraud := Some predictedFraud;
     predicted_probability := Some predictedFraud;
     predicted_scenario := Some predictedScenario |}.

(** The two maps are computed before any row is classified, so the
    [TypeError] of either aggregator ([None]) is that of the method. *)
Definition detectFraudRuleBased (transactions : list Transaction)
  : option (list Transaction) :=
  customerStats ← calculateCustomerStats transactions;
  terminalStats ← calculateTerminalStats transactions;
  Some (rule_row customerStats terminalStats <$> transactions).

(** ** FeatureExtractor and the trained path
       ([FraudDetector.extractFeatures], [FraudDetector.predict]) *)

Section Pipeline.

(** The platform's [Math.sin], [Math.cos] and remainder operator [%], and
    the network handed over by the training backend with its scoring
    call (which may throw). *)
Variables Math_sin Math_cos : float -> float.
Variable js_rem : float -> float -> float.
Variable Model : Type.
Variable tf_predict : Model -> list (list float) -> string + list float.

Definition Math_PI : float := 0x1.921fb54442d18p+1%float.

(** The body of the [map] callback of [extractFeatures]. *)
Definition feature_row (customerStats : gmap string CustomerStat.t)
    (terminalStats : gmap string TerminalStat.t) (transaction : Transaction)
  : list float :=
  let customerStat := customerStats !! CUSTOMER_ID transaction in
  let terminalStat := terminalStats !! TERMINAL_ID transaction in
  [ TX_AMOUNT transaction;
    TX_TIME_SECONDS transaction;
    TX_TIME_DAYS transaction;
    JS.opt_or_else (CustomerStat.avgAmount <$> customerStat) 0;
    JS.opt_or_else
      (JS.of_length ∘ CustomerStat.transactionCount <$> customerStat) 0;
    JS.opt_or_else (CustomerStat.amountVariation <$> customerStat) 0;
    JS.opt_or_else (TerminalStat.avgAmount <$> terminalStat) 0;
    JS.opt_or_else
      (JS.of_length ∘ TerminalStat.transactionCount <$> terminalStat) 0;
    JS.opt_or_else (TerminalStat.fraudRate <$> terminalStat) 0;
    abs (TX_AMOUNT transaction
         - JS.opt_or_else (CustomerStat.avgAmount <$> customerStat) 0)%float;
    Math_sin (2 * Math_PI * js_rem (TX_TIME_SECONDS transaction) 86400
              / 86400)%float;
    Math_cos (2 * Math_PI * js_rem (TX_TIME_SECONDS transaction) 86400
              / 86400)%float;
    Math_sin (2 * Math_PI * js_rem (TX_TIME_DAYS transaction) 7 / 7)%float;
    Math_cos (2 * Math_PI * js_rem (TX_TIME_DAYS transaction) 7 / 7)%float ].

Definition extractFeatures (transactions : list Transaction)
  : option (list (list float)) :=
  customerStats ← calculateCustomerStats transactions;
  terminalStats ← calculateTerminalStats transactions;
  Some (feature_row customerStats terminalStats <$> transactions).

(** The object spread at the end of [predict]; [probability] is
    [probabilities[index]], [None] when the index is out of range. *)
Definition scored (transaction : Transaction) (probability : option float)
  : Transaction :=
  {| TRANSACTION_ID := TRANSACTION_ID transaction;
     TX_DATETIME := TX_DATETIME transaction;
     CUSTOMER_ID := CUSTOMER_ID transaction;
     TERMINAL_ID := TERMINAL_ID transaction;
     TX_AMOUNT := TX_AMOUNT transaction;
     TX_TIME_SECONDS := TX_TIME_SECONDS transaction;
     TX_TIME_DAYS := TX_TIME_DAYS transaction;
     TX_FRAUD := TX_FRAUD transaction;
     TX_FRAUD_SCENARIO := TX_FRAUD_SCENARIO transaction;
     predicted_fraud :=
       Some (if match probability with
                | Some p => JS.gt p 0.5
                | None => false
                end
             then 1%float else 0%float);
     predicted_probability := probability;
     predicted_scenario := predicted_scenario transaction |}.

(** The guard comes first; then feature extraction may throw its
    [TypeError], and the scoring call the backend's [Error]. *)
Definition predict (this : FraudDetector Model)
    (transactions : list Transaction) : thrown + list Transaction :=
  match model this, scaler this with
  | Some m, Some _ =>
      match extractFeatures transactions with
      | None => inl Thrown_TypeError
      | Some features =>
          let normalizedFeatures := applyNormalization this features in
          match tf_predict m normalizedFeatures with
          | inl e => inl (Thrown_Error e)
          | inr probabilities =>
              inr (imap (fun index transaction =>
                           scored transaction (probabilities !! index))
                     transactions)
          end
      end
  | _, _ => inl (Thrown_Error "Model not trained yet")
  end.

End Pipeline.

(** ** [DataAnalyzer.analyzeCustomerStats] *)

Module DataAnalyzer.

(** The [CustomerStats] interface of [types/Transaction.ts]. *)
Record CustomerStats := {
  customerId : string;
  totalTransactions : nat;
  fraudTransactions : nat;
  fraudRate : float;
  averageAmount : float;
  spendingPatternAnomaly : bool;
  amountVariation : float
}.

(** The body of the [map] callback for one entry of the grouping. *)
Definition customerStats_of (entry : string * list Transaction)
  : CustomerStats :=
  let '(customerId, customerTransactions) := entry in
  let totalTransactions := length customerTransactions in
  let fraudTransactions := length (fraud_rows customerTransactions) in
  let fraudRate :=
    (JS.of_length fraudTransactions / JS.of_length totalTransactions)%float in
  let amounts := TX_AMOUNT <$> customerTransactions in
  let averageAmount :=
    (JS.sum amounts / JS.of_length (length amounts))%float in
  let amountVariation :=
    PrimFloat.sqrt
      (foldl (fun sum amount => sum + JS.pow2 (amount - averageAmount))%float
         0%float amounts
       / JS.of_length (length amounts))%float in
  {| customerId := customerId;
     totalTransactions := totalTransactions;
     fraudTransactions := fraudTransactions;
     fraudRate := fraudRate;
     averageAmount := averageAmount;
     spendingPatternAnomaly := JS.gt amountVariation (averageAmount * 2);
     amountVariation := amountVariation |}.

(** [Array.prototype.sort] is stable: with the comparator
    [(a, b) => b.fraudRate - a.fraudRate], [a] moves behind [b] only when
    the difference is positive.  Insertion from the right keeps equal
    elements in their original order. *)
Fixpoint insert_by_rate (a : CustomerStats) (sorted : list CustomerStats)
  : list CustomerStats :=
  match sorted with
  | [] => [a]
  | b :: sorted' =>
      if JS.gt (fraudRate b - fraudRate a) 0
      then b :: insert_by_rate a sorted'
      else a :: sorted
  end.

Definition sort_by_rate (l : list CustomerStats) : list CustomerStats :=
  foldr insert_by_rate [] l.

(** [None] is the [TypeError] of the grouping loop. *)
Definition analyzeCustomerStats (transactions : list Transaction)
  : option (list CustomerStats) :=
  customerGroups ← groupBy CUSTOMER_ID transactions;
  Some (sort_by_rate (customerStats_of <$> Object_entries customerGroups)).

End DataAnalyzer.

(** ** Reference definitions, in the words of the specification *)

(** Arithmetic mean and population standard deviation of a sample, each sum
    taken from left to right starting at [0] and divided by the number of
    values (not by one less). *)
Definition arithmetic_mean (xs : list float) : float :=
  (JS.sum xs / JS.of_length (length xs))%float.

Definition population_std (xs : list float) : float :=
  let mu := arithmetic_mean xs in
  PrimFloat.sqrt
    (JS.sum ((fun x => JS.pow2 (x - mu)%float) <$> xs)
     / JS.of_length (length xs))%float.

(** ** Notions used in the statements *)

(** The rows of a batch that belong to one customer or terminal. *)
Definition rows_of (key : Transaction -> string) (k : string)
    (txs : list Transaction) : list Transaction :=
  filter (fun t => key t = k) txs.

(** Column [i] of a feature matrix, as the fitting loops read it. *)
Definition column (features : list (list float)) (i : nat) : list float :=
  (λ row, JS.at_index row i) <$> features.

(** A batch none of whose keys is a name that [{}] inherits. *)
Definition plain_keys (key : Transaction -> string) (txs : list Transaction)
  : Prop :=
  Forall (fun t => key t ∉ Object_prototype_names) txs.

(** A label is binary when it is [=== 0] or [=== 1]. *)
Definition is_binary (v : option float) : bool :=
  JS.strict_eq v 0 || JS.strict_eq v 1.

Definition total (c : Counts) : nat := tn c + fp c + fn c + tp c.

(** The batch with every missing label replaced by the label 0. *)
Definition label_or_zero (t : Transaction) : Transaction :=
  {| TRANSACTION_ID := TRANSACTION_ID t;
     TX_DATETIME := TX_DATETIME t;
     CUSTOMER_ID := CUSTOMER_ID t;
     TERMINAL_ID := TERMINAL_ID t;
     TX_AMOUNT := TX_AMOUNT t;
     TX_TIME_SECONDS := TX_TIME_SECONDS t;
     TX_TIME_DAYS := TX_TIME_DAYS t;
     TX_FRAUD := Some (default 0%float (TX_FRAUD t));
     TX_FRAUD_SCENARIO := TX_FRAUD_SCENARIO t;
     predicted_fraud := predicted_fraud t;
     predicted_probability := predicted_probability t;
     predicted_scenario := predicted_scenario t |}.

(** The number one as a sign, mantissa and exponent. *)
Definition SF_one : spec_float := S754_finite false 4503599627370496 (-52).

(** ** Sample data for the worked examples *)

(** A transaction with the given customer, terminal, amount and label; the
    other fields are blank. *)
Definition sample_tx (customer terminal : string) (amount : float)
    (label : option float) : Transaction :=
  {| TRANSACTION_ID := "tx"; TX_DATETIME := "2018-04-01 00:00:31";
     CUSTOMER_ID := customer; TERMINAL_ID := terminal;
     TX_AMOUNT := amount; TX_TIME_SECONDS := 31; TX_TIME_DAYS := 0;
     TX_FRAUD := label; TX_FRAUD_SCENARIO := None;
     predicted_fraud := None; predicted_probability := None;
     predicted_scenario := None |}.

Definition labelled_tx (customer terminal : string) (amount label : float)
  : Transaction :=
  sample_tx customer terminal amount (Some label).

(** Ten transactions at one terminal, nine of them fraudulent; the first
    one has the amount 500. *)
Definition precedence_batch : list Transaction :=
  labelled_tx "C1" "T1" 500 1 :: labelled_tx "C2" "T1" 50 1
  :: replicate 7 (labelled_tx "C3" "T1" 50 1) ++ [labelled_tx "C4" "T1" 50 0].

(** Ten transactions at one terminal, one of them fraudulent; customer A
    spends 50 and 30. *)
Definition quiet_batch : list Transaction :=
  labelled_tx "A" "T1" 50 0 :: labelled_tx "A" "T1" 30 1
  :: replicate 8 (labelled_tx "B" "T1" 10 0).

(** Ground truth 1, 0, 1, 0 scored with probabilities that round to the
    predictions 1, 0, 0, 0. *)
Definition truth_batch : list Transaction :=
  [labelled_tx "C" "T" 10 1; labelled_tx "C" "T" 10 0;
   labelled_tx "C" "T" 10 1; labelled_tx "C" "T" 10 0].

Definition scored_batch : list Transaction :=
  zip_with scored truth_batch
    [Some 0.9375%float; Some 0.25%float; Some 0.375%float; Some 0.125%float].

(** Rows as the parser delivers them, one of which carries an identifier
    that is also the name of a member of [Object.prototype]. *)
Definition inherited_customer_batch : list Transaction :=
  [labelled_tx "C1" "T1" 50 0; labelled_tx "constructor" "T1" 50 0].

Definition inherited_terminal_batch : list Transaction :=
  [labelled_tx "C1" "T1" 500 0; labelled_tx "C2" "toString" 50 0].



(** The double nearest to one tenth. *)
Definition one_tenth : float := 0x1.999999999999ap-4%float.

(** Stand-ins for the platform functions in closed examples: the sine and
    the cosine of a small angle, and the remainder of a non-negative number
    that is smaller than the modulus. *)
Definition small_angle_sin (x : float) : float := x.
Definition small_angle_cos (x : float) : float := (1 - x * x / 2)%float.
Definition rem_below_modulus (x m : float) : float := x.

(** * The remaining functions of the two services *)

(** [x >= y] and [x <= y]. *)
Definition js_ge (x y : float) : bool := (y <=? x)%float.
Definition js_le (x y : float) : bool := (x <=? y)%float.

(** [x < y]. *)
Definition js_lt (x y : float) : bool := (x <? y)%float.

(** [xs.sort((a, b) => rate(b) - rate(a))]: the stable sort of
    [Array.prototype.sort] with that comparator, for any element type. *)
Fixpoint insert_desc {A : Type} (rate : A -> float) (a : A) (sorted : list A)
  : list A :=
  match sorted with
  | [] => [a]
  | b :: sorted' =>
      if JS.gt (rate b - rate a) 0
      then b :: insert_desc rate a sorted'
      else a :: sorted
  end.

Definition sort_desc {A : Type} (rate : A -> float) (l : list A) : list A :=
  foldr (insert_desc rate) [] l.

(** ** [DataAnalyzer.analyzeFraudStats] *)

Module FraudStats.
Record breakdown := {
  scenario1 : nat;
  scenario2 : nat;
  scenario3 : nat
}.
Record t := {
  totalTransactions : nat;
  fraudulentTransactions : nat;
  fraudRate : float;
  averageAmount : float;
  averageFraudAmount : float;
  scenarioBreakdown : breakdown
}.
End FraudStats.

(** [transactions.filter(t => t.TX_FRAUD === 1 && t.TX_FRAUD_SCENARIO === n)]. *)
Definition scenario_rows (n : float) (txs : list Transaction) : list Transaction :=
  filter (fun t => JS.strict_eq (TX_FRAUD t) 1
                   && JS.strict_eq (TX_FRAUD_SCENARIO t) n = true) txs.

Definition analyzeFraudStats (transactions : list Transaction) : FraudStats.t :=
  let totalTransactions := length transactions in
  let fraudulentTransactions := length (fraud_rows transactions) in
  let fraudRate :=
    (JS.of_length fraudulentTransactions / JS.of_length totalTransactions)%float in
  let amounts := TX_AMOUNT <$> transactions in
  let fraudAmounts := TX_AMOUNT <$> fraud_rows transactions in
  let averageAmount := (JS.sum amounts / JS.of_length (length amounts))%float in
  let averageFraudAmount :=
    if decide (0 < length fraudAmounts)
    then (JS.sum fraudAmounts / JS.of_length (length fraudAmounts))%float
    else 0%float in
  {| FraudStats.totalTransactions := totalTransactions;
     FraudStats.fraudulentTransactions := fraudulentTransactions;
     FraudStats.fraudRate := fraudRate;
     FraudStats.averageAmount := averageAmount;
     FraudStats.averageFraudAmount := averageFraudAmount;
     FraudStats.scenarioBreakdown :=
       {| FraudStats.scenario1 := length (scenario_rows 1 transactions);
          FraudStats.scenario2 := length (scenario_rows 2 transactions);
          FraudStats.scenario3 := length (scenario_rows 3 transactions) |} |}.

(** ** [DataAnalyzer.analyzeTerminalStats] *)

Module TerminalReport.
(** The [TerminalStats] interface of [types/Transaction.ts]. *)
Record t := {
  terminalId : string;
  totalTransactions : nat;
  fraudTransactions : nat;
  fraudRate : float;
  averageAmount : float;
  suspiciousActivity : bool
}.
End TerminalReport.

(** The body of the [map] callback for one entry of the grouping. *)
Definition terminalReport_of (entry : string * list Transaction)
  : TerminalReport.t :=
  let '(terminalId, terminalTransactions) := entry in
  let totalTransactions := length terminalTransactions in
  let fraudTransactions := length (fraud_rows terminalTransactions) in
  let fraudRate :=
    (JS.of_length fraudTransactions / JS.of_length totalTransactions)%float in
  let amounts := TX_AMOUNT <$> terminalTransactions in
  let averageAmount := (JS.sum amounts / JS.of_length (length amounts))%float in
  {| TerminalReport.terminalId := terminalId;
     TerminalReport.totalTransactions := totalTransactions;
     TerminalReport.fraudTransactions := fraudTransactions;
     TerminalReport.fraudRate := fraudRate;
     TerminalReport.averageAmount := averageAmount;
     TerminalReport.suspiciousActivity := JS.gt fraudRate 0x1.3333333333333p-2 |}.

(** [None] is the [TypeError] of the grouping loop. *)
Definition analyzeTerminalStats (transactions : list Transaction)
  : option (list TerminalReport.t) :=
  terminalGroups ← groupBy TERMINAL_ID transactions;
  Some (sort_desc TerminalReport.fraudRate
          (terminalReport_of <$> Object_entries terminalGroups)).

(** ** [DataAnalyzer.getTransactionsByTimeRange] *)

Definition getTransactionsByTimeRange (transactions : list Transaction)
    (startDay endDay : float) : list Transaction :=
  filter (fun t => js_ge (TX_TIME_DAYS t) startDay
                   && js_le (TX_TIME_DAYS t) endDay = true) transactions.

(** ** [DataAnalyzer.detectAnomalies] *)

(** [new Map(entries.map(e => [key(e), e]))]: entries are set in order, a
    later one replacing an earlier one with the same key. *)
Definition Map_of {A : Type} (key : A -> string) (entries : list A)
  : gmap string A :=
  foldl (fun m e => <[key e := e]> m) ∅ entries.

(** The predicate of the [filter]; [x && x.flag] is [undefined], hence
    falsy, when the map has no entry. *)
Definition is_anomaly (customerMap : gmap string DataAnalyzer.CustomerStats)
    (terminalMap : gmap string TerminalReport.t) (transaction : Transaction)
  : bool :=
  let customer := customerMap !! CUSTOMER_ID transaction in
  let terminal := terminalMap !! TERMINAL_ID transaction in
  let highAmountAnomaly := JS.gt (TX_AMOUNT transaction) 220 in
  let terminalAnomaly :=
    from_option TerminalReport.suspiciousActivity false terminal in
  let customerAnomaly :=
    from_option DataAnalyzer.spendingPatternAnomaly false customer in
  let amountSpike :=
    from_option
      (fun c => JS.gt (TX_AMOUNT transaction) (DataAnalyzer.averageAmount c * 3))
      false customer in
  highAmountAnomaly || terminalAnomaly || customerAnomaly || amountSpike.

(** Both reports are computed first; the [TypeError] of either ([None]) is
    that of the method. *)
Definition detectAnomalies (transactions : list Transaction)
  : option (list Transaction) :=
  customerStats ← DataAnalyzer.analyzeCustomerStats transactions;
  terminalStats ← analyzeTerminalStats transactions;
  let customerMap := Map_of DataAnalyzer.customerId customerStats in
  let terminalMap := Map_of TerminalReport.terminalId terminalStats in
  Some (filter (fun t => is_anomaly customerMap terminalMap t = true)
          transactions).

(** ** [FraudDetector.trainModel], [FraudDetector.isTrainingInProgress] *)

Definition set_isTraining {Model : Type} (b : bool) (this : FraudDetector Model)
  : FraudDetector Model :=
  {| model := model this; scaler := scaler this; isTraining := b |}.

Definition set_model {Model : Type} (m : option Model) (this : FraudDetector Model)
  : FraudDetector Model :=
  {| model := m; scaler := scaler this; isTraining := isTraining this |}.

Definition isTrainingInProgress {Model : Type} (this : FraudDetector Model)
  : bool :=
  isTraining this.

Section Training.

(** The platform functions of the feature extractor and the calls into the
    training backend, each of which may throw: tensor creation for the
    feature matrix and for the label column, the construction of the
    network for a number of inputs, and compilation followed by fitting,
    which works on the network in place and so returns it with the error,
    if any. *)
Variables Math_sin Math_cos : float -> float.
Variable js_rem : float -> float -> float.
Variable Model : Type.
Variable tf_predict : Model -> list (list float) -> string + list float.
Variable Tensor : Type.
Variable tf_tensor2d : list (list float) -> string + Tensor.
Variable tf_tensor2d_column : list (option float) -> string + Tensor.
Variable tf_sequential : nat -> string + Model.
Variable tf_compile_fit : Model -> Tensor -> Tensor -> Model * option string.

(** The [catch] block: reset the flag and rethrow. *)
Definition rethrow (this : FraudDetector Model) (error : thrown)
  : FraudDetector Model * (thrown + ModelMetrics) :=
  (set_isTraining false this, inl error).

Definition trainModel (this : FraudDetector Model)
    (transactions : list Transaction)
  : FraudDetector Model * (thrown + ModelMetrics) :=
  let this := set_isTraining true this in
  match extractFeatures Math_sin Math_cos js_rem transactions with
  | None => rethrow this Thrown_TypeError
  | Some features =>
  let '(this, normalizedFeatures) := normalizeFeatures this features in
  let labels := TX_FRAUD <$> transactions in
  match tf_tensor2d normalizedFeatures with
  | inl e => rethrow this (Thrown_Error e)
  | inr X =>
      match tf_tensor2d_column labels with
      | inl e => rethrow this (Thrown_Error e)
      | inr y =>
          match normalizedFeatures with
          | [] => rethrow this Thrown_TypeError
          | row0 :: _ =>
              match tf_sequential (length row0) with
              | inl e => rethrow this (Thrown_Error e)
              | inr m =>
                  let '(m', failure) := tf_compile_fit m X y in
                  let this := set_model (Some m') this in
                  match failure with
                  | Some e => rethrow this (Thrown_Error e)
                  | None =>
                      match predict Math_sin Math_cos js_rem Model tf_predict
                              this transactions with
                      | inl error => rethrow this error
                      | inr predictions =>
                          match calculateMetrics transactions predictions with
                          | None => rethrow this Thrown_TypeError
                          | Some metrics =>
                              (set_isTraining false this, inr metrics)
                          end
                      end
                  end
              end
          end
      end
  end
  end.

End Training.

(** ** The scoring handlers of [App] ([App.tsx]) *)

Module App.

(** The state hooks that the scoring handlers read or set.  A handler is
    given the state of the render that created it and returns the state
    after the updates it has requested; handlers run one at a time.  The
    detector is one object for the life of the component, so what a method
    does to it is seen by every later handler. *)
Record state {Model : Type} := {
  transactions : list Transaction;
  modelMetrics : option ModelMetrics;
  isTraining : bool;
  isModelTrained : bool;
  fraudDetector : FraudDetector Model
}.
Arguments state : clear implicits.

(** What [handleSinglePrediction] resolves to. *)
Record SinglePrediction := {
  isFraud : bool;
  probability : float;
  scenario : option string
}.

Definition setTransactions {Model : Type} (v : list Transaction)
    (app : state Model) : state Model :=
  {| transactions := v; modelMetrics := modelMetrics app;
     isTraining := isTraining app; isModelTrained := isModelTrained app;
     fraudDetector := fraudDetector app |}.

Definition setModelMetrics {Model : Type} (v : option ModelMetrics)
    (app : state Model) : state Model :=
  {| transactions := transactions app; modelMetrics := v;
     isTraining := isTraining app; isModelTrained := isModelTrained app;
     fraudDetector := fraudDetector app |}.

Definition setIsTraining {Model : Type} (v : bool) (app : state Model)
  : state Model :=
  {| transactions := transactions app; modelMetrics := modelMetrics app;
     isTraining := v; isModelTrained := isModelTrained app;
     fraudDetector := fraudDetector app |}.

Definition setIsModelTrained {Model : Type} (v : bool) (app : state Model)
  : state Model :=
  {| transactions := transactions app; modelMetrics := modelMetrics app;
     isTraining := isTraining app; isModelTrained := v;
     fraudDetector := fraudDetector app |}.

(** Not a hook: the effect of a method on the one detector object. *)
Definition with_detector {Model : Type} (v : FraudDetector Model)
    (app : state Model) : state Model :=
  {| transactions := transactions app; modelMetrics := modelMetrics app;
     isTraining := isTraining app; isModelTrained := isModelTrained app;
     fraudDetector := v |}.


Section Handlers.

Variables Math_sin Math_cos : float -> float.
Variable js_rem : float -> float -> float.
Variable Model : Type.
Variable tf_predict : Model -> list (list float) -> string + list float.
Variable Tensor : Type.
Variable tf_tensor2d : list (list float) -> string + Tensor.
Variable tf_tensor2d_column : list (option float) -> string + Tensor.
Variable tf_sequential : nat -> string + Model.
Variable tf_compile_fit : Model -> Tensor -> Tensor -> Model * option string.

(** The [catch] blocks log, alert and rethrow; the [finally] blocks reset
    [isTraining]. *)
Definition handleModelTrain (app : state Model)
  : state Model * (thrown + ModelMetrics) :=
  let app := setIsTraining true app in
  let '(detector, outcome) :=
    trainModel Math_sin Math_cos js_rem Model tf_predict Tensor tf_tensor2d
      tf_tensor2d_column tf_sequential tf_compile_fit
      (fraudDetector app) (transactions app) in
  let app := with_detector detector app in
  match outcome with
  | inl error => (setIsTraining false app, inl error)
  | inr metrics =>
      let app := setIsModelTrained true (setModelMetrics (Some metrics) app) in
      match predict Math_sin Math_cos js_rem Model tf_predict
              (fraudDetector app) (transactions app) with
      | inl error => (setIsTraining false app, inl error)
      | inr predictedTransactions =>
          (setIsTraining false (setTransactions predictedTransactions app),
           inr metrics)
      end
  end.


(** Reads the state and changes none of it.  [predicted[0]] of an empty
    array is [undefined], and reading its field is a [TypeError]. *)
Definition handleSinglePrediction (app : state Model)
    (transaction : Transaction) : thrown + SinglePrediction :=
  let predicted :=
    if isModelTrained app
    then predict Math_sin Math_cos js_rem Model tf_predict
           (fraudDetector app) [transaction]
    else match detectFraudRuleBased [transaction] with
         | None => inl Thrown_TypeError
         | Some predicted => inr predicted
         end in
  match predicted with
  | inl error => inl error
  | inr predicted =>
      match predicted !! 0 with
      | None => inl Thrown_TypeError
      | Some result =>
          let scenario :=
            if JS.strict_eq (predicted_fraud result) 1
            then if JS.gt (TX_AMOUNT transaction) 220
                 then "High Amount (Scenario 1)"%string
                 else "Pattern-based detection"%string
            else ""%string in
          inr {| isFraud := JS.strict_eq (predicted_fraud result) 1;
                 probability :=
                   JS.opt_or_else (predicted_probability result) 0;
                 scenario :=
                   if decide (scenario = ""%string) then None
                   else Some scenario |}
      end
  end.

End Handlers.

End App.

(** ** The parser ([utils/csvParser.ts]) *)

Module CSV.

(** [s.split(sep)] for a separator of one character: the fields between
    the separators, at least one. *)
Fixpoint split (sep : ascii) (s : string) : list string :=
  match s with
  | EmptyString => [EmptyString]
  | String c rest =>
      if decide (c = sep) then EmptyString :: split sep rest
      else match split sep rest with
           | [] => [String c EmptyString]
           | field :: fields => String c field :: fields
           end
  end.

(** The object under construction, [{} as Transaction]: a field is
    [None] until the loop over the headers assigns it, and again when it is
    assigned [undefined]. *)
Record draft := {
  TRANSACTION_ID : option string;
  TX_DATETIME : option string;
  CUSTOMER_ID : option string;
  TERMINAL_ID : option string;
  TX_AMOUNT : option float;
  TX_TIME_SECONDS : option float;
  TX_TIME_DAYS : option float;
  TX_FRAUD : option float;
  TX_FRAUD_SCENARIO : option float
}.

Definition empty : draft :=
  {| TRANSACTION_ID := None;
     TX_DATETIME := None;
     CUSTOMER_ID := None;
     TERMINAL_ID := None;
     TX_AMOUNT := None;
     TX_TIME_SECONDS := None;
     TX_TIME_DAYS := None;
     TX_FRAUD := None;
     TX_FRAUD_SCENARIO := None |}.

Definition set_TRANSACTION_ID (v : option string) (d : draft) : draft :=
  {| TRANSACTION_ID := v;
     TX_DATETIME := TX_DATETIME d;
     CUSTOMER_ID := CUSTOMER_ID d;
     TERMINAL_ID := TERMINAL_ID d;
     TX_AMOUNT := TX_AMOUNT d;
     TX_TIME_SECONDS := TX_TIME_SECONDS d;
     TX_TIME_DAYS := TX_TIME_DAYS d;
     TX_FRAUD := TX_FRAUD d;
     TX_FRAUD_SCENARIO := TX_FRAUD_SCENARIO d |}.

Definition set_TX_DATETIME (v : option string) (d : draft) : draft :=
  {| TRANSACTION_ID := TRANSACTION_ID d;
     TX_DATETIME := v;
     CUSTOMER_ID := CUSTOMER_ID d;
     TERMINAL_ID := TERMINAL_ID d;
     TX_AMOUNT := TX_AMOUNT d;
     TX_TIME_SECONDS := TX_TIME_SECONDS d;
     TX_TIME_DAYS := TX_TIME_DAYS d;
     TX_FRAUD := TX_FRAUD d;
     TX_FRAUD_SCENARIO := TX_FRAUD_SCENARIO d |}.

Definition set_CUSTOMER_ID (v : option string) (d : draft) : draft :=
  {| TRANSACTION_ID := TRANSACTION_ID d;
     TX_DATETIME := TX_DATETIME d;
     CUSTOMER_ID := v;
     TERMINAL_ID := TERMINAL_ID d;
     TX_AMOUNT := TX_AMOUNT d;
     TX_TIME_SECONDS := TX_TIME_SECONDS d;
     TX_TIME_DAYS := TX_TIME_DAYS d;
     TX_FRAUD := TX_FRAUD d;
     TX_FRAUD_SCENARIO := TX_FRAUD_SCENARIO d |}.

Definition set_TERMINAL_ID (v : option string) (d : draft) : draft :=
  {| TRANSACTION_ID := TRANSACTION_ID d;
     TX_DATETIME := TX_DATETIME d;
     CUSTOMER_ID := CUSTOMER_ID d;
     TERMINAL_ID := v;
     TX_AMOUNT := TX_AMOUNT d;
     TX_TIME_SECONDS := TX_TIME_SECONDS d;
     TX_TIME_DAYS := TX_TIME_DAYS d;
     TX_FRAUD := TX_FRAUD d;
     TX_FRAUD_SCENARIO := TX_FRAUD_SCENARIO d |}.

Definition set_TX_AMOUNT (v : option float) (d : draft) : draft :=
  {| TRANSACTION_ID := TRANSACTION_ID d;
     TX_DATETIME := TX_DATETIME d;
     CUSTOMER_ID := CUSTOMER_ID d;
     TERMINAL_ID := TERMINAL_ID d;
     TX_AMOUNT := v;
     TX_TIME_SECONDS := TX_TIME_SECONDS d;
     TX_TIME_DAYS := TX_TIME_DAYS d;
     TX_FRAUD := TX_FRAUD d;
     TX_FRAUD_SCENARIO := TX_FRAUD_SCENARIO d |}.

Definition set_TX_TIME_SECONDS (v : option float) (d : draft) : draft :=
  {| TRANSACTION_ID := TRANSACTION_ID d;
     TX_DATETIME := TX_DATETIME d;
     CUSTOMER_ID := CUSTOMER_ID d;
     TERMINAL_ID := TERMINAL_ID d;
     TX_AMOUNT := TX_AMOUNT d;
     TX_TIME_SECONDS := v;
     TX_TIME_DAYS := TX_TIME_DAYS d;
     TX_FRAUD := TX_FRAUD d;
     TX_FRAUD_SCENARIO := TX_FRAUD_SCENARIO d |}.

Definition set_TX_TIME_DAYS (v : option float) (d : draft) : draft :=
  {| TRANSACTION_ID := TRANSACTION_ID d;
     TX_DATETIME := TX_DATETIME d;
     CUSTOMER_ID := CUSTOMER_ID d;
     TERMINAL_ID := TERMINAL_ID d;
     TX_AMOUNT := TX_AMOUNT d;
     TX_TIME_SECONDS := TX_TIME_SECONDS d;
     TX_TIME_DAYS := v;
     TX_FRAUD := TX_FRAUD d;
     TX_FRAUD_SCENARIO := TX_FRAUD_SCENARIO d |}.

Definition set_TX_FRAUD (v : option float) (d : draft) : draft :=
  {| TRANSACTION_ID := TRANSACTION_ID d;
     TX_DATETIME := TX_DATETIME d;
     CUSTOMER_ID := CUSTOMER_ID d;
     TERMINAL_ID := TERMINAL_ID d;
     TX_AMOUNT := TX_AMOUNT d;
     TX_TIME_SECONDS := TX_TIME_SECONDS d;
     TX_TIME_DAYS := TX_TIME_DAYS d;
     TX_FRAUD := v;
     TX_FRAUD_SCENARIO := TX_FRAUD_SCENARIO d |}.

Definition set_TX_FRAUD_SCENARIO (v : option float) (d : draft) : draft :=
  {| TRANSACTION_ID := TRANSACTION_ID d;
     TX_DATETIME := TX_DATETIME d;
     CUSTOMER_ID := CUSTOMER_ID d;
     TERMINAL_ID := TERMINAL_ID d;
     TX_AMOUNT := TX_AMOUNT d;
     TX_TIME_SECONDS := TX_TIME_SECONDS d;
     TX_TIME_DAYS := TX_TIME_DAYS d;
     TX_FRAUD := TX_FRAUD d;
     TX_FRAUD_SCENARIO := v |}.

Definition requiredHeaders : list string :=
  ["TRANSACTION_ID"; "TX_DATETIME"; "CUSTOMER_ID"; "TERMINAL_ID";
   "TX_AMOUNT"; "TX_TIME_SECONDS"; "TX_TIME_DAYS"; "TX_FRAUD"]%string.

(** A string is truthy unless it is [undefined] or empty. *)
Definition truthy_string (v : option string) : bool :=
  match v with
  | Some s => bool_decide (s ≠ EmptyString)
  | None => false
  end.

Section Parser.

(** [String.prototype.trim], [parseFloat] and [parseInt] of the platform. *)
Variable trim : string -> string.
Variables parseFloat parseInt : string -> float.

(** [parse(value) || 0]; an [undefined] argument is converted to the
    string "undefined" before it is parsed. *)
Definition number_or_zero (parse : string -> float) (value : option string)
  : float :=
  JS.or_else (parse (default "undefined"%string value)) 0.

(** [parseInt(value) || undefined]. *)
Definition number_or_undefined (parse : string -> float)
    (value : option string) : option float :=
  let n := parse (default "undefined"%string value) in
  if JS.truthy n then Some n else None.

(** The [switch] on the header. *)
Definition assign (transaction : draft) (header : string)
    (value : option string) : draft :=
  if decide (header = "TRANSACTION_ID"%string)
  then set_TRANSACTION_ID value transaction
  else if decide (header = "TX_DATETIME"%string)
  then set_TX_DATETIME value transaction
  else if decide (header = "CUSTOMER_ID"%string)
  then set_CUSTOMER_ID value transaction
  else if decide (header = "TERMINAL_ID"%string)
  then set_TERMINAL_ID value transaction
  else if decide (header = "TX_AMOUNT"%string)
  then set_TX_AMOUNT (Some (number_or_zero parseFloat value)) transaction
  else if decide (header = "TX_TIME_SECONDS"%string)
  then set_TX_TIME_SECONDS (Some (number_or_zero parseInt value)) transaction
  else if decide (header = "TX_TIME_DAYS"%string)
  then set_TX_TIME_DAYS (Some (number_or_zero parseInt value)) transaction
  else if decide (header = "TX_FRAUD"%string)
  then set_TX_FRAUD (Some (number_or_zero parseInt value)) transaction
  else if decide (header = "TX_FRAUD_SCENARIO"%string)
  then set_TX_FRAUD_SCENARIO (number_or_undefined parseInt value) transaction
  else transaction.

(** [headers.forEach((header, index) => ...)] for the fields [values] of
    one line: [values[index]?.trim()] is [undefined] beyond the fields. *)
Definition fill (headers values : list string) : draft :=
  foldl (fun transaction '(index, header) =>
           assign transaction header (trim <$> values !! index))
        empty (imap pair headers).

(** The body of the loop over the lines: [None] when the line is skipped
    or the object is not pushed. *)
Definition parse_line (headers : list string) (line : string) : option draft :=
  let values := split "," line in
  if decide (length values ≠ length headers) then None
  else
    let transaction := fill headers values in
    if truthy_string (TRANSACTION_ID transaction)
       && truthy_string (CUSTOMER_ID transaction)
       && truthy_string (TERMINAL_ID transaction)
    then Some transaction
    else None.

(** [lines[0]] of an empty array is [undefined], and calling its [split]
    is a [TypeError]. *)
Definition parseCSV (csvContent : string) : thrown + list draft :=
  let lines := split "010" (trim csvContent) in
  match lines with
  | [] => inl Thrown_TypeError
  | line0 :: rest =>
      let headers := trim <$> split "," line0 in
      let missingHeaders := filter (fun h => h ∉ headers) requiredHeaders in
      if decide (0 < length missingHeaders)
      then inl (Thrown_Error
                  ("Missing required columns: "
                   +:+ String.concat ", " missingHeaders))
      else inr (omap (parse_line headers) rest)
  end.

End Parser.

End CSV.

(** The [Transaction] that a parsed object is, when each of its eight
    required fields is set. *)
Definition complete (d : CSV.draft) : option Transaction :=
  transaction_id ← CSV.TRANSACTION_ID d;
  tx_datetime ← CSV.TX_DATETIME d;
  customer_id ← CSV.CUSTOMER_ID d;
  terminal_id ← CSV.TERMINAL_ID d;
  tx_amount ← CSV.TX_AMOUNT d;
  tx_time_seconds ← CSV.TX_TIME_SECONDS d;
  tx_time_days ← CSV.TX_TIME_DAYS d;
  tx_fraud ← CSV.TX_FRAUD d;
  Some {| TRANSACTION_ID := transaction_id; TX_DATETIME := tx_datetime;
          CUSTOMER_ID := customer_id; TERMINAL_ID := terminal_id;
          TX_AMOUNT := tx_amount; TX_TIME_SECONDS := tx_time_seconds;
          TX_TIME_DAYS := tx_time_days; TX_FRAUD := Some tx_fraud;
          TX_FRAUD_SCENARIO := CSV.TX_FRAUD_SCENARIO d;
          predicted_fraud := None; predicted_probability := None;
          predicted_scenario := None |}.

(** ** The figures of the analytics view ([components/Analytics.tsx]) *)

Module Analytics.

Record range := {
  label : string;
  min : float;
  max : float;
  color : string
}.

Definition amountRanges : list range :=
  [ {| label := "$0 - $50"; min := 0; max := 50; color := "bg-green-500" |};
    {| label := "$50 - $100"; min := 50; max := 100; color := "bg-blue-500" |};
    {| label := "$100 - $150"; min := 100; max := 150;
       color := "bg-yellow-500" |};
    {| label := "$150 - $220"; min := 150; max := 220;
       color := "bg-orange-500" |};
    {| label := "$220+"; min := 220; max := infinity; color := "bg-red-500" |} ].

(** A range with its figures: the object spread [{...range, total, fraud,
    fraudRate}]. *)
Record bucket := {
  of_range : range;
  total : nat;
  fraud : nat;
  fraudRate : float
}.

(** [t.TX_AMOUNT >= range.min && t.TX_AMOUNT < range.max]. *)
Definition in_range (r : range) (t : Transaction) : bool :=
  js_ge (TX_AMOUNT t) (min r) && js_lt (TX_AMOUNT t) (max r).

Definition amountDistribution (transactions : list Transaction)
  : list bucket :=
  (fun range =>
     let transactionsInRange :=
       filter (fun t => in_range range t = true) transactions in
     let fraudInRange := fraud_rows transactionsInRange in
     {| of_range := range;
        total := length transactionsInRange;
        fraud := length fraudInRange;
        fraudRate :=
          if decide (0 < length transactionsInRange)
          then (JS.of_length (length fraudInRange)
                / JS.of_length (length transactionsInRange))%float
          else 0%float |})
  <$> amountRanges.

(** [terminalStats.filter(ts => ts.suspiciousActivity).slice(0, 5)]. *)
Definition riskyTerminals (terminalStats : list TerminalReport.t)
  : list TerminalReport.t :=
  take 5 (filter (fun ts => TerminalReport.suspiciousActivity ts = true)
            terminalStats).

(** [customerStats.filter(cs => cs.spendingPatternAnomaly
    || cs.fraudRate > 0.1).slice(0, 5)]. *)
Definition riskyCustomers (customerStats : list DataAnalyzer.CustomerStats)
  : list DataAnalyzer.CustomerStats :=
  take 5 (filter (fun cs =>
                    DataAnalyzer.spendingPatternAnomaly cs
                    || JS.gt (DataAnalyzer.fraudRate cs) one_tenth = true)
            customerStats).

End Analytics.

(** ** Notions used in the further statements *)

(** The sum of a weight over the rows of a list. *)
Definition weigh (w : Transaction -> nat) (txs : list Transaction) : nat :=
  sum_list_with w txs.

(** The total weight of the groups of a dictionary. *)
Definition groups_weight (w : Transaction -> nat)
    (d : list (string * list Transaction)) : nat :=
  sum_list_with (fun kv => weigh w kv.2) d.

(** A row that the counting loop of the evaluator puts into a cell. *)
Definition counted (a p : Transaction) : bool :=
  is_binary (TX_FRAUD a)
  && ((JS.opt_or_else (predicted_fraud p) 0 =? 0)%float
      || (JS.opt_or_else (predicted_fraud p) 0 =? 1)%float).

(** Two transactions that the aggregators cannot tell apart. *)
Definition same_for_stats (t u : Transaction) : Prop :=
  CUSTOMER_ID t = CUSTOMER_ID u ∧ TERMINAL_ID t = TERMINAL_ID u
  ∧ TX_AMOUNT t = TX_AMOUNT u ∧ TX_FRAUD t = TX_FRAUD u.

(** The three fields that a classifier adds to a transaction. *)
Definition verdict_of (r : Transaction)
  : option float * option float * option float :=
  (predicted_fraud r, predicted_scenario r, predicted_probability r).

Definition verdicts_of (rows : list Transaction)
  : list (option float * option float * option float) :=
  verdict_of <$> rows.

(** A scored transaction that still holds what its source held, the
    predicted label and probability apart. *)
Definition keeps_input (t r : Transaction) : Prop :=
  TRANSACTION_ID r = TRANSACTION_ID t ∧ TX_DATETIME r = TX_DATETIME t
  ∧ CUSTOMER_ID r = CUSTOMER_ID t ∧ TERMINAL_ID r = TERMINAL_ID t
  ∧ TX_AMOUNT r = TX_AMOUNT t ∧ TX_TIME_SECONDS r = TX_TIME_SECONDS t
  ∧ TX_TIME_DAYS r = TX_TIME_DAYS t ∧ TX_FRAUD r = TX_FRAUD t
  ∧ TX_FRAUD_SCENARIO r = TX_FRAUD_SCENARIO t
  ∧ predicted_scenario r = predicted_scenario t.

(** The object after the loop over [headers]: the field of every required
    header among them is set. *)
Definition filled (headers : list string) (d : CSV.draft) : Prop :=
  ("TRANSACTION_ID"%string ∈ headers → is_Some (CSV.TRANSACTION_ID d))
  ∧ ("TX_DATETIME"%string ∈ headers → is_Some (CSV.TX_DATETIME d))
  ∧ ("CUSTOMER_ID"%string ∈ headers → is_Some (CSV.CUSTOMER_ID d))
  ∧ ("TERMINAL_ID"%string ∈ headers → is_Some (CSV.TERMINAL_ID d))
  ∧ ("TX_AMOUNT"%string ∈ headers → is_Some (CSV.TX_AMOUNT d))
  ∧ ("TX_TIME_SECONDS"%string ∈ headers → is_Some (CSV.TX_TIME_SECONDS d))
  ∧ ("TX_TIME_DAYS"%string ∈ headers → is_Some (CSV.TX_TIME_DAYS d))
  ∧ ("TX_FRAUD"%string ∈ headers → is_Some (CSV.TX_FRAUD d)).

(** No numeric field of the object holds [NaN], and the scenario, when
    set, is truthy. *)
Definition numbers_sound (d : CSV.draft) : Prop :=
  (∀ x, CSV.TX_AMOUNT d = Some x → is_nan x = false)
  ∧ (∀ x, CSV.TX_TIME_SECONDS d = Some x → is_nan x = false)
  ∧ (∀ x, CSV.TX_TIME_DAYS d = Some x → is_nan x = false)
  ∧ (∀ x, CSV.TX_FRAUD d = Some x → is_nan x = false)
  ∧ (∀ x, CSV.TX_FRAUD_SCENARIO d = Some x → JS.truthy x = true).

(** What the parser promises of a row. *)
Definition well_formed (t : Transaction) : Prop :=
  TRANSACTION_ID t ≠ EmptyString ∧ CUSTOMER_ID t ≠ EmptyString
  ∧ TERMINAL_ID t ≠ EmptyString
  ∧ is_nan (TX_AMOUNT t) = false ∧ is_nan (TX_TIME_SECONDS t) = false
  ∧ is_nan (TX_TIME_DAYS t) = false
  ∧ (∃ label, TX_FRAUD t = Some label ∧ is_nan label = false)
  ∧ (∀ s, TX_FRAUD_SCENARIO t = Some s → JS.truthy s = true)
  ∧ predicted_fraud t = None ∧ predicted_probability t = None
  ∧ predicted_scenario t = None.

(** [a] may stand before [b] in a list sorted by descending rate. *)
Definition descending {A : Type} (rate : A -> float) (a b : A) : Prop :=
  (rate b <=? rate a)%float = true.

(** A training backend for the worked examples: tensors are the data they
    were made from, a network is its number of inputs, fitting succeeds and
    scoring answers 0.75 for every row. *)
Definition sample_tensor2d (values : list (list float))
  : string + list (list float) := inr values.
Definition sample_tensor2d_column (labels : list (option float))
  : string + list (list float) := inr [].
Definition sample_sequential (inputs : nat) : string + nat := inr inputs.
Definition sample_compile_fit (m : nat) (X y : list (list float))
  : nat * option string := (m, None).
Definition sample_predict (m : nat) (features : list (list float))
  : string + list float := inr (replicate (length features) 0.75%float).

(** A backend that cannot create tensors. *)
Definition failing_tensor2d (values : list (list float))
  : string + list (list float) := inl "out of memory"%string.

(** Training and scoring over that backend, and training over the backend
    that cannot create tensors. *)
Definition sample_trainModel
  : FraudDetector nat -> list Transaction
    -> FraudDetector nat * (thrown + ModelMetrics) :=
  trainModel small_angle_sin small_angle_cos rem_below_modulus nat
    sample_predict (list (list float)) sample_tensor2d sample_tensor2d_column
    sample_sequential sample_compile_fit.


Definition failing_trainModel
  : FraudDetector nat -> list Transaction
    -> FraudDetector nat * (thrown + ModelMetrics) :=
  trainModel small_angle_sin small_angle_cos rem_below_modulus nat
    sample_predict (list (list float)) failing_tensor2d sample_tensor2d_column
    sample_sequential sample_compile_fit.


(** The component before any training, holding the ground truth of the
    examples, and its handlers over the sample backend. *)
Definition fresh_app : App.state nat :=
  {| App.transactions := truth_batch; App.modelMetrics := None;
     App.isTraining := false; App.isModelTrained := false;
     App.fraudDetector := new_FraudDetector |}.

Definition sample_handleModelTrain
  : App.state nat -> App.state nat * (thrown + ModelMetrics) :=
  App.handleModelTrain small_angle_sin small_angle_cos rem_below_modulus nat
    sample_predict (list (list float)) sample_tensor2d sample_tensor2d_column
    sample_sequential sample_compile_fit.

Definition sample_handleSinglePrediction
  : App.state nat -> Transaction -> thrown + App.SinglePrediction :=
  App.handleSinglePrediction small_angle_sin small_angle_cos rem_below_modulus
    nat sample_predict.

(** One legitimate row at terminal T1 followed by one fraudulent row at
    terminal T2. *)
Definition two_terminal_batch : list Transaction :=
  [labelled_tx "A" "T1" 50 0; labelled_tx "B" "T2" 50 1].

(** Stand-ins for the platform functions of the parser in closed examples:
    text without surrounding white space is its own trim, and a non-empty
    string of decimal digits parses to its number, any other text to
    [NaN]. *)
Definition trim_of_trimmed (s : string) : string := s.

Definition parse_of_digits (s : string) : float :=
  match s with
  | EmptyString => nan
  | _ => match parse_digits 0 s with
         | Some n => of_uint63 (Uint63.of_Z (Z.of_N n))
         | None => nan
         end
  end.

Definition sample_parseCSV : string -> thrown + list CSV.draft :=
  CSV.parseCSV trim_of_trimmed parse_of_digits parse_of_digits.

(** A header line with the eight required columns, a row whose label does
    not parse, a row without a transaction id, and a row with two fields. *)
Definition sample_csv : string :=
  String.concat (String "010" EmptyString)
    ["TRANSACTION_ID,TX_DATETIME,CUSTOMER_ID,TERMINAL_ID,TX_AMOUNT,TX_TIME_SECONDS,TX_TIME_DAYS,TX_FRAUD";
     "7,2018-04-01,C1,T1,50,31,0,yes";
     ",2018-04-01,C1,T1,50,31,0,1";
     "8,2018-04-01"]%string.

(** A header line and one row of the customer [constructor]. *)
Definition inherited_csv : string :=
  String.concat (String "010" EmptyString)
    ["TRANSACTION_ID,TX_DATETIME,CUSTOMER_ID,TERMINAL_ID,TX_AMOUNT,TX_TIME_SECONDS,TX_TIME_DAYS,TX_FRAUD";
     "7,2018-04-01,constructor,T1,50,31,0,0"]%string.

(** A labelled row followed by a row without a label. *)
Definition half_labelled_batch : list Transaction :=
  [labelled_tx "C" "T" 10 1; sample_tx "C" "T" 10 None].

(** * Properties *)

(** ** Dictionaries and grouping *)

Module DictFacts.
Section DictFacts.
Context {V : Type}.
Implicit Types (d : list (string * V)) (k : string).

Lemma get_app k d1 d2 :
  Dict.get k (d1 ++ d2) =
  match Dict.get k d1 with
  | Some v => Some v
  | None => Dict.get k d2
  end.
Proof.
  induction d1 as [|[k' v] d1 IH]; simpl; [done|].
  destruct (decide (k = k')); [done | apply IH].
Qed.

Lemma get_update f k k' d :
  Dict.get k (Dict.update f k' d) =
  if decide (k = k') then f <$> Dict.get k d else Dict.get k d.
Proof.
  induction d as [|[k0 v] d IH]; simpl.
  - by destruct (decide (k = k')).
  - destruct (decide (k' = k0)) as [->|Hne]; simpl;
      destruct (decide (k = k0)) as [->|Hk]; simpl;
      try rewrite IH; repeat case_decide; congruence.
Qed.

Lemma keys_update f k d : (Dict.update f k d).*1 = d.*1.
Proof.
  induction d as [|[k0 v] d IH]; simpl; [done|].
  destruct (decide (k = k0)); csimpl; [done | by f_equal].
Qed.

Lemma get_None k d : Dict.get k d = None ↔ k ∉ d.*1.
Proof.
  induction d as [|[k0 v] d IH]; simpl.
  - split; [intros _; apply not_elem_of_nil | done].
  - rewrite not_elem_of_cons. destruct (decide (k = k0)) as [->|Hne].
    + split; [done | by intros [? _]].
    + rewrite IH. tauto.
Qed.

Lemma get_Some k v d :
  NoDup d.*1 → Dict.get k d = Some v ↔ (k, v) ∈ d.
Proof.
  induction d as [|[k0 v0] d IH]; simpl; intros Hnd.
  - split; [done | by intros ?%elem_of_nil].
  - apply NoDup_cons in Hnd as [Hk0 Hnd].
    rewrite elem_of_cons. destruct (decide (k = k0)) as [->|Hne].
    + split; [intros [= ->]; by left|].
      intros [[= ->]|Hin]; [done|].
      destruct Hk0. apply list_elem_of_fmap. by exists (k0, v).
    + rewrite IH by done. split; [by right|].
      intros [[= -> ->]|Hin]; done.
Qed.

Lemma get_Permutation k d d' :
  NoDup d.*1 → d ≡ₚ d' → Dict.get k d = Dict.get k d'.
Proof.
  intros Hnd Hp.
  assert (NoDup d'.*1) as Hnd' by (by rewrite <- Hp).
  destruct (Dict.get k d) as [v|] eqn:Hg.
  - symmetry. apply get_Some; [done|]. rewrite <- Hp. by apply get_Some.
  - symmetry. apply get_None. rewrite <- Hp. by apply get_None.
Qed.

(** Filling a [Map] from the entries of a dictionary. *)
Lemma lookup_fill {W : Type} (f : V → W) d k (m0 : gmap string W) :
  foldl (fun m '(k', v) => <[k' := f v]> m) m0 d !! k =
  match Dict.get k (reverse d) with
  | Some v => Some (f v)
  | None => m0 !! k
  end.
Proof.
  revert m0. induction d as [|[k0 v] d IH]; intros m0; simpl; [done|].
  rewrite IH, reverse_cons, get_app. simpl.
  destruct (Dict.get k (reverse d)); [done|].
  destruct (decide (k = k0)) as [->|Hne].
  - by rewrite lookup_insert_eq.
  - by rewrite lookup_insert_ne.
Qed.
End DictFacts.
End DictFacts.

Lemma Object_entries_Permutation {V : Type} (d : list (string * V)) :
  Object_entries d ≡ₚ d.
Proof.
  unfold Object_entries. rewrite merge_sort_Permutation.
  apply filter_app_complement.
Qed.

Lemma groupBy_snoc key txs t :
  groupBy key (txs ++ [t]) = (groupBy key txs ≫= λ d, group_step key d t).
Proof. unfold groupBy. by rewrite foldl_snoc. Qed.

Lemma groupBy_snoc_Some key txs t d :
  groupBy key (txs ++ [t]) = Some d
  ↔ ∃ d0, groupBy key txs = Some d0 ∧ group_step key d0 t = Some d.
Proof. rewrite groupBy_snoc. apply bind_Some. Qed.

(** What a step that does not throw has done. *)
Lemma group_step_Some key d0 t d :
  group_step key d0 t = Some d →
  match Dict.get (key t) d0 with
  | Some _ => d = Dict.update (λ g, g ++ [t]) (key t) d0
  | None => (key t ∉ Object_prototype_names) ∧ d = d0 ++ [(key t, [t])]
  end.
Proof.
  unfold group_step. destruct (Dict.get (key t) d0); [by intros [= <-]|].
  case_decide; [done|]. by intros [= <-].
Qed.

Lemma groupBy_NoDup key txs d : groupBy key txs = Some d → NoDup d.*1.
Proof.
  revert d. induction txs as [|t txs IH] using rev_ind; intros d.
  { intros [= <-]. constructor. }
  intros (d0 & Hd0 & Hstep)%groupBy_snoc_Some.
  specialize (IH d0 Hd0). apply group_step_Some in Hstep.
  destruct (Dict.get (key t) d0) eqn:Hg.
  - subst d. by rewrite DictFacts.keys_update.
  - destruct Hstep as [_ ->]. rewrite fmap_app. simpl.
    apply NoDup_app. split; [done|]. split.
    + intros k Hk ->%list_elem_of_singleton. by apply DictFacts.get_None in Hg.
    + apply NoDup_singleton.
Qed.

(** The group stored under a key is the sub-list of that key's rows, in
    batch order; a key without rows has no entry. *)
Lemma groupBy_get key txs d k :
  groupBy key txs = Some d →
  Dict.get k d =
  match rows_of key k txs with
  | [] => None
  | g => Some g
  end.
Proof.
  unfold rows_of. revert d.
  induction txs as [|t txs IH] using rev_ind; intros d.
  { by intros [= <-]. }
  intros (d0 & Hd0 & Hstep)%groupBy_snoc_Some.
  specialize (IH d0 Hd0). apply group_step_Some in Hstep.
  rewrite filter_app.
  destruct (Dict.get (key t) d0) as [g0|] eqn:Hg.
  - subst d. rewrite DictFacts.get_update.
    destruct (decide (k = key t)) as [->|Hne].
    + rewrite Hg in IH. rewrite Hg. simpl.
      rewrite filter_cons_True by done. rewrite filter_nil.
      destruct (filter _ txs) as [|x g]; [done|]. by injection IH as ->.
    + rewrite filter_cons_False by done. rewrite filter_nil, app_nil_r. apply IH.
  - destruct Hstep as [_ ->]. rewrite DictFacts.get_app. simpl.
    destruct (decide (k = key t)) as [->|Hne].
    + rewrite Hg in IH. rewrite Hg.
      rewrite filter_cons_True by done. rewrite filter_nil.
      destruct (filter _ txs) as [|x g]; [done | discriminate].
    + rewrite filter_cons_False by done. rewrite filter_nil, app_nil_r.
      rewrite IH. by destruct (filter _ txs).
Qed.

Lemma plain_keys_snoc key txs t :
  plain_keys key (txs ++ [t])
  ↔ plain_keys key txs ∧ key t ∉ Object_prototype_names.
Proof. unfold plain_keys. by rewrite Forall_app, Forall_singleton. Qed.

Lemma not_plain_keys key txs :
  ¬ plain_keys key txs ↔ ∃ t, t ∈ txs ∧ key t ∈ Object_prototype_names.
Proof.
  unfold plain_keys. rewrite <- Exists_exists. split.
  - intros H%not_Forall_Exists; [|apply _].
    eapply Exists_impl; [exact H|]. intros t Ht. by apply dec_stable.
  - intros Hex Hall. eapply Forall_not_Exists; [|exact Hex].
    eapply Forall_impl; [exact Hall|]. intros t Ht. exact Ht.
Qed.

(** The grouping loop returns exactly on the batches without an inherited
    key. *)
Lemma groupBy_is_Some key txs : is_Some (groupBy key txs) ↔ plain_keys key txs.
Proof.
  induction txs as [|t txs IH] using rev_ind.
  { split; [constructor | by eexists]. }
  rewrite plain_keys_snoc. split.
  - intros [d (d0 & Hd0 & Hstep)%groupBy_snoc_Some].
    assert (plain_keys key txs) as Hplain by (apply IH; by eexists).
    split; [done|]. apply group_step_Some in Hstep.
    destruct (Dict.get (key t) d0) as [g|] eqn:Hg; [|by destruct Hstep].
    rewrite (groupBy_get key txs d0 (key t) Hd0) in Hg.
    destruct (rows_of key (key t) txs) as [|t' g'] eqn:Hrows; [done|].
    assert (t' ∈ rows_of key (key t) txs) as Hin by (rewrite Hrows; left).
    apply list_elem_of_filter in Hin as [Hk Hin]. rewrite <- Hk.
    unfold plain_keys in Hplain. rewrite Forall_forall in Hplain. by apply Hplain.
  - intros [[d0 Hd0]%IH Ht]. rewrite groupBy_snoc, Hd0. simpl.
    unfold group_step. destruct (Dict.get (key t) d0); [by eexists|].
    rewrite decide_False by done. by eexists.
Qed.

Lemma groupBy_None key txs : groupBy key txs = None ↔ ¬ plain_keys key txs.
Proof. by rewrite eq_None_not_Some, groupBy_is_Some. Qed.

(** ** Numbers: array lengths and counters as binary64 values *)

Module FloatFacts.

Lemma digits2_pos_iter_xO p n :
  digits2_pos (Pos.iter xO p n) = (digits2_pos p + n)%positive.
Proof.
  induction n as [|n IH] using Pos.peano_ind.
  - simpl. lia.
  - rewrite Pos.iter_succ. simpl. rewrite IH. lia.
Qed.

Lemma digits2_pos_size p : digits2_pos p = Pos.size p.
Proof. induction p; simpl; congruence. Qed.

Lemma digits2_pos_bound p k :
  (0 <= k)%Z → (Zpos p < 2 ^ k)%Z → (Zpos (digits2_pos p) <= k)%Z.
Proof.
  intros Hk Hp. rewrite digits2_pos_size.
  pose proof (Pos.size_le p) as Hs.
  assert (2 ^ Zpos (Pos.size p) <= 2 * Zpos p)%Z as Hs'.
  { rewrite <- Pos2Z.inj_pow. change (2 * Zpos p)%Z with (Zpos p~0). lia. }
  assert (2 ^ Zpos (Pos.size p) < 2 ^ (k + 1))%Z as Hlt.
  { rewrite Z.pow_add_r, Z.pow_1_r by lia. lia. }
  apply Z.pow_lt_mono_r_iff in Hlt; lia.
Qed.

(** An integer of fewer than 53 bits is converted without rounding: its
    mantissa is the integer shifted up to 53 bits. *)
Lemma binary_normalize_small p :
  (Zpos (digits2_pos p) < 53)%Z →
  binary_normalize prec emax (Zpos p) 0 false =
  S754_finite false
    (Pos.iter xO p (Z.to_pos (53 - Zpos (digits2_pos p))))
    (Zpos (digits2_pos p) - 53).
Proof.
  intros Hd.
  unfold binary_normalize, binary_round.
  set (d := digits2_pos p) in *.
  assert (Hfexp : fexp prec emax (Zpos d + 0) = (Zpos d - 53)%Z).
  { unfold fexp, SpecFloat.emin, prec, emax. lia. }
  rewrite Hfexp. unfold shl_align.
  destruct (Zpos d - 53 - 0)%Z as [|q|q] eqn:Hq; try lia.
  assert (q = Z.to_pos (53 - Zpos d)) as -> by lia.
  set (k := Z.to_pos (53 - Zpos d)).
  unfold binary_round_aux.
  assert (Hdig : Zdigits2 (Zpos (Pos.iter xO p k)) = 53%Z).
  { simpl. rewrite digits2_pos_iter_xO. fold d. unfold k. lia. }
  assert (Hsh :
    shr_fexp prec emax (Zpos (Pos.iter xO p k)) (Zpos d - 53) loc_Exact =
    ({| shr_m := Zpos (Pos.iter xO p k); shr_r := false; shr_s := false |},
     (Zpos d - 53)%Z)).
  { unfold shr_fexp. rewrite Hdig.
    replace (fexp prec emax (53 + (Zpos d - 53)) - (Zpos d - 53))%Z with 0%Z
      by (unfold fexp, SpecFloat.emin, prec, emax; lia).
    reflexivity. }
  rewrite Hsh. simpl shr_m. simpl loc_of_shr_record. simpl round_nearest_even.
  rewrite Hsh. simpl shr_m.
  replace (Zpos d - 53 <=? emax - prec)%Z with true; [done|].
  symmetry. apply Z.leb_le. unfold emax, prec. lia.
Qed.

Lemma Prim2SF_one : Prim2SF 1 = SF_one.
Proof. reflexivity. Qed.

Lemma Prim2SF_zero : Prim2SF 0 = S754_zero false.
Proof. reflexivity. Qed.

(** The length of a non-empty array is a positive finite number that is
    at least one. *)
Lemma of_length_finite n :
  1 ≤ n → (Z.of_nat n < 2 ^ 32)%Z →
  ∃ m e, Prim2SF (JS.of_length n) = S754_finite false m e
         ∧ SFleb SF_one (S754_finite false m e) = true.
Proof.
  intros Hn Hlt. unfold JS.of_length.
  rewrite of_uint63_spec, Uint63.of_Z_spec.
  rewrite Z.mod_small by (change wB with (2 ^ 63)%Z; lia).
  destruct (Z.of_nat n) as [|p|p] eqn:Hp; try lia.
  pose proof (digits2_pos_bound p 32 ltac:(lia) Hlt) as Hd.
  rewrite binary_normalize_small by lia.
  eexists _, _. split; [reflexivity|].
  unfold SFleb, SFcompare, SF_one.
  destruct (decide (digits2_pos p = 1%positive)) as [H1|H1].
  - assert (p = 1%positive) as -> by (destruct p; simpl in H1; lia).
    reflexivity.
  - replace (-52 ?= Zpos (digits2_pos p) - 53)%Z with Lt; [done|].
    symmetry. apply Z.compare_lt_iff. lia.
Qed.

Lemma of_length_zero : JS.of_length 0 = 0%float.
Proof. reflexivity. Qed.

Lemma compare_cont_refl m : Pos.compare_cont Eq m m = Eq.
Proof. apply Pos.compare_refl. Qed.

(** A positive finite number is truthy. *)
Lemma truthy_finite_pos x m e :
  Prim2SF x = S754_finite false m e → JS.truthy x = true.
Proof.
  intros Hx. unfold JS.truthy, is_nan.
  rewrite !FloatAxioms.eqb_spec, Hx, Prim2SF_zero.
  unfold SFeqb, SFcompare. rewrite Z.compare_refl, compare_cont_refl. done.
Qed.

Lemma truthy_of_length n :
  1 ≤ n → (Z.of_nat n < 2 ^ 32)%Z → JS.truthy (JS.of_length n) = true.
Proof.
  intros Hn Hlt. destruct (of_length_finite n Hn Hlt) as (m & e & Hx & _).
  by eapply truthy_finite_pos.
Qed.

Lemma one_le_of_length n :
  1 ≤ n → (Z.of_nat n < 2 ^ 32)%Z → (1 <=? JS.of_length n)%float = true.
Proof.
  intros Hn Hlt. destruct (of_length_finite n Hn Hlt) as (m & e & Hx & Hle).
  by rewrite FloatAxioms.leb_spec, Hx, Prim2SF_one.
Qed.

(** Zero divided by the length of a non-empty array is zero. *)
Lemma zero_div_of_length n :
  1 ≤ n → (Z.of_nat n < 2 ^ 32)%Z → (0 / JS.of_length n)%float = 0%float.
Proof.
  intros Hn Hlt. destruct (of_length_finite n Hn Hlt) as (m & e & Hx & _).
  apply Prim2SF_inj. by rewrite FloatAxioms.div_spec, Hx, Prim2SF_zero.
Qed.

(** [x || d] is [x] when [x] is truthy and never falsy when [d] is
    truthy. *)
Lemma or_else_truthy x d : JS.truthy d = true → JS.truthy (JS.or_else x d) = true.
Proof. intros Hd. unfold JS.or_else. by destruct (JS.truthy x) eqn:Hx. Qed.

(** Only the number one is [=== 1]. *)
Lemma eqb_one x : (x =? 1)%float = true → x = 1%float.
Proof.
  rewrite FloatAxioms.eqb_spec, Prim2SF_one. intros H.
  apply Prim2SF_inj. rewrite Prim2SF_one.
  unfold SFeqb, SFcompare, SF_one in *.
  destruct (Prim2SF x) as [s|s| |s m e]; try discriminate.
  - by destruct s.
  - destruct s; [discriminate|].
    destruct (e ?= -52)%Z eqn:He; try discriminate.
    apply Z.compare_eq in He as ->.
    destruct (Pos.compare_cont Eq m 4503599627370496) eqn:Hm; try discriminate.
    by apply Pos.compare_eq in Hm as ->.
Qed.

(** A number that is [=== 0] is falsy. *)
Lemma eqb_zero_falsy x : (x =? 0)%float = true → JS.truthy x = false.
Proof. intros H. unfold JS.truthy. rewrite H. by destruct (is_nan x). Qed.

(** The difference of a finite number with itself is [+0]. *)
Lemma sub_diag_finite x :
  is_nan x = false → is_infinity x = false → (x - x)%float = 0%float.
Proof.
  unfold is_nan, is_infinity.
  rewrite !FloatAxioms.eqb_spec, FloatAxioms.abs_spec. intros Hnan Hinf.
  apply Prim2SF_inj. rewrite FloatAxioms.sub_spec, Prim2SF_zero.
  destruct (Prim2SF x) as [s|s| |s m e]; simpl in *; try discriminate.
  - by destruct s.
  - unfold SF64sub, SFsub. rewrite Z.sub_diag. done.
Qed.


End FloatFacts.

(** ** Order of binary64 numbers *)

Module FloatOrder.

Ltac sf_order :=
  repeat match goal with
  | |- context [Pos.compare_cont Eq ?a ?b] =>
      change (Pos.compare_cont Eq a b) with (Pos.compare a b)
  | H : context [Pos.compare_cont Eq ?a ?b] |- _ =>
      change (Pos.compare_cont Eq a b) with (Pos.compare a b) in H
  end;
  repeat match goal with
  | H : context [Z.compare ?a ?b] |- _ =>
      destruct (Z.compare_spec a b); simpl in H; try discriminate
  | H : context [Pos.compare ?a ?b] |- _ =>
      destruct (Pos.compare_spec a b); simpl in H; try discriminate
  end;
  repeat match goal with
  | |- context [Z.compare ?a ?b] =>
      destruct (Z.compare_spec a b); simpl; try lia
  | |- context [Pos.compare ?a ?b] =>
      destruct (Pos.compare_spec a b); simpl; try lia
  end;
  try reflexivity; try discriminate; try lia.

Lemma SFltb_trans x y z :
  SFltb x y = true → SFltb y z = true → SFltb x z = true.
Proof.
  unfold SFltb, SFcompare.
  destruct x as [[]|[]| |[] mx ex], y as [[]|[]| |[] my ey],
    z as [[]|[]| |[] mz ez];
    simpl; intros Hxy Hyz; try discriminate; try reflexivity; sf_order.
Qed.

Lemma SFleb_trans x y z :
  SFleb x y = true → SFleb y z = true → SFleb x z = true.
Proof.
  unfold SFleb, SFcompare.
  destruct x as [[]|[]| |[] mx ex], y as [[]|[]| |[] my ey],
    z as [[]|[]| |[] mz ez];
    simpl; intros Hxy Hyz; try discriminate; try reflexivity; sf_order.
Qed.

Lemma SFleb_not_ltb x y : SFleb x y = true → SFltb y x = false.
Proof.
  unfold SFleb, SFltb, SFcompare.
  destruct x as [[]|[]| |[] mx ex], y as [[]|[]| |[] my ey];
    simpl; intros Hxy; try discriminate; try reflexivity; sf_order.
Qed.

Lemma ltb_trans x y z :
  (x <? y)%float = true → (y <? z)%float = true → (x <? z)%float = true.
Proof. rewrite !FloatAxioms.ltb_spec. apply SFltb_trans. Qed.

Lemma leb_trans x y z :
  (x <=? y)%float = true → (y <=? z)%float = true → (x <=? z)%float = true.
Proof. rewrite !FloatAxioms.leb_spec. apply SFleb_trans. Qed.

Lemma leb_not_ltb x y : (x <=? y)%float = true → (y <? x)%float = false.
Proof. rewrite FloatAxioms.leb_spec, FloatAxioms.ltb_spec. apply SFleb_not_ltb. Qed.

(** No comparison with [NaN] holds. *)
Lemma leb_NaN_r x : is_nan x = true → ∀ y, (y <=? x)%float = false.
Proof.
  unfold is_nan. rewrite FloatAxioms.eqb_spec. intros Hx y.
  rewrite FloatAxioms.leb_spec. unfold SFeqb, SFleb, SFcompare in *.
  destruct (Prim2SF x) as [[]|[]| |[] mx ex]; simpl in Hx;
    try discriminate; try (by destruct (Prim2SF y) as [[]|[]| |[] ? ?]).
  all: revert Hx; sf_order.
Qed.

Lemma leb_NaN_l x : is_nan x = true → ∀ y, (x <=? y)%float = false.
Proof.
  unfold is_nan. rewrite FloatAxioms.eqb_spec. intros Hx y.
  rewrite FloatAxioms.leb_spec. unfold SFeqb, SFleb, SFcompare in *.
  destruct (Prim2SF x) as [[]|[]| |[] mx ex]; simpl in Hx;
    try discriminate; try done.
  all: revert Hx; sf_order.
Qed.

End FloatOrder.


(** ** The sign of a difference *)

Module FloatSub.

Lemma Zpos_iter_xO m d : Zpos (Pos.iter xO m d) = (Zpos m * 2 ^ Zpos d)%Z.
Proof.
  induction d as [|d IH] using Pos.peano_ind.
  - simpl. lia.
  - rewrite Pos.iter_succ, Pos2Z.inj_xO, IH, Pos2Z.inj_succ, Z.pow_succ_r by lia.
    lia.
Qed.

Lemma digits2_pos_upper p : (Zpos p < 2 ^ Zpos (digits2_pos p))%Z.
Proof.
  induction p as [p IH|p IH|]; simpl digits2_pos;
    rewrite ?Pos2Z.inj_succ, ?Z.pow_succ_r by lia; lia.
Qed.

Lemma digits2_pos_lower p : (2 ^ (Zpos (digits2_pos p) - 1) <= Zpos p)%Z.
Proof.
  induction p as [p IH|p IH|]; simpl digits2_pos; [| |simpl; lia].
  all: rewrite Pos2Z.inj_succ;
    replace (Z.succ (Zpos (digits2_pos p)) - 1)%Z
      with (Z.succ (Zpos (digits2_pos p) - 1)) by lia;
    rewrite Z.pow_succ_r by lia; lia.
Qed.

(** One shift to the right halves the mantissa, rounding down. *)
Lemma shr_1_lower mrs c :
  (0 <= c)%Z → (2 * c <= shr_m mrs)%Z → (c <= shr_m (shr_1 mrs))%Z.
Proof. destruct mrs as [[|[p|p|]|p] r s]; simpl; lia. Qed.

Lemma iter_shr_1_lower n : ∀ mrs c,
  (0 <= c)%Z → (2 ^ Zpos n * c <= shr_m mrs)%Z →
  (c <= shr_m (SpecFloat.iter_pos shr_1 n mrs))%Z.
Proof.
  induction n as [n IH|n IH|]; intros mrs c Hc H; simpl.
  - pose proof (Z.pow_pos_nonneg 2 (Zpos n) ltac:(lia) ltac:(lia)) as Hp.
    apply IH; [done|]. apply IH; [nia|]. apply shr_1_lower; [nia|].
    rewrite (Pos2Z.inj_xI n), Z.pow_add_r, Z.pow_1_r, Z.pow_twice_r in H by lia. lia.
  - pose proof (Z.pow_pos_nonneg 2 (Zpos n) ltac:(lia) ltac:(lia)) as Hp.
    apply IH; [done|]. apply IH; [nia|].
    rewrite (Pos2Z.inj_xO n), Z.pow_twice_r in H. lia.
  - apply shr_1_lower; [done|]. by rewrite Z.pow_1_r in H.
Qed.

Lemma shr_m_of_loc m l : shr_m (shr_record_of_loc m l) = m.
Proof. by destruct l as [|[]]. Qed.

(** Rounding to the format keeps a non-negative mantissa non-negative. *)
Lemma shr_fexp_nonneg m e l :
  (0 <= m)%Z → (0 <= shr_m (shr_fexp prec emax m e l).1)%Z.
Proof.
  intros Hm. unfold shr_fexp, shr.
  destruct (fexp prec emax (Zdigits2 m + e) - e)%Z as [|n|n];
    simpl; rewrite ?shr_m_of_loc; try done.
  apply iter_shr_1_lower; [done|]. rewrite shr_m_of_loc. lia.
Qed.

(** Above the smallest exponent it keeps a positive mantissa positive: at
    most the digits beyond the 53rd are shifted out. *)
Lemma shr_fexp_pos m e l :
  (0 < m)%Z → (SpecFloat.emin prec emax <= e)%Z →
  (0 < shr_m (shr_fexp prec emax m e l).1)%Z
  ∧ (SpecFloat.emin prec emax <= (shr_fexp prec emax m e l).2)%Z.
Proof.
  intros Hm He. unfold shr_fexp, shr.
  destruct m as [|p|p]; try lia. simpl Zdigits2.
  pose proof (digits2_pos_lower p) as Hlow.
  unfold fexp in *. unfold SpecFloat.emin, prec, emax in *.
  destruct (Z.max (Zpos (digits2_pos p) + e - 53) (3 - 1024 - 53) - e)%Z
    as [|n|n] eqn:Hn; simpl; rewrite ?shr_m_of_loc; try lia.
  split; [|lia].
  enough (1 <= shr_m (SpecFloat.iter_pos shr_1 n (shr_record_of_loc (Zpos p) l)))%Z by lia.
  apply iter_shr_1_lower; [lia|]. rewrite shr_m_of_loc, Z.mul_1_r.
  etrans; [|exact Hlow]. apply Z.pow_le_mono_r; lia.
Qed.

Lemma round_nearest_even_ge m l : (m <= round_nearest_even m l)%Z.
Proof. destruct l as [|[]]; simpl; try lia. destruct (Z.even m); lia. Qed.

(** Rounding a non-negative mantissa never gives [NaN]. *)
Lemma binary_round_aux_not_nan s m e l :
  (0 <= m)%Z → binary_round_aux prec emax s m e l ≠ S754_nan.
Proof.
  intros Hm. unfold binary_round_aux.
  pose proof (shr_fexp_nonneg m e l Hm) as H1.
  destruct (shr_fexp prec emax m e l) as [mrs' e']. simpl in H1.
  pose proof (round_nearest_even_ge (shr_m mrs') (loc_of_shr_record mrs')) as Hr.
  pose proof (shr_fexp_nonneg
                (round_nearest_even (shr_m mrs') (loc_of_shr_record mrs'))
                e' loc_Exact ltac:(lia)) as H2.
  destruct (shr_fexp prec emax _ e' loc_Exact) as [mrs'' e'']. simpl in H2.
  destruct (shr_m mrs''); try lia; [done|]. by destruct (_ <=? _)%Z.
Qed.

(** Rounding a positive mantissa above the smallest exponent gives a
    positive number, possibly infinite. *)
Lemma binary_round_aux_pos m e l :
  (0 < m)%Z → (SpecFloat.emin prec emax <= e)%Z →
  SFltb (S754_zero false) (binary_round_aux prec emax false m e l) = true.
Proof.
  intros Hm He. unfold binary_round_aux.
  destruct (shr_fexp_pos m e l Hm He) as [H1 He1].
  destruct (shr_fexp prec emax m e l) as [mrs' e']. simpl in H1, He1.
  pose proof (round_nearest_even_ge (shr_m mrs') (loc_of_shr_record mrs')) as Hr.
  destruct (shr_fexp_pos
              (round_nearest_even (shr_m mrs') (loc_of_shr_record mrs'))
              e' loc_Exact ltac:(lia) He1) as [H2 _].
  destruct (shr_fexp prec emax _ e' loc_Exact) as [mrs'' e'']. simpl in H2.
  destruct (shr_m mrs''); try lia. by destruct (_ <=? _)%Z.
Qed.

(** With the sign bit set the result is never above zero. *)
Lemma binary_round_aux_neg m e l :
  SFltb (S754_zero false) (binary_round_aux prec emax true m e l) = false.
Proof.
  unfold binary_round_aux.
  destruct (shr_fexp prec emax m e l) as [mrs' e'].
  destruct (shr_fexp prec emax _ e' loc_Exact) as [mrs'' e''].
  destruct (shr_m mrs''); try done. by destruct (_ <=? _)%Z.
Qed.

Lemma binary_normalize_pos m e :
  (0 < m)%Z → (SpecFloat.emin prec emax <= e)%Z →
  SFltb (S754_zero false) (binary_normalize prec emax m e false) = true.
Proof.
  intros Hm He. destruct m as [|p|p]; try lia.
  unfold binary_normalize, binary_round, shl_align.
  destruct (fexp prec emax (Zpos (digits2_pos p) + e) - e)%Z eqn:Hd;
    apply binary_round_aux_pos; try lia.
  unfold fexp. lia.
Qed.

Lemma binary_normalize_nonpos m e :
  (m <= 0)%Z →
  SFltb (S754_zero false) (binary_normalize prec emax m e false) = false.
Proof.
  intros Hm. destruct m as [|p|p]; try lia; [done|].
  unfold binary_normalize, binary_round.
  destruct (shl_align _ _ _). apply binary_round_aux_neg.
Qed.

(** The mantissa of a number brought to a lower exponent. *)
Lemma shl_align_fst m e ez :
  (ez <= e)%Z → Zpos (shl_align m e ez).1 = (Zpos m * 2 ^ (e - ez))%Z.
Proof.
  intros He. unfold shl_align.
  destruct (ez - e)%Z as [|d|d] eqn:Hd; try lia; simpl.
  - replace (e - ez)%Z with 0%Z by lia. lia.
  - rewrite Zpos_iter_xO. f_equal. f_equal. lia.
Qed.

(** What validity says of a finite number: its exponent is not below the
    smallest one, its mantissa has at most 53 digits, and exactly 53 above
    the smallest exponent. *)
Lemma bounded_inv m e :
  bounded prec emax m e = true →
  (SpecFloat.emin prec emax <= e)%Z ∧ (Zpos m < 2 ^ 53)%Z
  ∧ ((SpecFloat.emin prec emax < e)%Z → (2 ^ 52 <= Zpos m)%Z).
Proof.
  unfold bounded, canonical_mantissa, fexp.
  intros [Hc _]%andb_true_iff. apply Z.eqb_eq in Hc.
  pose proof (digits2_pos_upper m) as Hup.
  pose proof (digits2_pos_lower m) as Hlow.
  unfold SpecFloat.emin, prec, emax in *.
  split; [lia|]. split.
  - eapply Z.lt_le_trans; [exact Hup|]. apply Z.pow_le_mono_r; lia.
  - intros He. etrans; [|exact Hlow]. apply Z.pow_le_mono_r; lia.
Qed.

(** Of two valid finite numbers, the one with the larger exponent, or with
    the larger mantissa at the same exponent, has the larger aligned
    mantissa. *)
Lemma aligned_lt ma ea mb eb :
  bounded prec emax ma ea = true → bounded prec emax mb eb = true →
  (ea < eb)%Z ∨ (ea = eb ∧ (ma < mb)%positive) →
  (Zpos (shl_align ma ea (Z.min ea eb)).1
   < Zpos (shl_align mb eb (Z.min ea eb)).1)%Z.
Proof.
  intros (Hea & Hma & _)%bounded_inv (Heb & _ & Hmb)%bounded_inv Hlt.
  rewrite !shl_align_fst by lia.
  destruct Hlt as [Hlt | [-> Hlt]].
  - rewrite Z.min_l by lia. rewrite Z.sub_diag, Z.pow_0_r, Z.mul_1_r.
    specialize (Hmb ltac:(lia)).
    assert (2 ^ 1 <= 2 ^ (eb - ea))%Z as Hp by (apply Z.pow_le_mono_r; lia).
    change (2 ^ 1)%Z with 2%Z in Hp.
    change (2 ^ 53)%Z with 9007199254740992%Z in Hma.
    change (2 ^ 52)%Z with 4503599627370496%Z in Hmb.
    nia.
  - rewrite Z.min_id, Z.sub_diag, Z.pow_0_r. lia.
Qed.

(** The difference of a larger and a smaller number is above zero. *)
Lemma SFsub_pos x y :
  valid_binary x = true → valid_binary y = true →
  SFltb x y = true →
  SFltb (S754_zero false) (SFsub prec emax y x) = true.
Proof.
  destruct x as [sx|sx| |sx mx ex], y as [sy|sy| |sy my ey];
    try (by simpl; repeat match goal with s : bool |- _ => destruct s end).
  - unfold valid_binary, SpecFloat.valid_binary. intros Hx Hy Hlt.
    pose proof (bounded_inv _ _ Hx) as (Hex & _ & _).
    pose proof (bounded_inv _ _ Hy) as (Hey & _ & _).
    unfold SFsub. apply binary_normalize_pos; [|lia].
    unfold SFltb, SFcompare in Hlt.
    destruct sx, sy; simpl cond_Zopp; try discriminate; [| |].
    + (* both negative: the first has the larger magnitude *)
      enough (Zpos (shl_align my ey (Z.min ey ex)).1
              < Zpos (shl_align mx ex (Z.min ey ex)).1)%Z by lia.
      apply aligned_lt; [done..|].
      change (Pos.compare_cont Eq mx my) with (Pos.compare mx my) in Hlt.
      destruct (Z.compare_spec ex ey); try discriminate; [|lia].
      destruct (Pos.compare_spec mx my); try discriminate. right. lia.
    + lia.
    + enough (Zpos (shl_align mx ex (Z.min ex ey)).1
              < Zpos (shl_align my ey (Z.min ex ey)).1)%Z
        by (rewrite (Z.min_comm ey ex); lia).
      apply aligned_lt; [done..|].
      change (Pos.compare_cont Eq mx my) with (Pos.compare mx my) in Hlt.
      destruct (Z.compare_spec ex ey); try discriminate; [|lia].
      destruct (Pos.compare_spec mx my); try discriminate. right. lia.
Qed.

(** Of the two differences of two numbers at most one is above zero. *)
Lemma SFsub_antisym x y :
  SFltb (S754_zero false) (SFsub prec emax y x) = true →
  SFltb (S754_zero false) (SFsub prec emax x y) = false.
Proof.
  destruct x as [sx|sx| |sx mx ex], y as [sy|sy| |sy my ey];
    try (by simpl; repeat match goal with s : bool |- _ => destruct s end).
  unfold SFsub. rewrite (Z.min_comm ex ey).
  set (a := cond_Zopp sx (Zpos (shl_align mx ex (Z.min ey ex)).1)).
  set (b := cond_Zopp sy (Zpos (shl_align my ey (Z.min ey ex)).1)).
  intros H. apply binary_normalize_nonpos.
  destruct (Z.le_gt_cases (b - a) 0) as [Hle|Hgt]; [|lia].
  by rewrite (binary_normalize_nonpos _ _ Hle) in H.
Qed.

(** Two numbers are comparable unless one of them is [NaN]. *)
Lemma SFleb_total x y :
  x ≠ S754_nan → y ≠ S754_nan → SFleb x y = true ∨ SFltb y x = true.
Proof.
  unfold SFleb, SFltb, SFcompare.
  destruct x as [[]|[]| |[] mx ex], y as [[]|[]| |[] my ey];
    simpl; intros Hx Hy; try done; try (by left); try (by right).
  all: change (Pos.compare_cont Eq mx my) with (Pos.compare mx my);
    change (Pos.compare_cont Eq my mx) with (Pos.compare my mx);
    rewrite (Z.compare_antisym ex ey), (Pos.compare_antisym mx my);
    destruct (ex ?= ey)%Z; simpl; try (by left); try (by right);
    destruct (mx ?= my)%positive; simpl; try (by left); by right.
Qed.

Lemma SFltb_leb x y : SFltb x y = true → SFleb x y = true.
Proof. unfold SFltb, SFleb. by destruct (SFcompare x y) as [[]|]. Qed.

Lemma SFltb_leb_trans x y z :
  SFltb x y = true → SFleb y z = true → SFltb x z = true.
Proof.
  unfold SFltb, SFleb, SFcompare.
  destruct x as [[]|[]| |[] mx ex], y as [[]|[]| |[] my ey],
    z as [[]|[]| |[] mz ez];
    simpl; intros Hxy Hyz; try discriminate; try reflexivity;
    FloatOrder.sf_order.
Qed.

Lemma is_nan_spec x : is_nan x = false ↔ Prim2SF x ≠ S754_nan.
Proof.
  unfold is_nan. rewrite FloatAxioms.eqb_spec. unfold SFeqb, SFcompare.
  destruct (Prim2SF x) as [[]|[]| |[] m e]; simpl;
    rewrite ?Z.compare_refl, ?FloatFacts.compare_cont_refl; simpl;
    split; done.
Qed.

Lemma SFsub_not_nan x y :
  SFltb (S754_zero false) (SFsub prec emax y x) = true →
  x ≠ S754_nan ∧ y ≠ S754_nan.
Proof. destruct x, y; done. Qed.

(** [x < y] makes [y - x > 0]. *)
Lemma ltb_sub_pos x y :
  (x <? y)%float = true → JS.gt (y - x) 0 = true.
Proof.
  unfold JS.gt.
  rewrite !FloatAxioms.ltb_spec, FloatAxioms.sub_spec, FloatFacts.Prim2SF_zero.
  apply SFsub_pos; apply Prim2SF_valid.
Qed.

(** [y - x > 0] makes [x <= y]. *)
Lemma sub_pos_leb x y :
  JS.gt (y - x) 0 = true → (x <=? y)%float = true.
Proof.
  unfold JS.gt.
  rewrite FloatAxioms.ltb_spec, FloatAxioms.leb_spec, FloatAxioms.sub_spec,
    FloatFacts.Prim2SF_zero.
  intros H. destruct (SFsub_not_nan _ _ H) as [Hx Hy].
  destruct (SFleb_total _ _ Hx Hy) as [Hle|Hlt]; [done|].
  apply SFsub_pos in Hlt; try apply Prim2SF_valid.
  apply SFsub_antisym in Hlt. unfold SF64sub in H. congruence.
Qed.

(** Unless one of them is [NaN], [y - x > 0] fails only when [y <= x]. *)
Lemma sub_not_pos_leb x y :
  is_nan x = false → is_nan y = false →
  JS.gt (y - x) 0 = false → (y <=? x)%float = true.
Proof.
  rewrite !is_nan_spec, FloatAxioms.leb_spec. intros Hx Hy Hs.
  destruct (SFleb_total _ _ Hy Hx) as [Hle|Hlt]; [done|].
  rewrite <- FloatAxioms.ltb_spec in Hlt. apply ltb_sub_pos in Hlt. congruence.
Qed.

Lemma ltb_leb_trans x y z :
  (x <? y)%float = true → (y <=? z)%float = true → (x <? z)%float = true.
Proof.
  rewrite !FloatAxioms.ltb_spec, FloatAxioms.leb_spec. apply SFltb_leb_trans.
Qed.

(** A quotient of two array lengths, the second of a non-empty array, is
    not [NaN]. *)
Lemma div_of_length_not_nan k n :
  (Z.of_nat k < 2 ^ 32)%Z → 1 ≤ n → (Z.of_nat n < 2 ^ 32)%Z →
  is_nan (JS.of_length k / JS.of_length n) = false.
Proof.
  intros Hk Hn Hlt. destruct k as [|k].
  { by rewrite FloatFacts.of_length_zero, FloatFacts.zero_div_of_length. }
  apply is_nan_spec. rewrite FloatAxioms.div_spec.
  destruct (FloatFacts.of_length_finite (S k) ltac:(lia) Hk) as (mk & ek & -> & _).
  destruct (FloatFacts.of_length_finite n Hn Hlt) as (mn & en & -> & _).
  unfold SF64div, SFdiv, SFdiv_core_binary.
  set (m' := match _ with Z0 => _ | Zpos _ => _ | Zneg _ => _ end).
  assert (0 <= m')%Z as Hm'.
  { unfold m'. destruct (_ - _ - _)%Z eqn:Hs; try lia.
    apply Z.shiftl_nonneg. lia. }
  pose proof (Z.div_pos m' (Zpos mn) Hm' ltac:(lia)) as Hq.
  unfold Z.div in Hq. destruct (Z.div_eucl m' (Zpos mn)) as [q r].
  by apply binary_round_aux_not_nan.
Qed.

End FloatSub.
(** ** StatsAggregator *)

Lemma rows_of_nonempty key k txs :
  rows_of key k txs ≠ [] ↔ ∃ t, t ∈ txs ∧ key t = k.
Proof.
  unfold rows_of. split.
  - destruct (filter _ txs) as [|t g] eqn:Hf; [done|]. intros _.
    assert (t ∈ filter (λ t, key t = k) txs) as Hin by (rewrite Hf; left).
    apply list_elem_of_filter in Hin as [? ?]. eauto.
  - intros (t & Hin & Hk) Hnil.
    eapply filter_nil_not_elem_of; [exact Hnil | exact Hk | exact Hin].
Qed.

Lemma rows_of_lookup key txs i t :
  txs !! i = Some t → t ∈ rows_of key (key t) txs.
Proof.
  intros Hi. apply list_elem_of_filter. split; [done|].
  by eapply list_elem_of_lookup_2.
Qed.

Lemma groupBy_elem key txs d k g :
  groupBy key txs = Some d →
  (k, g) ∈ d ↔ g = rows_of key k txs ∧ g ≠ [].
Proof.
  intros Hd. rewrite <- DictFacts.get_Some by by eapply groupBy_NoDup.
  rewrite (groupBy_get key txs d k Hd).
  destruct (rows_of key k txs) as [|t g'].
  - split; [done | by intros [-> ?]].
  - split; [by intros [= <-] | by intros [-> _]].
Qed.

Lemma lookup_fill_entries {V W : Type} (f : V → W) (d : list (string * V)) k :
  NoDup d.*1 →
  foldl (fun m '(k', v) => <[k' := f v]> m) (∅ : gmap string W)
    (Object_entries d) !! k
  = f <$> Dict.get k d.
Proof.
  intros Hnd. rewrite DictFacts.lookup_fill, lookup_empty.
  rewrite <- (DictFacts.get_Permutation k d (reverse (Object_entries d))).
  - by destruct (Dict.get k d).
  - done.
  - by rewrite reverse_Permutation, Object_entries_Permutation.
Qed.

Lemma calculateCustomerStats_lookup txs m k :
  calculateCustomerStats txs = Some m →
  m !! k =
  match rows_of CUSTOMER_ID k txs with
  | [] => None
  | g => Some (customerStat_of g)
  end.
Proof.
  intros (d & Hd & [= <-])%bind_Some.
  rewrite (lookup_fill_entries customerStat_of) by by eapply groupBy_NoDup.
  rewrite (groupBy_get _ _ _ k Hd). by destruct (rows_of CUSTOMER_ID k txs).
Qed.

Lemma calculateTerminalStats_lookup txs m k :
  calculateTerminalStats txs = Some m →
  m !! k =
  match rows_of TERMINAL_ID k txs with
  | [] => None
  | g => Some (terminalStat_of g)
  end.
Proof.
  intros (d & Hd & [= <-])%bind_Some.
  rewrite (lookup_fill_entries terminalStat_of) by by eapply groupBy_NoDup.
  rewrite (groupBy_get _ _ _ k Hd). by destruct (rows_of TERMINAL_ID k txs).
Qed.

(** An aggregator returns exactly when its grouping loop does. *)
Lemma calculateCustomerStats_is_Some txs :
  is_Some (calculateCustomerStats txs) ↔ plain_keys CUSTOMER_ID txs.
Proof.
  rewrite <- groupBy_is_Some. unfold calculateCustomerStats.
  destruct (groupBy CUSTOMER_ID txs); simpl; split; intros [? ?]; by eauto.
Qed.

Lemma calculateTerminalStats_is_Some txs :
  is_Some (calculateTerminalStats txs) ↔ plain_keys TERMINAL_ID txs.
Proof.
  rewrite <- groupBy_is_Some. unfold calculateTerminalStats.
  destruct (groupBy TERMINAL_ID txs); simpl; split; intros [? ?]; by eauto.
Qed.

Lemma analyzeCustomerStats_is_Some txs :
  is_Some (DataAnalyzer.analyzeCustomerStats txs) ↔ plain_keys CUSTOMER_ID txs.
Proof.
  rewrite <- groupBy_is_Some. unfold DataAnalyzer.analyzeCustomerStats.
  destruct (groupBy CUSTOMER_ID txs); simpl; split; intros [? ?]; by eauto.
Qed.

(** A call returns [None] exactly when some row carries an inherited name
    under one of the keys whose absence makes it return. *)
Lemma None_iff_inherited {A : Type} (call : option A) key txs :
  (is_Some call ↔ plain_keys key txs) →
  call = None ↔ ∃ t, t ∈ txs ∧ key t ∈ Object_prototype_names.
Proof. intros H. by rewrite eq_None_not_Some, H, not_plain_keys. Qed.

Lemma None_iff_inherited_either {A : Type} (call : option A) txs :
  (is_Some call ↔ plain_keys CUSTOMER_ID txs ∧ plain_keys TERMINAL_ID txs) →
  call = None
  ↔ ∃ t, t ∈ txs ∧ (CUSTOMER_ID t ∈ Object_prototype_names
                     ∨ TERMINAL_ID t ∈ Object_prototype_names).
Proof.
  intros H. rewrite eq_None_not_Some, H. split.
  - intros Hnot.
    destruct (decide (plain_keys CUSTOMER_ID txs)) as [Hc|Hc].
    + assert (¬ plain_keys TERMINAL_ID txs) as Ht by tauto.
      apply not_plain_keys in Ht as (t & ? & ?). eauto.
    + apply not_plain_keys in Hc as (t & ? & ?). eauto.
  - intros (t & Hin & [Hc|Ht]) [Hpc Hpt].
    + apply (proj2 (not_plain_keys CUSTOMER_ID txs)); eauto.
    + apply (proj2 (not_plain_keys TERMINAL_ID txs)); eauto.
Qed.

(** Accumulating [g b] over a list is summing the list of the [g b]. *)
Lemma foldl_add_fmap {A : Type} (g : A → float) (xs : list A) (a : float) :
  foldl (fun sum x => sum + g x)%float a xs
  = foldl (fun s y => s + y)%float a (g <$> xs).
Proof. revert a. induction xs as [|x xs IH]; intros a; simpl; [done | apply IH]. Qed.

Lemma customerStat_of_spec g :
  CustomerStat.transactionCount (customerStat_of g) = length g
  ∧ CustomerStat.avgAmount (customerStat_of g) = arithmetic_mean (TX_AMOUNT <$> g)
  ∧ CustomerStat.amountVariation (customerStat_of g)
    = population_std (TX_AMOUNT <$> g).
Proof.
  unfold customerStat_of, population_std, arithmetic_mean, JS.sum. simpl.
  split; [done|]. split; [done|]. do 2 f_equal.
  apply (foldl_add_fmap (fun x => JS.pow2 (x - _))).
Qed.

Lemma sort_by_rate_Permutation l : DataAnalyzer.sort_by_rate l ≡ₚ l.
Proof.
  assert (∀ a s, DataAnalyzer.insert_by_rate a s ≡ₚ a :: s) as Hins.
  { intros a s. induction s as [|b s IH]; simpl; [done|].
    destruct (JS.gt _ _); [|done]. rewrite IH. apply Permutation_swap. }
  induction l as [|a l IH]; simpl; [done|]. by rewrite Hins, IH.
Qed.

Lemma analyzeCustomerStats_Permutation txs entries :
  DataAnalyzer.analyzeCustomerStats txs = Some entries →
  ∃ d, groupBy CUSTOMER_ID txs = Some d
       ∧ entries ≡ₚ DataAnalyzer.customerStats_of <$> d.
Proof.
  intros (d & Hd & [= <-])%bind_Some. exists d. split; [done|].
  by rewrite sort_by_rate_Permutation, Object_entries_Permutation.
Qed.

Lemma customerId_customerStats_of (d : list (string * list Transaction)) :
  DataAnalyzer.customerId <$> (DataAnalyzer.customerStats_of <$> d) = d.*1.
Proof.
  rewrite <- list_fmap_compose. apply list_fmap_ext. by intros _ [k g] _.
Qed.

Lemma id_in_batch key k txs :
  k ∈ key <$> txs ↔ rows_of key k txs ≠ [].
Proof.
  rewrite rows_of_nonempty, list_elem_of_fmap.
  split; intros (t & ? & ?); eauto.
Qed.

(** C8: on a batch in which a customer id is the name of a member that
    every object inherits ([constructor], [toString], ...), aggregation by
    customer throws a [TypeError] and produces no entry, in
    [FraudDetector.calculateCustomerStats] and in
    [DataAnalyzer.analyzeCustomerStats] alike; the batch with the customer
    [constructor] is one.  On every other batch, and on no batch with such
    an id, both return, with exactly one entry per distinct customer id of
    the batch, and the entry of a customer holds the number of that
    customer's rows, the arithmetic mean of their amounts and the
    population standard deviation of their amounts (sum of squared
    deviations divided by the count). *)
Theorem customer_aggregation_per_distinct_id_unless_inherited :
  calculateCustomerStats inherited_customer_batch = None
  ∧ DataAnalyzer.analyzeCustomerStats inherited_customer_batch = None
  ∧ ∀ txs : list Transaction,
      (calculateCustomerStats txs = None
       ↔ ∃ t, t ∈ txs ∧ CUSTOMER_ID t ∈ Object_prototype_names)
      ∧ (DataAnalyzer.analyzeCustomerStats txs = None
         ↔ ∃ t, t ∈ txs ∧ CUSTOMER_ID t ∈ Object_prototype_names)
      ∧ (∀ m, calculateCustomerStats txs = Some m →
           dom m = list_to_set (CUSTOMER_ID <$> txs)
           ∧ ∀ k s, m !! k = Some s →
               let amounts := TX_AMOUNT <$> rows_of CUSTOMER_ID k txs in
               CustomerStat.transactionCount s
               = length (rows_of CUSTOMER_ID k txs)
               ∧ CustomerStat.avgAmount s = arithmetic_mean amounts
               ∧ CustomerStat.amountVariation s = population_std amounts)
      ∧ (∀ entries, DataAnalyzer.analyzeCustomerStats txs = Some entries →
           NoDup (DataAnalyzer.customerId <$> entries)
           ∧ (∀ k, k ∈ DataAnalyzer.customerId <$> entries
                   ↔ k ∈ CUSTOMER_ID <$> txs)
           ∧ ∀ e, e ∈ entries →
               let rows := rows_of CUSTOMER_ID (DataAnalyzer.customerId e) txs in
               DataAnalyzer.totalTransactions e = length rows
               ∧ DataAnalyzer.averageAmount e
                 = arithmetic_mean (TX_AMOUNT <$> rows)
               ∧ DataAnalyzer.amountVariation e
                 = population_std (TX_AMOUNT <$> rows)).
Proof.
  split; [by vm_compute|]. split; [by vm_compute|]. intros txs.
  split; [apply None_iff_inherited, calculateCustomerStats_is_Some|].
  split; [apply None_iff_inherited, analyzeCustomerStats_is_Some|].
  split.
  - intros m Hm. split.
    + apply set_eq. intros k.
      rewrite elem_of_dom, elem_of_list_to_set, id_in_batch.
      rewrite (calculateCustomerStats_lookup txs m k Hm).
      destruct (rows_of CUSTOMER_ID k txs); split; (done || by intros []).
    + intros k s. rewrite (calculateCustomerStats_lookup txs m k Hm).
      destruct (rows_of CUSTOMER_ID k txs) as [|t g] eqn:Hrows; [done|].
      intros [= <-]. apply customerStat_of_spec.
  - intros entries (d & Hd & Hp)%analyzeCustomerStats_Permutation.
    cbv zeta. split; [|split].
    + rewrite Hp, customerId_customerStats_of. by eapply groupBy_NoDup.
    + intros k. rewrite Hp, customerId_customerStats_of, id_in_batch.
      rewrite list_elem_of_fmap. split.
      * intros ([k' g] & -> & Hin).
        by apply (groupBy_elem _ _ _ _ _ Hd) in Hin as [-> Hne].
      * intros Hne. exists (k, rows_of CUSTOMER_ID k txs). split; [done|].
        by apply (groupBy_elem _ _ _ _ _ Hd).
    + intros e. rewrite Hp, list_elem_of_fmap.
      intros ([k g] & -> & Hin).
      apply (groupBy_elem _ _ _ _ _ Hd) in Hin as [-> _]. simpl.
      unfold population_std, arithmetic_mean, JS.sum.
      split; [done|]. split; [done|]. do 2 f_equal.
      apply (foldl_add_fmap (fun x => JS.pow2 (x - _))).
Qed.

(** Every row of a batch finds its own customer and its own terminal in the
    maps computed from that batch, with a count between 1 and the batch
    size. *)
Lemma own_customer_present txs m i t :
  calculateCustomerStats txs = Some m →
  txs !! i = Some t →
  ∃ cs, m !! CUSTOMER_ID t = Some cs
        ∧ cs = customerStat_of (rows_of CUSTOMER_ID (CUSTOMER_ID t) txs)
        ∧ 1 ≤ CustomerStat.transactionCount cs ≤ length txs.
Proof.
  intros Hm Hi. pose proof (rows_of_lookup CUSTOMER_ID txs i t Hi) as Hin.
  rewrite (calculateCustomerStats_lookup txs m _ Hm).
  destruct (rows_of CUSTOMER_ID (CUSTOMER_ID t) txs) as [|t0 g] eqn:Hrows.
  { by apply elem_of_nil in Hin. }
  eexists. split; [done|]. split; [done|].
  change (1 ≤ length (t0 :: g) ≤ length txs). split; [simpl; lia|].
  rewrite <- Hrows. apply length_filter.
Qed.

Lemma own_terminal_present txs m i t :
  calculateTerminalStats txs = Some m →
  txs !! i = Some t →
  ∃ ts, m !! TERMINAL_ID t = Some ts
        ∧ ts = terminalStat_of (rows_of TERMINAL_ID (TERMINAL_ID t) txs)
        ∧ 1 ≤ TerminalStat.transactionCount ts ≤ length txs.
Proof.
  intros Hm Hi. pose proof (rows_of_lookup TERMINAL_ID txs i t Hi) as Hin.
  rewrite (calculateTerminalStats_lookup txs m _ Hm).
  destruct (rows_of TERMINAL_ID (TERMINAL_ID t) txs) as [|t0 g] eqn:Hrows.
  { by apply elem_of_nil in Hin. }
  eexists. split; [done|]. split; [done|].
  change (1 ≤ length (t0 :: g) ≤ length txs). split; [simpl; lia|].
  rewrite <- Hrows. apply length_filter.
Qed.

(** ** RuleEngine *)

Lemma terminal_flagged_true (terminalStat : option TerminalStat.t) :
  terminal_flagged terminalStat = true
  ↔ ∃ ts, terminalStat = Some ts ∧ JS.gt (TerminalStat.fraudRate ts) 0.5 = true.
Proof.
  destruct terminalStat as [ts|]; simpl.
  - split; [eauto | by intros (? & [= <-] & ?)].
  - split; [done | by intros (? & ? & ?)].
Qed.

Lemma amount_spike_true (customerStat : option CustomerStat.t) amount :
  amount_spike customerStat amount = true
  ↔ ∃ cs, customerStat = Some cs
          ∧ JS.gt amount (CustomerStat.avgAmount cs * 3) = true.
Proof.
  destruct customerStat as [cs|]; simpl.
  - split; [eauto | by intros (? & [= <-] & ?)].
  - split; [done | by intros (? & ? & ?)].
Qed.

Lemma detectFraudRuleBased_Some txs out :
  detectFraudRuleBased txs = Some out
  ↔ ∃ customerStats terminalStats,
      calculateCustomerStats txs = Some customerStats
      ∧ calculateTerminalStats txs = Some terminalStats
      ∧ out = rule_row customerStats terminalStats <$> txs.
Proof.
  unfold detectFraudRuleBased. split.
  - intros (cs & Hcs & (ts & Hts & [= <-])%bind_Some)%bind_Some. eauto.
  - intros (cs & ts & Hcs & Hts & ->). by rewrite Hcs, Hts.
Qed.

Lemma detectFraudRuleBased_is_Some txs :
  is_Some (detectFraudRuleBased txs)
  ↔ plain_keys CUSTOMER_ID txs ∧ plain_keys TERMINAL_ID txs.
Proof.
  rewrite <- calculateCustomerStats_is_Some, <- calculateTerminalStats_is_Some.
  split.
  - intros [out (cs & ts & Hcs & Hts & _)%detectFraudRuleBased_Some].
    split; by eexists.
  - intros [[cs Hcs] [ts Hts]]. eexists.
    apply detectFraudRuleBased_Some. eauto.
Qed.

(** The verdict of one row against any two maps. *)
Lemma rule_row_first_match_wins customerStats terminalStats t :
  let r := rule_row customerStats terminalStats t in
  TRANSACTION_ID r = TRANSACTION_ID t
  ∧ predicted_probability r = predicted_fraud r
  ∧ (predicted_fraud r = Some 0%float ∨ predicted_fraud r = Some 1%float)
  ∧ let verdict := (predicted_fraud r, predicted_scenario r) in
    let high_amount := JS.gt (TX_AMOUNT t) 220 in
    let bad_terminal :=
      ∃ ts, terminalStats !! TERMINAL_ID t = Some ts
            ∧ JS.gt (TerminalStat.fraudRate ts) 0.5 = true in
    let unusual_amount :=
      ∃ cs, customerStats !! CUSTOMER_ID t = Some cs
            ∧ JS.gt (TX_AMOUNT t) (CustomerStat.avgAmount cs * 3) = true in
    (high_amount = true → verdict = (Some 1%float, Some 1%float))
    ∧ (high_amount = false → bad_terminal →
       verdict = (Some 1%float, Some 2%float))
    ∧ (high_amount = false → ¬ bad_terminal → unusual_amount →
       verdict = (Some 1%float, Some 3%float))
    ∧ (high_amount = false → ¬ bad_terminal → ¬ unusual_amount →
       verdict = (Some 0%float, Some 0%float)).
Proof.
  cbv zeta.
  rewrite <- (terminal_flagged_true (terminalStats !! TERMINAL_ID t)).
  rewrite <- (amount_spike_true (customerStats !! CUSTOMER_ID t)).
  unfold rule_row.
  destruct (JS.gt (TX_AMOUNT t) 220);
    destruct (terminal_flagged (terminalStats !! TERMINAL_ID t));
    destruct (amount_spike (customerStats !! CUSTOMER_ID t) (TX_AMOUNT t));
    simpl; repeat split; auto; try discriminate; intros; exfalso; auto.
Qed.

(** C1: on a batch in which a customer or terminal id is the name of a
    member that every object inherits, the rule-based classifier throws a
    [TypeError] while it aggregates and gives no verdict for any row,
    whatever the amounts; the batch with an amount of 500 and a terminal
    [toString] is one.  On every other batch, and on no batch with such an
    id, it returns one verdict per transaction, in batch order, decided by
    the first rule that matches: amount above 220 (scenario 1); otherwise a
    known terminal fraud rate above 0.5 (scenario 2); otherwise a known
    customer mean with the amount above three times that mean (scenario
    3); otherwise legitimate, scenario 0.  The probability proxy equals the
    label, which is 0 or 1. *)
Theorem detectFraudRuleBased_first_match_wins_unless_inherited :
  detectFraudRuleBased inherited_terminal_batch = None
  ∧ ∀ txs : list Transaction,
      (detectFraudRuleBased txs = None
       ↔ ∃ t, t ∈ txs ∧ (CUSTOMER_ID t ∈ Object_prototype_names
                          ∨ TERMINAL_ID t ∈ Object_prototype_names))
      ∧ ∀ out, detectFraudRuleBased txs = Some out →
          ∃ customerStats terminalStats,
            calculateCustomerStats txs = Some customerStats
            ∧ calculateTerminalStats txs = Some terminalStats
            ∧ length out = length txs
            ∧ ∀ i t, txs !! i = Some t →
                ∃ r, out !! i = Some r
                  ∧ TRANSACTION_ID r = TRANSACTION_ID t
                  ∧ predicted_probability r = predicted_fraud r
                  ∧ (predicted_fraud r = Some 0%float
                     ∨ predicted_fraud r = Some 1%float)
                  ∧ let verdict := (predicted_fraud r, predicted_scenario r) in
                    let high_amount := JS.gt (TX_AMOUNT t) 220 in
                    let bad_terminal :=
                      ∃ ts, terminalStats !! TERMINAL_ID t = Some ts
                            ∧ JS.gt (TerminalStat.fraudRate ts) 0.5 = true in
                    let unusual_amount :=
                      ∃ cs, customerStats !! CUSTOMER_ID t = Some cs
                            ∧ JS.gt (TX_AMOUNT t)
                                (CustomerStat.avgAmount cs * 3) = true in
                    (high_amount = true →
                     verdict = (Some 1%float, Some 1%float))
                    ∧ (high_amount = false → bad_terminal →
                       verdict = (Some 1%float, Some 2%float))
                    ∧ (high_amount = false → ¬ bad_terminal →
                       unusual_amount →
                       verdict = (Some 1%float, Some 3%float))
                    ∧ (high_amount = false → ¬ bad_terminal →
                       ¬ unusual_amount →
                       verdict = (Some 0%float, Some 0%float)).
Proof.
  split; [by vm_compute|]. intros txs.
  split; [apply None_iff_inherited_either, detectFraudRuleBased_is_Some|].
  intros out (cs & ts & Hcs & Hts & ->)%detectFraudRuleBased_Some.
  exists cs, ts. split; [done|]. split; [done|].
  split; [apply length_fmap|].
  intros i t Hi. eexists. split; [by rewrite list_lookup_fmap, Hi|].
  apply rule_row_first_match_wins.
Qed.

(** ** FeatureExtractor *)

Section FeatureFacts.

Variables Math_sin Math_cos : float -> float.
Variable js_rem : float -> float -> float.

Local Abbreviation vector_of := (feature_row Math_sin Math_cos js_rem).
Local Abbreviation extract := (extractFeatures Math_sin Math_cos js_rem).

Lemma extractFeatures_Some txs rows :
  extract txs = Some rows
  ↔ ∃ customerStats terminalStats,
      calculateCustomerStats txs = Some customerStats
      ∧ calculateTerminalStats txs = Some terminalStats
      ∧ rows = vector_of customerStats terminalStats <$> txs.
Proof.
  unfold extractFeatures. split.
  - intros (cs & Hcs & (ts & Hts & [= <-])%bind_Some)%bind_Some. eauto.
  - intros (cs & ts & Hcs & Hts & ->). by rewrite Hcs, Hts.
Qed.

Lemma extractFeatures_is_Some txs :
  is_Some (extract txs)
  ↔ plain_keys CUSTOMER_ID txs ∧ plain_keys TERMINAL_ID txs.
Proof.
  rewrite <- calculateCustomerStats_is_Some, <- calculateTerminalStats_is_Some.
  split.
  - intros [out (cs & ts & Hcs & Hts & _)%extractFeatures_Some].
    split; by eexists.
  - intros [[cs Hcs] [ts Hts]]. eexists.
    apply extractFeatures_Some. eauto.
Qed.


(** C10: both consumers compute the two maps from the batch they are
    given.  On a batch in which a customer or terminal id is the name of an
    inherited member the maps are never completed: feature extraction and
    the rule-based classifier throw a [TypeError], and no row finds
    anything; the batch with the customer [constructor] is one.  On every
    other batch, and on no batch with such an id, every row finds its
    customer and its terminal in the maps, with counts of at least one,
    and positions 5 and 8 of its feature vector are those counts, numbers
    that are at least 1 (never the default 0).  An array has fewer than
    [2^32] elements. *)
Theorem recomputed_stats_cover_every_row_unless_inherited :
  extract inherited_customer_batch = None
  ∧ detectFraudRuleBased inherited_customer_batch = None
  ∧ ∀ txs : list Transaction,
      (extract txs = None
       ↔ ∃ t, t ∈ txs ∧ (CUSTOMER_ID t ∈ Object_prototype_names
                          ∨ TERMINAL_ID t ∈ Object_prototype_names))
      ∧ ∀ rows, extract txs = Some rows →
          (Z.of_nat (length txs) < 2 ^ 32)%Z →
          ∃ customerStats terminalStats,
            calculateCustomerStats txs = Some customerStats
            ∧ calculateTerminalStats txs = Some terminalStats
            ∧ rows = vector_of customerStats terminalStats <$> txs
            ∧ detectFraudRuleBased txs
              = Some (rule_row customerStats terminalStats <$> txs)
            ∧ ∀ i t, txs !! i = Some t →
                ∃ cs ts row,
                  customerStats !! CUSTOMER_ID t = Some cs
                  ∧ terminalStats !! TERMINAL_ID t = Some ts
                  ∧ 1 ≤ CustomerStat.transactionCount cs
                  ∧ 1 ≤ TerminalStat.transactionCount ts
                  ∧ rows !! i = Some row
                  ∧ row !! 4
                    = Some (JS.of_length (CustomerStat.transactionCount cs))
                  ∧ row !! 7
                    = Some (JS.of_length (TerminalStat.transactionCount ts))
                  ∧ (1 <=? JS.of_length (CustomerStat.transactionCount cs))%float
                    = true
                  ∧ (1 <=? JS.of_length (TerminalStat.transactionCount ts))%float
                    = true.
Proof.
  split; [by vm_compute|]. split; [by vm_compute|]. intros txs.
  split; [apply None_iff_inherited_either, extractFeatures_is_Some|].
  intros rows (customerStats & terminalStats & Hcs & Hts & ->)%extractFeatures_Some
    Hlen.
  exists customerStats, terminalStats.
  split; [done|]. split; [done|]. split; [done|].
  split; [apply detectFraudRuleBased_Some; eauto|].
  intros i t Hi.
  destruct (own_customer_present txs _ i t Hcs Hi) as (cs & Hc & _ & Hc1 & Hc2).
  destruct (own_terminal_present txs _ i t Hts Hi) as (ts & Ht & _ & Ht1 & Ht2).
  exists cs, ts. eexists. split; [done|]. split; [done|].
  split; [done|]. split; [done|].
  split; [by rewrite list_lookup_fmap, Hi|].
  unfold feature_row. rewrite Hc, Ht. simpl.
  unfold JS.or_else.
  rewrite !FloatFacts.truthy_of_length by lia.
  split; [done|]. split; [done|].
  split; apply FloatFacts.one_le_of_length; lia.
Qed.

End FeatureFacts.

(** ** MetricsEvaluator *)

Lemma binary_predicted_label v :
  is_binary v = true →
  JS.opt_or_else v 0 = 0%float ∨ JS.opt_or_else v 0 = 1%float.
Proof.
  destruct v as [x|]; [|done]. unfold is_binary. simpl.
  destruct (x =? 0)%float eqn:H0; simpl.
  - intros _. left. unfold JS.or_else.
    by rewrite FloatFacts.eqb_zero_falsy.
  - intros ->%FloatFacts.eqb_one. by right.
Qed.

Lemma count_row_total c a p :
  is_binary a = true → p = 0%float ∨ p = 1%float →
  total (count_row c a p) = S (total c).
Proof.
  unfold is_binary, count_row, total.
  intros Ha [-> | ->];
    destruct (JS.strict_eq a 0), (JS.strict_eq a 1);
    try discriminate; simpl; lia.
Qed.

Lemma count_loop_total actual :
  ∀ predicted c,
    length actual = length predicted →
    Forall (λ a, is_binary (TX_FRAUD a) = true) actual →
    Forall (λ p, is_binary (predicted_fraud p) = true) predicted →
    ∃ c', count_loop actual predicted c = Some c'
          ∧ total c' = total c + length actual.
Proof.
  induction actual as [|a actual IH]; intros predicted c Hlen Ha Hp; simpl.
  - exists c. split; [done | lia].
  - destruct predicted as [|p predicted]; [done|].
    apply Forall_cons in Ha as [Ha Ha']. apply Forall_cons in Hp as [Hp Hp'].
    destruct
      (IH predicted (count_row c (TX_FRAUD a) (JS.opt_or_else (predicted_fraud p) 0)))
      as (c' & Hc' & Htot); [by injection Hlen | done | done |].
    exists c'. split; [done|]. rewrite Htot, count_row_total; [lia | done |].
    by apply binary_predicted_label.
Qed.

(** C9: on binary label sequences of equal length the evaluator returns a
    confusion matrix [[tn, fp], [fn, tp]] of natural numbers whose sum is
    the number of rows. *)
Theorem confusion_matrix_sums_to_rows (actual predicted : list Transaction) :
  length actual = length predicted →
  Forall (λ a, is_binary (TX_FRAUD a) = true) actual →
  Forall (λ p, is_binary (predicted_fraud p) = true) predicted →
  ∃ m (tn fp fn tp : nat),
    calculateMetrics actual predicted = Some m
    ∧ confusion_matrix m = [[tn; fp]; [fn; tp]]
    ∧ tn + fp + fn + tp = length actual.
Proof.
  intros Hlen Ha Hp. unfold calculateMetrics.
  destruct (count_loop_total actual predicted
              {| tp := 0; fp := 0; tn := 0; fn := 0 |} Hlen Ha Hp)
    as (c & -> & Htot).
  exists (metrics_of c), (tn c), (fp c), (fn c), (tp c).
  split; [done|]. split; [done|]. exact Htot.
Qed.

(** The guarded ratios are 0 when their denominator is 0; accuracy has no
    guard, so an evaluation without counted rows leaves it [NaN]. *)
Lemma precision_zero_denominator c :
  tp c + fp c = 0 → precision (metrics_of c) = 0%float.
Proof.
  intros H. unfold metrics_of. simpl.
  replace (tp c) with 0 by lia. replace (fp c) with 0 by lia. reflexivity.
Qed.

Lemma recall_zero_denominator c :
  tp c + fn c = 0 → recall (metrics_of c) = 0%float.
Proof.
  intros H. unfold metrics_of. simpl.
  replace (tp c) with 0 by lia. replace (fn c) with 0 by lia. reflexivity.
Qed.

(** Without a true positive, precision and recall are 0 whatever their
    denominators, and so F1 is [0 / 0] replaced by 0. *)
Lemma f1Score_without_true_positive c :
  tp c = 0 → (Z.of_nat (fp c) < 2 ^ 32)%Z → (Z.of_nat (fn c) < 2 ^ 32)%Z →
  precision (metrics_of c) = 0%float
  ∧ recall (metrics_of c) = 0%float
  ∧ f1Score (metrics_of c) = 0%float.
Proof.
  intros Htp Hfp Hfn.
  assert (∀ n, (Z.of_nat n < 2 ^ 32)%Z →
            JS.or_else (JS.of_length 0 / JS.of_length (0 + n)) 0 = 0%float) as H0.
  { intros [|n] Hn; [reflexivity|].
    change (JS.of_length 0) with 0%float.
    rewrite FloatFacts.zero_div_of_length by (simpl; lia). reflexivity. }
  unfold metrics_of. cbn [precision recall f1Score]. rewrite Htp, !H0 by done.
  by repeat split.
Qed.

Lemma accuracy_zero_denominator c :
  tp c + fp c + tn c + fn c = 0 → is_nan (accuracy (metrics_of c)) = true.
Proof.
  intros H. unfold metrics_of. simpl.
  replace (tp c + tn c) with 0 by lia.
  replace (tp c + fp c + tn c + fn c) with 0 by lia. reflexivity.
Qed.

(** C2: on the empty batch the confusion matrix is all zero and precision,
    recall and F1 are 0, but accuracy is [0 / 0], which is [NaN] and not
    0. *)
Theorem calculateMetrics_empty_batch :
  ∃ m, calculateMetrics [] [] = Some m
       ∧ confusion_matrix m = [[0; 0]; [0; 0]]
       ∧ precision m = 0%float
       ∧ recall m = 0%float
       ∧ f1Score m = 0%float
       ∧ is_nan (accuracy m) = true
       ∧ (accuracy m =? 0)%float = false.
Proof. eexists. split; [reflexivity|]. by repeat split. Qed.

(** ** Terminal fraud rate without labels *)

Lemma rows_of_label_or_zero key k txs :
  (∀ t, key (label_or_zero t) = key t) →
  rows_of key k (label_or_zero <$> txs) = label_or_zero <$> rows_of key k txs.
Proof.
  intros Hkey. unfold rows_of.
  induction txs as [|t txs IH]; [done|]. csimpl.
  rewrite !filter_cons, Hkey, IH. by destruct (decide (key t = k)).
Qed.

Lemma fraud_rows_label_or_zero g :
  length (fraud_rows (label_or_zero <$> g)) = length (fraud_rows g).
Proof.
  unfold fraud_rows. induction g as [|t g IH]; [done|]. csimpl.
  rewrite !filter_cons.
  assert (JS.strict_eq (TX_FRAUD (label_or_zero t)) 1 = JS.strict_eq (TX_FRAUD t) 1)
    as Heq by (simpl; by destruct (TX_FRAUD t)).
  rewrite Heq. destruct (decide (JS.strict_eq (TX_FRAUD t) 1 = true)); simpl; lia.
Qed.

Lemma terminalStat_of_label_or_zero g :
  terminalStat_of (label_or_zero <$> g) = terminalStat_of g.
Proof.
  unfold terminalStat_of. fold (fraud_rows (label_or_zero <$> g)) (fraud_rows g).
  rewrite fraud_rows_label_or_zero, <- list_fmap_compose, !length_fmap.
  done.
Qed.

Lemma fraud_rows_unlabeled g :
  Forall (λ t, TX_FRAUD t = None) g → fraud_rows g = [].
Proof.
  unfold fraud_rows. induction 1 as [|t g Ht _ IH]; [done|].
  rewrite filter_cons_False; [done|]. by rewrite Ht.
Qed.

Lemma plain_keys_label_or_zero key txs :
  (∀ t, key (label_or_zero t) = key t) →
  plain_keys key (label_or_zero <$> txs) ↔ plain_keys key txs.
Proof.
  intros Hkey. unfold plain_keys. rewrite Forall_fmap.
  apply Forall_proper; [|done]. intros t. simpl. by rewrite Hkey.
Qed.

(** C3, as the code has it: on a batch none of whose terminal ids is the
    name of an inherited member, every terminal of the batch gets an entry
    whose fraud rate is a number, never an unknown: the count of its rows
    labelled exactly 1 over the count of its rows, which is not [NaN] for
    a batch of fewer than [2^32] rows.  A row without a label counts as not
    fraudulent: replacing every missing label by 0 leaves the terminal
    statistics unchanged, and a terminal none of whose rows has a label
    gets the rate 0. *)
Theorem terminal_fraud_rate_folds_missing_labels_into_zero
    (txs : list Transaction) :
  plain_keys TERMINAL_ID txs →
  ∃ terminalStats,
    calculateTerminalStats txs = Some terminalStats
    ∧ calculateTerminalStats (label_or_zero <$> txs) = Some terminalStats
    ∧ ∀ t, t ∈ txs →
        ∃ ts, terminalStats !! TERMINAL_ID t = Some ts
          ∧ let rows := rows_of TERMINAL_ID (TERMINAL_ID t) txs in
            TerminalStat.fraudRate ts
            = (JS.of_length (length (fraud_rows rows))
               / JS.of_length (length rows))%float
            ∧ ((Z.of_nat (length txs) < 2 ^ 32)%Z →
               is_nan (TerminalStat.fraudRate ts) = false
               ∧ (Forall (λ t, TX_FRAUD t = None) rows →
                  TerminalStat.fraudRate ts = 0%float)).
Proof.
  intros Hplain.
  destruct (proj2 (calculateTerminalStats_is_Some txs) Hplain) as [m Hm].
  exists m. split; [done|]. split.
  - destruct (proj2 (calculateTerminalStats_is_Some (label_or_zero <$> txs)))
      as [m' Hm']; [by apply plain_keys_label_or_zero|].
    rewrite Hm'. f_equal. apply map_eq. intros k.
    rewrite (calculateTerminalStats_lookup _ _ k Hm').
    rewrite (calculateTerminalStats_lookup _ _ k Hm).
    rewrite rows_of_label_or_zero by done.
    destruct (rows_of TERMINAL_ID k txs) as [|t g]; [done|].
    change (label_or_zero <$> t :: g) with (label_or_zero t :: (label_or_zero <$> g)).
    f_equal. apply (terminalStat_of_label_or_zero (t :: g)).
  - intros t [i Hi]%list_elem_of_lookup_1.
    destruct (own_terminal_present txs m i t Hm Hi) as (ts & Hts & -> & Hn1 & Hn2).
    exists (terminalStat_of (rows_of TERMINAL_ID (TERMINAL_ID t) txs)).
    split; [done|]. cbv zeta. split; [done|]. intros Hlen.
    simpl in Hn1, Hn2. unfold terminalStat_of. simpl TerminalStat.fraudRate.
    set (rows := rows_of TERMINAL_ID (TERMINAL_ID t) txs) in *.
    fold (fraud_rows rows).
    assert (length (fraud_rows rows) ≤ length rows) by apply length_filter.
    split.
    + apply FloatSub.div_of_length_not_nan; lia.
    + intros Hnone. rewrite fraud_rows_unlabeled by done.
      apply FloatFacts.zero_div_of_length; lia.
Qed.

(** ** Untrained state *)

Section PredictFacts.

Variables Math_sin Math_cos : float -> float.
Variable js_rem : float -> float -> float.
Variable Model : Type.
Variable tf_predict : Model -> list (list float) -> string + list float.

Lemma predict_without_model (this : FraudDetector Model) txs :
  model this = None →
  predict Math_sin Math_cos js_rem Model tf_predict this txs
  = inl (Thrown_Error "Model not trained yet").
Proof. intros H. unfold predict. by rewrite H. Qed.

(** C4, as the code has it: before a scaler has been fit, [predict] throws
    ["Model not trained yet"] whatever the batch, so no prediction is made
    from raw features; [applyNormalization] itself does not throw in that
    state but returns the features it was given. *)
Theorem predict_before_fit_throws_but_transform_passes_through
    (this : FraudDetector Model) (txs : list Transaction)
    (features : list (list float)) :
  scaler this = None →
  predict Math_sin Math_cos js_rem Model tf_predict this txs
  = inl (Thrown_Error "Model not trained yet")
  ∧ applyNormalization this features = features.
Proof.
  intros H. unfold predict, applyNormalization. rewrite H.
  by destruct (model this).
Qed.

End PredictFacts.

(** ** Normalizer *)

Lemma at_index_lookup row i x : row !! i = Some x → JS.at_index row i = x.
Proof. intros H. unfold JS.at_index. by rewrite nth_lookup, H. Qed.

Lemma at_index_fmap_seq (f : nat → float) n i :
  i < n → JS.at_index (f <$> seq 0 n) i = f i.
Proof.
  intros Hi. apply at_index_lookup.
  by rewrite list_lookup_fmap, lookup_seq_lt.
Qed.


Lemma column_mean_spec features i :
  column_mean features i = arithmetic_mean (column features i).
Proof.
  unfold column_mean, arithmetic_mean, column, JS.sum.
  rewrite length_fmap. f_equal.
  apply (foldl_add_fmap (λ row, JS.at_index row i)).
Qed.

Lemma column_std_spec features means i :
  JS.at_index means i = column_mean features i →
  column_std features means i = JS.or_else (population_std (column features i)) 1.
Proof.
  intros Hm. unfold column_std, population_std. cbv zeta.
  rewrite Hm, column_mean_spec.
  set (mu := arithmetic_mean (column features i)). unfold column, JS.sum.
  rewrite length_fmap, <- list_fmap_compose. do 3 f_equal.
  apply (foldl_add_fmap (λ row, JS.pow2 (JS.at_index row i - mu))).
Qed.

Lemma truthy_nonzero x : JS.truthy x = true → (x =? 0)%float = false.
Proof.
  unfold JS.truthy. destruct (x =? 0)%float; [|done].
  by rewrite andb_false_r.
Qed.

Lemma scale_row_lookup means stds row i x :
  row !! i = Some x →
  scale_row means stds row !! i
  = Some ((x - JS.at_index means i) / JS.at_index stds i)%float.
Proof. intros H. unfold scale_row. by rewrite list_lookup_imap, H. Qed.

(** The fitted scaler of a non-empty matrix. *)
Lemma normalizeFeatures_cons {Model : Type} (this : FraudDetector Model) row0 rest :
  let features := row0 :: rest in
  let means := column_mean features <$> seq 0 (length row0) in
  let stds := column_std features means <$> seq 0 (length row0) in
  normalizeFeatures this features
  = ({| model := model this;
        scaler := Some {| mean := means; std := stds |};
        isTraining := isTraining this |},
     scale_row means stds <$> features).
Proof. reflexivity. Qed.

(** The entries of the fitted scaler within the width of the first row. *)
Lemma fitted_scaler_at (row0 : list float) (rest : list (list float)) i :
  i < length row0 →
  let features := row0 :: rest in
  let means := column_mean features <$> seq 0 (length row0) in
  let stds := column_std features means <$> seq 0 (length row0) in
  JS.at_index means i = arithmetic_mean (column features i)
  ∧ JS.at_index stds i = JS.or_else (population_std (column features i)) 1.
Proof.
  intros Hi. cbv zeta.
  assert (JS.at_index (column_mean (row0 :: rest) <$> seq 0 (length row0)) i
          = arithmetic_mean (column (row0 :: rest) i)) as Hmu
    by (by rewrite at_index_fmap_seq, column_mean_spec).
  split; [exact Hmu|].
  rewrite at_index_fmap_seq by done. apply column_std_spec.
  by rewrite Hmu, column_mean_spec.
Qed.



Lemma zero_deviation_fold (features : list (list float)) i c :
  (c - c)%float = 0%float →
  (∀ row, row ∈ features → JS.at_index row i = c) →
  foldl (λ sum row, sum + JS.pow2 (JS.at_index row i - c))%float 0%float features
  = 0%float.
Proof.
  intros Hc. induction features as [|row features IH]; intros Hall; [done|].
  simpl. rewrite (Hall row) by left. rewrite Hc.
  change (0 + JS.pow2 0)%float with 0%float.
  apply IH. intros row' Hin. apply Hall. by right.
Qed.

(** Fitting on a non-empty matrix and transforming it returns a matrix of
    the same shape whose entry in column [i] is [(x - mean i) / std i] for
    the fitted scaler.  A column all of whose entries are one finite value
    [c], and whose computed mean is exactly [c], gets the divisor 1 and is
    transformed to zeros. *)
Lemma fit_then_transform_scales_each_entry
    {Model : Type} (this : FraudDetector Model) (row0 : list float)
    (rest : list (list float)) :
  let features := row0 :: rest in
  let out := (normalizeFeatures this features).2 in
  ∃ s, scaler (normalizeFeatures this features).1 = Some s
    ∧ length out = length features
    ∧ (∀ r row, features !! r = Some row →
         ∃ orow, out !! r = Some orow
           ∧ length orow = length row
           ∧ ∀ i x, row !! i = Some x →
               orow !! i
               = Some ((x - JS.at_index (mean s) i) / JS.at_index (std s) i)%float
               ∧ (i < length row0 →
                  orow !! i
                  = Some ((x - arithmetic_mean (column features i))
                          / JS.or_else (population_std (column features i)) 1)%float))
    ∧ (∀ i c, i < length row0 →
         (Z.of_nat (length features) < 2 ^ 32)%Z →
         is_nan c = false → is_infinity c = false →
         (∀ row, row ∈ features → row !! i = Some c) →
         arithmetic_mean (column features i) = c →
         std s !! i = Some 1%float
         ∧ ∀ orow, orow ∈ out → orow !! i = Some 0%float).
Proof.
  cbv zeta. rewrite normalizeFeatures_cons. cbv zeta.
  pose proof (fitted_scaler_at row0 rest) as Hat. cbv zeta in Hat.
  set (features := row0 :: rest) in *.
  set (means := column_mean features <$> seq 0 (length row0)) in *.
  set (stds := column_std features means <$> seq 0 (length row0)) in *.
  exists {| mean := means; std := stds |}. split; [done|]. cbn [mean std fst snd].
  split; [apply length_fmap|]. split.
  - intros r row Hr. exists (scale_row means stds row).
    split; [by rewrite list_lookup_fmap, Hr|].
    split; [apply length_imap|].
    intros i x Hx. rewrite (scale_row_lookup _ _ _ _ x) by done.
    split; [done|]. intros Hi. destruct (Hat i Hi) as [-> ->]. done.
  - intros i c Hi Hlen Hnan Hinf Hcol Hmean.
    pose proof (FloatFacts.sub_diag_finite c Hnan Hinf) as Hsub.
    destruct (Hat i Hi) as [Hmu _]. rewrite Hmean in Hmu.
    assert (column_std features means i = 1%float) as Hsd.
    { unfold column_std. cbv zeta. rewrite Hmu.
      rewrite zero_deviation_fold;
        [|done | intros row Hin; by apply at_index_lookup, Hcol].
      rewrite FloatFacts.zero_div_of_length; [done | simpl; lia | done]. }
    split.
    + unfold stds. rewrite list_lookup_fmap, lookup_seq_lt by done.
      cbn [fmap option_fmap option_map Nat.add]. by rewrite Hsd.
    + intros orow [row [-> Hin]]%list_elem_of_fmap.
      rewrite (scale_row_lookup _ _ _ _ c) by by apply Hcol.
      unfold stds. rewrite Hmu, at_index_fmap_seq, Hsd, Hsub by done. done.
Qed.

Section ConstantColumn.

Variables Math_sin Math_cos : float -> float.
Variable js_rem : float -> float -> float.
Variable Model : Type.

(** C5: the features of the quiet batch, in which every row is at the one
    terminal of the batch, have a constant column: the terminal fraud rate,
    one tenth in all ten rows.  Its computed mean is the double below one
    tenth (the ten-fold sum is rounded), so its computed deviation is
    [2^-56] and not 0, the guard [|| 1] does not apply, and fit-then-transform turns the
    column into ones, not zeros. *)
Theorem constant_rate_column_is_transformed_to_ones
    (this : FraudDetector Model) :
  ∃ features s,
    extractFeatures Math_sin Math_cos js_rem quiet_batch = Some features
    ∧ column features 8 = replicate 10 one_tenth
    ∧ scaler (normalizeFeatures this features).1 = Some s
    ∧ mean s !! 8 = Some 0x1.9999999999999p-4%float
    ∧ std s !! 8 = Some 0x1p-56%float
    ∧ column (normalizeFeatures this features).2 8 = replicate 10 1%float.
Proof.
  eexists _, _. split; [by vm_compute|]. split; [by vm_compute|].
  split; [by vm_compute|]. split; [by vm_compute|]. split; by vm_compute.
Qed.

End ConstantColumn.

(** * Worked examples *)

(** A closed batch has no inherited key: decided by evaluation. *)
Ltac plain_batch :=
  unfold plain_keys; refine (bool_decide_unpack _ _); vm_compute; exact I.

(** Nine fraudulent rows out of ten. *)
Example terminal_rate_of_precedence_batch :
  (m ← calculateTerminalStats precedence_batch;
   TerminalStat.fraudRate <$> m !! "T1"%string)
  = Some (9 / 10)%float.
Proof. vm_compute. reflexivity. Qed.

(** Amount 500 at a terminal with fraud rate 0.9 is scenario 1, and the
    amount 50 at the same terminal is scenario 2. *)
Lemma precedence_batch_verdicts :
  ∃ out r0 r1,
    detectFraudRuleBased precedence_batch = Some out
    ∧ out !! 0 = Some r0
    ∧ out !! 1 = Some r1
    ∧ (predicted_fraud r0, predicted_scenario r0) = (Some 1%float, Some 1%float)
    ∧ (predicted_fraud r1, predicted_scenario r1) = (Some 1%float, Some 2%float).
Proof.
  destruct detectFraudRuleBased_first_match_wins_unless_inherited as [_ H].
  destruct (H precedence_batch) as [_ Hout].
  destruct (detectFraudRuleBased precedence_batch) as [out|] eqn:Hd;
    [|by vm_compute in Hd].
  destruct (Hout out eq_refl) as (cs & ts & Hcs & Hts & _ & Hrows).
  destruct (Hrows 0 _ eq_refl) as (r0 & Hr0 & _ & _ & _ & H0 & _).
  destruct (Hrows 1 _ eq_refl) as (r1 & Hr1 & _ & _ & _ & _ & H1 & _).
  exists out, r0, r1. split; [done|]. split; [exact Hr0|]. split; [exact Hr1|].
  split; [exact (H0 eq_refl)|].
  apply (H1 eq_refl). vm_compute in Hts. injection Hts as <-.
  eexists. split; vm_compute; reflexivity.
Defined.

(** Amount 50, terminal fraud rate 0.1, customer mean 40: legitimate. *)
Example quiet_batch_first_row_legitimate :
  (out ← detectFraudRuleBased quiet_batch;
   (λ r, (predicted_fraud r, predicted_scenario r)) <$> out !! 0)
  = Some (Some 0%float, Some 0%float).
Proof. vm_compute. reflexivity. Qed.

(** Customer A of the quiet batch: two rows, mean 40, deviation 10. *)
Lemma customer_aggregation_of_quiet_batch :
  ∃ m s, calculateCustomerStats quiet_batch = Some m
         ∧ m !! "A"%string = Some s
         ∧ CustomerStat.transactionCount s = 2
         ∧ CustomerStat.avgAmount s = 40%float
         ∧ CustomerStat.amountVariation s = 10%float.
Proof.
  destruct customer_aggregation_per_distinct_id_unless_inherited as (_ & _ & H).
  destruct (H quiet_batch) as (_ & _ & Hm & _).
  destruct (calculateCustomerStats quiet_batch) as [m|] eqn:Hc;
    [|by vm_compute in Hc].
  destruct (Hm m eq_refl) as [_ Hentry].
  vm_compute in Hc. injection Hc as <-.
  eexists _, _. split; [reflexivity|]. split; [vm_compute; reflexivity|].
  destruct (Hentry "A"%string _ ltac:(vm_compute; reflexivity)) as (Hn & Hmean & Hs).
  split; [exact Hn|]. split; [exact Hmean | exact Hs].
Defined.

(** Ground truth 1, 0, 1, 0 against predictions 1, 0, 0, 0. *)
Example metrics_of_scored_batch :
  calculateMetrics truth_batch scored_batch
  = Some {| accuracy := 0.75; precision := 1; recall := 0.5;
            f1Score := 0x1.5555555555555p-1;
            confusion_matrix := [[2; 0]; [1; 1]] |}.
Proof. vm_compute. reflexivity. Qed.

(** The four cells of that evaluation sum to its four rows. *)
Lemma confusion_matrix_of_scored_batch :
  ∃ m (tn fp fn tp : nat),
    calculateMetrics truth_batch scored_batch = Some m
    ∧ confusion_matrix m = [[tn; fp]; [fn; tp]]
    ∧ tn + fp + fn + tp = 4.
Proof.
  apply (confusion_matrix_sums_to_rows truth_batch scored_batch).
  - reflexivity.
  - repeat constructor.
  - repeat constructor.
Defined.

(** A batch whose labels are all 2 is counted in no cell, and its accuracy
    is [NaN] as well. *)
Example metrics_of_uncounted_rows :
  accuracy <$> calculateMetrics [labelled_tx "C" "T" 10 2]
                 [scored (labelled_tx "C" "T" 10 2) (Some 0.9375%float)]
  = Some nan.
Proof. vm_compute. reflexivity. Qed.

(** The only transaction of terminal T1 has no label, and the terminal gets
    the fraud rate 0, the very statistics of the same batch labelled 0. *)
Lemma unlabelled_terminal_gets_rate_zero :
  (m ← calculateTerminalStats [sample_tx "C1" "T1" 50 None]; m !! "T1"%string)
  = Some {| TerminalStat.avgAmount := 50;
            TerminalStat.transactionCount := 1;
            TerminalStat.fraudRate := 0 |}
  ∧ calculateTerminalStats [sample_tx "C1" "T1" 50 None]
    = calculateTerminalStats [sample_tx "C1" "T1" 50 (Some 0%float)].
Proof. split; vm_compute; reflexivity. Qed.

(** The same rate, read off the general statement. *)
Lemma unlabelled_terminal_rate_by_theorem :
  ∃ m ts,
    calculateTerminalStats [sample_tx "C1" "T1" 50 None] = Some m
    ∧ m !! "T1"%string = Some ts
    ∧ is_nan (TerminalStat.fraudRate ts) = false
    ∧ TerminalStat.fraudRate ts = 0%float.
Proof.
  destruct (terminal_fraud_rate_folds_missing_labels_into_zero
              [sample_tx "C1" "T1" 50 None]) as (m & Hm & _ & H);
    [plain_batch|].
  destruct (H (sample_tx "C1" "T1" 50 None)) as (ts & Hts & _ & H0); [by left|].
  destruct H0 as [Hnan Hzero]; [vm_compute; reflexivity|].
  exists m, ts. split; [exact Hm|]. split; [exact Hts|].
  split; [exact Hnan|]. apply Hzero. repeat constructor.
Defined.

(** On a fresh detector the transform returns the raw features. *)
Lemma applyNormalization_on_fresh_detector_returns_raw_features :
  applyNormalization (@new_FraudDetector unit) [[220; 31]%float]
  = [[220; 31]%float].
Proof. reflexivity. Qed.

(** A fresh detector refuses to predict. *)
Lemma predict_on_fresh_detector_throws :
  predict small_angle_sin small_angle_cos rem_below_modulus unit
    (λ _ _, inr []) new_FraudDetector [sample_tx "C1" "T1" 50 None]
  = inl (Thrown_Error "Model not trained yet")
  ∧ applyNormalization (@new_FraudDetector unit) [[220; 31]%float]
    = [[220; 31]%float].
Proof.
  apply (predict_before_fit_throws_but_transform_passes_through
           small_angle_sin small_angle_cos rem_below_modulus unit
           (λ _ _, inr []) new_FraudDetector).
  reflexivity.
Defined.

(** A column that holds one tenth three times has the computed mean
    0.10000000000000002 and a computed standard deviation of about 1.4e-17,
    and every row is transformed to -1. *)
Lemma constant_column_is_not_transformed_to_zero :
  column [[one_tenth]; [one_tenth]; [one_tenth]] 0
  = [one_tenth; one_tenth; one_tenth]
  ∧ (normalizeFeatures (@new_FraudDetector unit)
       [[one_tenth]; [one_tenth]; [one_tenth]]).2
    = [[(-1)%float]; [(-1)%float]; [(-1)%float]].
Proof. split; vm_compute; reflexivity. Qed.

(** The column 5, 5 has the exact mean 5 and is transformed to zeros. *)
Lemma constant_column_with_exact_mean_is_transformed_to_zero :
  (normalizeFeatures (@new_FraudDetector unit) [[5%float]; [5%float]]).2
  = [[0%float]; [0%float]].
Proof.
  destruct (fit_then_transform_scales_each_entry
              (@new_FraudDetector unit) [5%float] [[5%float]])
    as (s & _ & _ & _ & H).
  destruct (H 0 5%float) as [_ H0];
    [simpl; lia | vm_compute; reflexivity | reflexivity | reflexivity
    | | vm_compute; reflexivity |].
  { intros row Hin. repeat (apply elem_of_cons in Hin as [-> | Hin]; [done|]).
    by apply elem_of_nil in Hin. }
  vm_compute. reflexivity.
Defined.

(** The terminal-rate column of the quiet batch over the stand-ins for the
    platform functions. *)
Lemma constant_rate_column_of_quiet_batch :
  ∃ features s,
    extractFeatures small_angle_sin small_angle_cos rem_below_modulus
      quiet_batch = Some features
    ∧ column features 8 = replicate 10 one_tenth
    ∧ scaler (normalizeFeatures (@new_FraudDetector unit) features).1 = Some s
    ∧ mean s !! 8 = Some 0x1.9999999999999p-4%float
    ∧ std s !! 8 = Some 0x1p-56%float
    ∧ column (normalizeFeatures (@new_FraudDetector unit) features).2 8
      = replicate 10 1%float.
Proof.
  exact (constant_rate_column_is_transformed_to_ones
           small_angle_sin small_angle_cos rem_below_modulus unit
           new_FraudDetector).
Defined.





(** Even a batch of one transaction finds its customer and its terminal. *)
Lemma single_transaction_finds_its_own_stats :
  let txs := [sample_tx "C1" "T1" 50 None] in
  ∃ rows customerStats terminalStats cs ts row,
    extractFeatures small_angle_sin small_angle_cos rem_below_modulus txs
    = Some rows
    ∧ calculateCustomerStats txs = Some customerStats
    ∧ calculateTerminalStats txs = Some terminalStats
    ∧ customerStats !! "C1"%string = Some cs
    ∧ terminalStats !! "T1"%string = Some ts
    ∧ 1 ≤ CustomerStat.transactionCount cs
    ∧ 1 ≤ TerminalStat.transactionCount ts
    ∧ rows !! 0 = Some row
    ∧ row !! 4 = Some (JS.of_length (CustomerStat.transactionCount cs))
    ∧ row !! 7 = Some (JS.of_length (TerminalStat.transactionCount ts))
    ∧ (1 <=? JS.of_length (CustomerStat.transactionCount cs))%float = true
    ∧ (1 <=? JS.of_length (TerminalStat.transactionCount ts))%float = true.
Proof.
  cbv zeta.
  destruct (recomputed_stats_cover_every_row_unless_inherited
              small_angle_sin small_angle_cos rem_below_modulus) as (_ & _ & H).
  destruct (H [sample_tx "C1" "T1" 50 None]) as [_ Hrows].
  destruct (extractFeatures small_angle_sin small_angle_cos rem_below_modulus
              [sample_tx "C1" "T1" 50 None]) as [rows|] eqn:He;
    [|by vm_compute in He].
  destruct (Hrows rows eq_refl ltac:(vm_compute; reflexivity))
    as (customerStats & terminalStats & Hcs & Hts & _ & _ & Hrow).
  destruct (Hrow 0 _ eq_refl)
    as (cs & ts & row & Hc & Ht & Hc1 & Ht1 & Hr & H4 & H7 & Hf4 & Hf7).
  exists rows, customerStats, terminalStats, cs, ts, row.
  split; [reflexivity|]. split; [exact Hcs|]. split; [exact Hts|].
  split; [exact Hc|]. split; [exact Ht|]. split; [exact Hc1|].
  split; [exact Ht1|]. split; [exact Hr|]. split; [exact H4|].
  split; [exact H7|]. split; [exact Hf4 | exact Hf7].
Defined.

(** * Further properties *)

(** ** Grouping is a partition of the batch *)

Lemma weigh_snoc w txs t : weigh w (txs ++ [t]) = weigh w txs + w t.
Proof. unfold weigh. rewrite sum_list_with_app. simpl. lia. Qed.

Lemma weigh_length txs : weigh (λ _, 1) txs = length txs.
Proof. unfold weigh. induction txs as [|t txs IH]; simpl; [done | by rewrite IH]. Qed.

Lemma weigh_filter (P : Transaction → Prop) `{!∀ t, Decision (P t)} txs :
  weigh (λ t, if decide (P t) then 1 else 0) txs = length (filter P txs).
Proof.
  unfold weigh. induction txs as [|t txs IH]; [done|].
  rewrite filter_cons. simpl. rewrite IH. by destruct (decide (P t)).
Qed.

Lemma sum_list_with_fmap {A B : Type} (f : B → nat) (g : A → B) (l : list A) :
  sum_list_with f (g <$> l) = sum_list_with (f ∘ g) l.
Proof. induction l as [|x l IH]; csimpl; [done | by f_equal]. Qed.

Lemma sum_list_with_ext {A : Type} (f g : A → nat) (l : list A) :
  (∀ x, x ∈ l → f x = g x) → sum_list_with f l = sum_list_with g l.
Proof.
  induction l as [|x l IH]; intros H; simpl; [done|].
  rewrite (H x) by left. rewrite IH; [done|]. intros y Hy. apply H. by right.
Qed.

Lemma groups_weight_update w k t d :
  is_Some (Dict.get k d) →
  groups_weight w (Dict.update (λ g, g ++ [t]) k d) = groups_weight w d + w t.
Proof.
  unfold groups_weight. induction d as [|[k0 g] d IH]; simpl.
  - by intros [? ?].
  - destruct (decide (k = k0)) as [->|Hne]; simpl.
    + intros _. rewrite weigh_snoc. lia.
    + intros H. rewrite IH by done. lia.
Qed.

(** Every row of the batch is in exactly one group: any weight summed over
    the groups is the weight of the batch. *)
Lemma groupBy_weight key w txs d :
  groupBy key txs = Some d → groups_weight w d = weigh w txs.
Proof.
  revert d. induction txs as [|t txs IH] using rev_ind; intros d.
  { by intros [= <-]. }
  intros (d0 & Hd0 & Hstep)%groupBy_snoc_Some.
  rewrite weigh_snoc, <- (IH d0 Hd0). apply group_step_Some in Hstep.
  destruct (Dict.get (key t) d0) eqn:Hg.
  - subst d. apply groups_weight_update. by rewrite Hg.
  - destruct Hstep as [_ ->].
    unfold groups_weight. rewrite sum_list_with_app. simpl. lia.
Qed.

Lemma fst_prod_map_id {V W : Type} (f : V → W) (d : list (string * V)) :
  (prod_map id f <$> d).*1 = d.*1.
Proof. rewrite <- list_fmap_compose. apply list_fmap_ext. by intros ? []. Qed.

Lemma fill_entries_list_to_map {V W : Type} (f : V → W) (d : list (string * V)) :
  NoDup d.*1 →
  foldl (fun m '(k', v) => <[k' := f v]> m) (∅ : gmap string W) (Object_entries d)
  = list_to_map (prod_map id f <$> d).
Proof.
  intros Hnd. apply map_eq. intros k. rewrite lookup_fill_entries by done.
  destruct (Dict.get k d) as [v|] eqn:Hg; simpl; symmetry.
  - apply elem_of_list_to_map; [by rewrite fst_prod_map_id|].
    apply list_elem_of_fmap.
    exists (k, v). split; [done|]. by apply DictFacts.get_Some.
  - apply not_elem_of_list_to_map. rewrite fst_prod_map_id.
    by apply DictFacts.get_None.
Qed.

Lemma fill_entries_to_list {V W : Type} (f : V → W) (d : list (string * V)) :
  NoDup d.*1 →
  map_to_list
    (foldl (fun m '(k', v) => <[k' := f v]> m) (∅ : gmap string W)
       (Object_entries d))
  ≡ₚ prod_map id f <$> d.
Proof.
  intros Hnd. rewrite fill_entries_list_to_map by done.
  apply map_to_list_to_map. by rewrite fst_prod_map_id.
Qed.

(** X1: each aggregator of the detector returns exactly on the batches
    without an inherited name among its keys; the customer counts of the
    [Map] it returns add up to the size of the batch, and so do the
    terminal counts: the grouping drops no row and counts none twice. *)
Theorem stats_counts_add_up_to_batch_size (txs : list Transaction) :
  (is_Some (calculateCustomerStats txs) ↔ plain_keys CUSTOMER_ID txs)
  ∧ (is_Some (calculateTerminalStats txs) ↔ plain_keys TERMINAL_ID txs)
  ∧ (∀ m, calculateCustomerStats txs = Some m →
       sum_list_with CustomerStat.transactionCount (map_to_list m).*2
       = length txs)
  ∧ (∀ m, calculateTerminalStats txs = Some m →
       sum_list_with TerminalStat.transactionCount (map_to_list m).*2
       = length txs).
Proof.
  split; [apply calculateCustomerStats_is_Some|].
  split; [apply calculateTerminalStats_is_Some|]. split.
  - intros m (d & Hd & [= <-])%bind_Some.
    rewrite (fill_entries_to_list customerStat_of) by by eapply groupBy_NoDup.
    rewrite <- list_fmap_compose, sum_list_with_fmap.
    rewrite <- (weigh_length txs), <- (groupBy_weight CUSTOMER_ID _ _ d Hd).
    unfold groups_weight. apply sum_list_with_ext. intros [k g] _. simpl.
    by rewrite weigh_length.
  - intros m (d & Hd & [= <-])%bind_Some.
    rewrite (fill_entries_to_list terminalStat_of) by by eapply groupBy_NoDup.
    rewrite <- list_fmap_compose, sum_list_with_fmap.
    rewrite <- (weigh_length txs), <- (groupBy_weight TERMINAL_ID _ _ d Hd).
    unfold groups_weight. apply sum_list_with_ext. intros [k g] _. simpl.
    by rewrite weigh_length.
Qed.

(** X2: aggregation by terminal throws exactly when a terminal id of the
    batch is the name of an inherited member.  When it returns, the [Map]
    has exactly one entry per distinct terminal id of the batch; the entry
    holds the number of the terminal's rows (at least one), the arithmetic
    mean of their amounts, and as fraud rate the number of rows labelled
    exactly 1 over the number of rows. *)
Theorem terminal_aggregation_per_distinct_id (txs : list Transaction) :
  (calculateTerminalStats txs = None
   ↔ ∃ t, t ∈ txs ∧ TERMINAL_ID t ∈ Object_prototype_names)
  ∧ ∀ m, calculateTerminalStats txs = Some m →
      dom m = list_to_set (TERMINAL_ID <$> txs)
      ∧ ∀ k s, m !! k = Some s →
          let rows := rows_of TERMINAL_ID k txs in
          TerminalStat.transactionCount s = length rows
          ∧ 1 ≤ length rows
          ∧ length (fraud_rows rows) ≤ length rows
          ∧ TerminalStat.avgAmount s = arithmetic_mean (TX_AMOUNT <$> rows)
          ∧ TerminalStat.fraudRate s
            = (JS.of_length (length (fraud_rows rows))
               / JS.of_length (length rows))%float.
Proof.
  split; [apply None_iff_inherited, calculateTerminalStats_is_Some|].
  intros m Hm. split.
  - apply set_eq. intros k.
    rewrite elem_of_dom, elem_of_list_to_set, id_in_batch.
    rewrite (calculateTerminalStats_lookup txs m k Hm).
    destruct (rows_of TERMINAL_ID k txs); split; (done || by intros []).
  - intros k s. rewrite (calculateTerminalStats_lookup txs m k Hm). cbv zeta.
    destruct (rows_of TERMINAL_ID k txs) as [|t g] eqn:Hrows; [done|].
    intros [= <-]. split; [done|]. split; [simpl; lia|].
    split; [apply length_filter|]. done.
Qed.

(** ** What the aggregators and the rule engine read *)

Lemma rows_of_same key k txs txs' :
  (∀ t u, same_for_stats t u → key t = key u) →
  Forall2 same_for_stats txs txs' →
  Forall2 same_for_stats (rows_of key k txs) (rows_of key k txs').
Proof.
  intros Hkey. unfold rows_of. induction 1 as [|t u txs txs' Htu _ IH]; [done|].
  rewrite !filter_cons, <- (Hkey t u Htu).
  destruct (decide (key t = k)); [by constructor | done].
Qed.

Lemma amounts_same g g' :
  Forall2 same_for_stats g g' → TX_AMOUNT <$> g = TX_AMOUNT <$> g'.
Proof.
  induction 1 as [|t u g g' (_ & _ & Ha & _) _ IH]; [done|].
  csimpl. by rewrite Ha, IH.
Qed.

Lemma fraud_rows_same g g' :
  Forall2 same_for_stats g g' →
  length (fraud_rows g) = length (fraud_rows g').
Proof.
  unfold fraud_rows. induction 1 as [|t u g g' (_ & _ & _ & Hl) _ IH]; [done|].
  rewrite !filter_cons, <- Hl.
  destruct (decide (JS.strict_eq (TX_FRAUD t) 1 = true)); simpl; lia.
Qed.

Lemma customerStat_of_same g g' :
  Forall2 same_for_stats g g' → customerStat_of g = customerStat_of g'.
Proof.
  intros H. unfold customerStat_of.
  by rewrite (amounts_same g g' H), (Forall2_length _ _ _ H).
Qed.

Lemma terminalStat_of_same g g' :
  Forall2 same_for_stats g g' → terminalStat_of g = terminalStat_of g'.
Proof.
  intros H. unfold terminalStat_of.
  by rewrite (amounts_same g g' H), (Forall2_length _ _ _ H),
    (fraud_rows_same g g' H).
Qed.

Lemma plain_keys_same key txs txs' :
  (∀ t u, same_for_stats t u → key t = key u) →
  Forall2 same_for_stats txs txs' →
  plain_keys key txs ↔ plain_keys key txs'.
Proof.
  intros Hkey. unfold plain_keys.
  induction 1 as [|t u txs txs' Htu _ IH]; [done|].
  by rewrite !Forall_cons, IH, (Hkey t u Htu).
Qed.

(** Two calls that return on the same batches and agree where both
    return. *)
Lemma option_eq_by_cases {A : Type} (x y : option A) :
  (is_Some x ↔ is_Some y) →
  (∀ a b, x = Some a → y = Some b → a = b) →
  x = y.
Proof.
  intros Hsome Heq. destruct x as [a|], y as [b|]; try done.
  - f_equal. by apply Heq.
  - by destruct (proj1 Hsome ltac:(by eexists)).
  - by destruct (proj2 Hsome ltac:(by eexists)).
Qed.

Lemma calculateCustomerStats_same txs txs' :
  Forall2 same_for_stats txs txs' →
  calculateCustomerStats txs = calculateCustomerStats txs'.
Proof.
  intros H. apply option_eq_by_cases.
  { rewrite !calculateCustomerStats_is_Some.
    apply plain_keys_same; [|done]. by intros ?? [? _]. }
  intros m m' Hm Hm'. apply map_eq. intros k.
  rewrite (calculateCustomerStats_lookup _ _ k Hm).
  rewrite (calculateCustomerStats_lookup _ _ k Hm').
  pose proof (rows_of_same CUSTOMER_ID k txs txs' ltac:(by intros ?? [? _]) H) as Hr.
  destruct Hr as [|t u g g' Htu Hg]; [done|].
  f_equal. apply customerStat_of_same. by constructor.
Qed.

Lemma calculateTerminalStats_same txs txs' :
  Forall2 same_for_stats txs txs' →
  calculateTerminalStats txs = calculateTerminalStats txs'.
Proof.
  intros H. apply option_eq_by_cases.
  { rewrite !calculateTerminalStats_is_Some.
    apply plain_keys_same; [|done]. by intros ?? (_ & ? & _). }
  intros m m' Hm Hm'. apply map_eq. intros k.
  rewrite (calculateTerminalStats_lookup _ _ k Hm).
  rewrite (calculateTerminalStats_lookup _ _ k Hm').
  pose proof (rows_of_same TERMINAL_ID k txs txs' ltac:(by intros ?? (_ & ? & _)) H)
    as Hr.
  destruct Hr as [|t u g g' Htu Hg]; [done|].
  f_equal. apply terminalStat_of_same. by constructor.
Qed.

Lemma rule_row_same_for_stats cs ts t : same_for_stats t (rule_row cs ts t).
Proof.
  unfold rule_row.
  destruct (JS.gt _ _); [done|]. destruct (terminal_flagged _); [done|].
  by destruct (amount_spike _ _).
Qed.

Lemma rule_row_verdict_same cs ts t u :
  same_for_stats t u →
  verdict_of (rule_row cs ts t) = verdict_of (rule_row cs ts u).
Proof.
  intros (Hc & Ht & Ha & _). unfold rule_row. rewrite Hc, Ht, Ha.
  destruct (JS.gt _ _); [done|]. destruct (terminal_flagged _); [done|].
  by destruct (amount_spike _ _).
Qed.

Lemma rule_row_idempotent cs ts t :
  rule_row cs ts (rule_row cs ts t) = rule_row cs ts t.
Proof.
  unfold rule_row.
  destruct (JS.gt (TX_AMOUNT t) 220) eqn:Hh; simpl; [by rewrite Hh|].
  destruct (terminal_flagged (ts !! TERMINAL_ID t)) eqn:Ht; simpl;
    [by rewrite Hh, Ht|].
  destruct (amount_spike (cs !! CUSTOMER_ID t) (TX_AMOUNT t)) eqn:Hc; simpl;
    by rewrite Hh, Ht, Hc.
Qed.

Lemma rule_rows_same_for_stats cs ts txs :
  Forall2 same_for_stats txs (rule_row cs ts <$> txs).
Proof.
  induction txs as [|t txs IH]; constructor; [|done].
  apply rule_row_same_for_stats.
Qed.

(** X3: the outcome of the rule-based classifier depends only on the
    customer id, the terminal id, the amount and the label of each row: two
    batches that agree on these, row by row, both make it throw or get the
    same labels, scenario tags and probabilities, whatever their other
    fields hold (earlier predictions included). *)
Theorem rule_verdicts_read_only_ids_amounts_and_labels
    (txs txs' : list Transaction) :
  Forall2 same_for_stats txs txs' →
  verdicts_of <$> detectFraudRuleBased txs
  = verdicts_of <$> detectFraudRuleBased txs'.
Proof.
  intros H. unfold detectFraudRuleBased.
  rewrite <- (calculateCustomerStats_same txs txs' H).
  rewrite <- (calculateTerminalStats_same txs txs' H).
  destruct (calculateCustomerStats txs) as [cs|]; [|done].
  destruct (calculateTerminalStats txs) as [ts|]; [|done].
  simpl. f_equal. unfold verdicts_of. rewrite <- !list_fmap_compose.
  induction H as [|t u txs txs' Htu _ IH]; [done|].
  csimpl. by rewrite IH, (rule_row_verdict_same cs ts t u Htu).
Qed.

(** X4: classifying a batch that the rule-based classifier has returned
    returns it unchanged. *)
Theorem detectFraudRuleBased_idempotent (txs out : list Transaction) :
  detectFraudRuleBased txs = Some out →
  detectFraudRuleBased out = Some out.
Proof.
  intros (cs & ts & Hcs & Hts & ->)%detectFraudRuleBased_Some.
  pose proof (rule_rows_same_for_stats cs ts txs) as H.
  apply detectFraudRuleBased_Some. exists cs, ts.
  split; [by rewrite <- (calculateCustomerStats_same _ _ H)|].
  split; [by rewrite <- (calculateTerminalStats_same _ _ H)|].
  rewrite <- list_fmap_compose. apply list_fmap_ext.
  intros _ t _. symmetry. apply rule_row_idempotent.
Qed.

(** ** MetricsEvaluator: missing predictions and rows that are not counted *)

Lemma count_loop_None actual :
  ∀ predicted c,
    count_loop actual predicted c = None ↔ length predicted < length actual.
Proof.
  induction actual as [|a actual IH]; intros predicted c; simpl.
  - split; [done | lia].
  - destruct predicted as [|p predicted]; simpl.
    + split; [lia | done].
    + rewrite IH. lia.
Qed.

Lemma count_loop_ignores_surplus actual :
  ∀ predicted more c,
    length actual ≤ length predicted →
    count_loop actual (predicted ++ more) c = count_loop actual predicted c.
Proof.
  induction actual as [|a actual IH]; intros predicted more c Hlen; [done|].
  destruct predicted as [|p predicted]; simpl in *; [lia|].
  apply IH. lia.
Qed.

Lemma count_row_counted c a p :
  total (count_row c (TX_FRAUD a) (JS.opt_or_else (predicted_fraud p) 0))
  = total c + (if counted a p then 1 else 0).
Proof.
  unfold counted, is_binary, count_row, total.
  destruct (JS.strict_eq (TX_FRAUD a) 0), (JS.strict_eq (TX_FRAUD a) 1),
    (JS.opt_or_else (predicted_fraud p) 0 =? 0)%float,
    (JS.opt_or_else (predicted_fraud p) 0 =? 1)%float; simpl; lia.
Qed.

Lemma count_loop_counted actual :
  ∀ predicted c c',
    count_loop actual predicted c = Some c' →
    total c'
    = total c
      + length (filter (λ ap, counted ap.1 ap.2 = true) (zip actual predicted)).
Proof.
  induction actual as [|a actual IH]; intros predicted c c'; simpl.
  - intros [= <-]. lia.
  - destruct predicted as [|p predicted]; [done|]. intros H.
    rewrite (IH _ _ _ H), count_row_counted. simpl zip. rewrite filter_cons.
    simpl. destruct (counted a p); simpl; lia.
Qed.

(** X5: the evaluator fails (with the [TypeError] of reading a field of a
    missing element) exactly when there are fewer predicted rows than
    ground-truth rows; predicted rows beyond the ground truth are ignored. *)
Theorem calculateMetrics_fails_iff_predictions_run_out
    (actual predicted : list Transaction) :
  (calculateMetrics actual predicted = None
   ↔ length predicted < length actual)
  ∧ ∀ more, length actual ≤ length predicted →
      calculateMetrics actual (predicted ++ more)
      = calculateMetrics actual predicted.
Proof.
  unfold calculateMetrics. split.
  - rewrite <- (count_loop_None actual predicted
                    {| tp := 0; fp := 0; tn := 0; fn := 0 |}).
    by destruct (count_loop actual predicted _).
  - intros more Hlen. by rewrite count_loop_ignores_surplus.
Qed.

(** X6: when no prediction is missing, the four cells of the confusion
    matrix add up to the number of rows whose ground-truth label and
    predicted label are both 0 or 1, which is at most the number of rows:
    a row with any other label is silently left out. *)
Theorem confusion_matrix_counts_only_binary_rows
    (actual predicted : list Transaction) :
  length actual ≤ length predicted →
  ∃ m (tn fp fn tp : nat),
    calculateMetrics actual predicted = Some m
    ∧ confusion_matrix m = [[tn; fp]; [fn; tp]]
    ∧ tn + fp + fn + tp
      = length (filter (λ ap, counted ap.1 ap.2 = true) (zip actual predicted))
    ∧ tn + fp + fn + tp ≤ length actual.
Proof.
  intros Hlen. unfold calculateMetrics.
  destruct (count_loop actual predicted {| tp := 0; fp := 0; tn := 0; fn := 0 |})
    as [c|] eqn:Hc.
  2:{ apply count_loop_None in Hc. lia. }
  exists (metrics_of c), (tn c), (fp c), (fn c), (tp c).
  split; [done|]. split; [done|].
  pose proof (count_loop_counted _ _ _ _ Hc) as Htot. unfold total in Htot.
  simpl in Htot. split; [exact Htot|]. rewrite Htot.
  etrans; [apply length_filter|]. rewrite length_zip_with. lia.
Qed.

(** ** Normalizer: fitting and applying agree *)

(** X7: applying the scaler that [normalizeFeatures] has just stored to the
    same matrix gives the matrix that [normalizeFeatures] returned (for the
    empty matrix both are empty and nothing is stored); and the transform
    keeps the number of rows and the width of every row, with or without a
    scaler. *)
Theorem applying_the_fitted_scaler_reproduces_the_fit
    {Model : Type} (this : FraudDetector Model) (features : list (list float)) :
  applyNormalization (normalizeFeatures this features).1 features
  = (normalizeFeatures this features).2
  ∧ (features = [] → (normalizeFeatures this features).1 = this)
  ∧ length (applyNormalization this features) = length features
  ∧ Forall2 (λ row out, length out = length row)
      features (applyNormalization this features).
Proof.
  split; [|split; [|split]].
  - destruct features as [|row0 rest].
    + simpl. unfold applyNormalization. by destruct (scaler this).
    + by rewrite normalizeFeatures_cons.
  - by intros ->.
  - unfold applyNormalization. destruct (scaler this); [|done].
    apply length_fmap.
  - unfold applyNormalization. destruct (scaler this) as [s|].
    + apply Forall2_fmap_r, Forall_Forall2_diag, Forall_forall.
      intros row _. apply length_imap.
    + by apply Forall_Forall2_diag, Forall_forall.
Qed.

(** ** The trained path: [predict] and [trainModel] *)

Lemma scored_keeps_input t o : keeps_input t (scored t o).
Proof. by repeat split. Qed.

Lemma scored_label t o :
  (predicted_fraud (scored t o) = Some 1%float
   ∧ ∃ p, predicted_probability (scored t o) = Some p ∧ JS.gt p 0.5 = true)
  ∨ (predicted_fraud (scored t o) = Some 0%float
     ∧ ∀ p, predicted_probability (scored t o) = Some p → JS.gt p 0.5 = false).
Proof.
  destruct o as [p|]; simpl.
  - destruct (JS.gt p 0.5) eqn:Hp; [left | right]; split; eauto.
    by intros ? [= <-].
  - right. by split.
Qed.

Lemma scored_binary t o : is_binary (predicted_fraud (scored t o)) = true.
Proof. by destruct (scored_label t o) as [[-> _] | [-> _]]. Qed.

Section PredictShape.

Variables Math_sin Math_cos : float -> float.
Variable js_rem : float -> float -> float.
Variable Model : Type.
Variable tf_predict : Model -> list (list float) -> string + list float.

Local Abbreviation predict_with :=
  (predict Math_sin Math_cos js_rem Model tf_predict).

Lemma predict_inr this txs out :
  predict_with this txs = inr out →
  ∃ m s features probabilities,
    model this = Some m ∧ scaler this = Some s
    ∧ extractFeatures Math_sin Math_cos js_rem txs = Some features
    ∧ tf_predict m (applyNormalization this features) = inr probabilities
    ∧ out = imap (λ index t, scored t (probabilities !! index)) txs.
Proof.
  unfold predict. destruct (model this) as [m|]; [|done].
  destruct (scaler this) as [s|]; [|done].
  destruct (extractFeatures _ _ _ txs) as [features|]; [|done].
  destruct (tf_predict m _) as [e|probabilities] eqn:Hp; [done|].
  intros [= <-]. by exists m, s, features, probabilities.
Qed.


Lemma predict_output_binary this txs out :
  predict_with this txs = inr out →
  length out = length txs
  ∧ Forall (λ p, is_binary (predicted_fraud p) = true) out.
Proof.
  intros (m & s & features & probabilities & _ & _ & _ & _ & ->)%predict_inr.
  split; [apply length_imap|].
  apply Forall_forall. intros r Hr.
  apply list_elem_of_lookup in Hr as [i Hi].
  rewrite list_lookup_imap in Hi.
  destruct (txs !! i) as [t|]; [|done]. injection Hi as <-.
  apply scored_binary.
Qed.

Lemma predict_ignores_isTraining b this txs :
  predict_with (set_isTraining b this) txs = predict_with this txs.
Proof. done. Qed.

Variable Tensor : Type.
Variable tf_tensor2d : list (list float) -> string + Tensor.
Variable tf_tensor2d_column : list (option float) -> string + Tensor.
Variable tf_sequential : nat -> string + Model.
Variable tf_compile_fit : Model -> Tensor -> Tensor -> Model * option string.

Local Abbreviation train :=
  (trainModel Math_sin Math_cos js_rem Model tf_predict Tensor
     tf_tensor2d tf_tensor2d_column tf_sequential tf_compile_fit).
Local Abbreviation features_of :=
  (extractFeatures Math_sin Math_cos js_rem).

Lemma features_nonempty txs features :
  features_of txs = Some features → txs ≠ [] →
  ∃ row0 rest, features = row0 :: rest.
Proof.
  intros (cs & ts & _ & _ & ->)%extractFeatures_Some Hne.
  destruct txs; [done|]. csimpl. eauto.
Qed.

(** X9: whether training returns metrics or throws, the training flag is
    off afterwards. *)
Theorem trainModel_always_clears_the_training_flag
    (this : FraudDetector Model) (txs : list Transaction) :
  isTrainingInProgress (train this txs).1 = false.
Proof.
  unfold trainModel, rethrow.
  destruct (features_of txs) as [features|]; [|done].
  destruct (normalizeFeatures _ _) as [this' normalized].
  destruct (tf_tensor2d normalized); [done|].
  destruct (tf_tensor2d_column _); [done|].
  destruct normalized as [|row0 ?]; [done|].
  destruct (tf_sequential _) as [|m]; [done|].
  destruct (tf_compile_fit m _ _) as [m' [e|]]; [done|].
  destruct (predict_with _ _) as [|predictions]; [done|].
  by destruct (calculateMetrics _ _).
Qed.

(** X10: training on the empty batch always throws, whatever the backend
    does, and leaves the model and the scaler of the detector as they
    were. *)
Theorem trainModel_on_empty_batch_throws
    (this : FraudDetector Model) :
  (∃ error, (train this []).2 = inl error)
  ∧ model (train this []).1 = model this
  ∧ scaler (train this []).1 = scaler this.
Proof.
  unfold trainModel, rethrow.
  change (features_of []) with (Some (@nil (list float))). simpl.
  destruct (tf_tensor2d []); [by eauto|].
  destruct (tf_tensor2d_column []); by eauto.
Qed.

(** The scaler after training on a batch whose features exist. *)
Lemma trainModel_scaler this txs row0 rest :
  features_of txs = Some (row0 :: rest) →
  scaler (train this txs).1
  = scaler (normalizeFeatures this (row0 :: rest)).1.
Proof.
  intros Hf. unfold trainModel, rethrow. rewrite Hf.
  rewrite !normalizeFeatures_cons. cbv zeta. cbn [fst snd scaler].
  set (normalized := scale_row _ _ <$> _).
  assert (∃ o orest, normalized = o :: orest) as (o & orest & Hn)
    by (unfold normalized; csimpl; eauto).
  destruct (tf_tensor2d normalized); [done|].
  destruct (tf_tensor2d_column _); [done|]. rewrite Hn.
  destruct (tf_sequential _) as [|m]; [done|].
  destruct (tf_compile_fit m _ _) as [m' [e|]]; [done|].
  destruct (predict_with _ _) as [|predictions]; [done|].
  by destruct (calculateMetrics _ _).
Qed.

(** X11: feature extraction comes first in training.  When it throws (an
    id of the batch is the name of an inherited member), training rethrows
    the [TypeError] and the detector keeps the scaler and the model it had.
    When it returns the features of a non-empty batch, training replaces
    the scaler by the one fit on those features even when it throws
    afterwards; and when the backend then fails to create the feature
    tensor, the detector is left with the new scaler and its old model. *)
Theorem trainModel_replaces_the_scaler_once_the_features_exist
    (this : FraudDetector Model) (txs : list Transaction) :
  (features_of txs = None
   ↔ ∃ t, t ∈ txs ∧ (CUSTOMER_ID t ∈ Object_prototype_names
                      ∨ TERMINAL_ID t ∈ Object_prototype_names))
  ∧ (features_of txs = None →
     (train this txs).2 = inl Thrown_TypeError
     ∧ scaler (train this txs).1 = scaler this
     ∧ model (train this txs).1 = model this)
  ∧ ∀ features, features_of txs = Some features → txs ≠ [] →
      is_Some (scaler (train this txs).1)
      ∧ scaler (train this txs).1
        = scaler (normalizeFeatures this features).1
      ∧ ∀ e, tf_tensor2d (normalizeFeatures this features).2 = inl e →
          (train this txs).2 = inl (Thrown_Error e)
          ∧ model (train this txs).1 = model this.
Proof.
  split; [apply None_iff_inherited_either, extractFeatures_is_Some|]. split.
  - intros Hf. unfold trainModel, rethrow. by rewrite Hf.
  - intros features Hf Hne.
    destruct (features_nonempty txs features Hf Hne) as (row0 & rest & ->).
    rewrite (trainModel_scaler this txs row0 rest Hf).
    split; [by rewrite normalizeFeatures_cons|]. split; [done|].
    intros e He. unfold trainModel, rethrow. rewrite Hf.
    rewrite normalizeFeatures_cons in He |- *. cbv zeta in He |- *.
    cbn [snd] in He. by rewrite He.
Qed.

(** What holds of the detector when training has returned metrics. *)
Lemma trainModel_inr this this' txs metrics :
  train this txs = (this', inr metrics) →
  txs ≠ []
  ∧ is_Some (model this')
  ∧ (∃ features, features_of txs = Some features
       ∧ scaler this' = scaler (normalizeFeatures this features).1)
  ∧ is_Some (scaler this')
  ∧ isTraining this' = false
  ∧ ∃ predictions,
      predict_with this' txs = inr predictions
      ∧ calculateMetrics txs predictions = Some metrics.
Proof.
  unfold trainModel, rethrow.
  destruct (features_of txs) as [[|row0 rest]|] eqn:Hf; [| |done].
  { simpl. destruct (tf_tensor2d []); [done|].
    by destruct (tf_tensor2d_column _). }
  rewrite !normalizeFeatures_cons. cbv zeta. cbn [fst snd scaler].
  set (normalized := scale_row _ _ <$> _).
  assert (∃ o orest, normalized = o :: orest) as (o & orest & Hn)
    by (unfold normalized; csimpl; eauto).
  destruct (tf_tensor2d normalized); [done|].
  destruct (tf_tensor2d_column _); [done|]. rewrite Hn.
  destruct (tf_sequential _) as [|m]; [done|].
  destruct (tf_compile_fit m _ _) as [m' [e|]]; [done|].
  destruct (predict_with _ _) as [|predictions] eqn:Hp; [done|].
  destruct (calculateMetrics _ _) as [metrics'|] eqn:Hm; [|done].
  intros [= <- <-].
  split. { intros ->. discriminate. }
  split; [done|]. split; [by eexists|]. split; [done|]. split; [done|].
  exists predictions. by rewrite predict_ignores_isTraining.
Qed.

(** X12: when training returns metrics, the batch was not empty, the
    detector holds a model and the scaler fit on the batch, the metrics are
    those of the detector's own predictions for the training batch, and, if
    every ground-truth label is 0 or 1, the cells of the confusion matrix add
    up to the size of the batch. *)
Theorem trainModel_metrics_are_those_of_its_own_predictions
    (this this' : FraudDetector Model) (txs : list Transaction)
    (metrics : ModelMetrics) :
  train this txs = (this', inr metrics) →
  txs ≠ []
  ∧ is_Some (model this')
  ∧ (∃ features, features_of txs = Some features
       ∧ scaler this' = scaler (normalizeFeatures this features).1)
  ∧ is_Some (scaler this')
  ∧ (∃ predictions,
       predict_with this' txs = inr predictions
       ∧ calculateMetrics txs predictions = Some metrics)
  ∧ (Forall (λ a, is_binary (TX_FRAUD a) = true) txs →
     ∃ tn fp fn tp : nat,
       confusion_matrix metrics = [[tn; fp]; [fn; tp]]
       ∧ tn + fp + fn + tp = length txs).
Proof.
  intros (Hne & Hmodel & Hscaler & Hsome & _ & predictions & Hp & Hm)%trainModel_inr.
  split; [done|]. split; [done|]. split; [done|]. split; [done|]. split.
  - by exists predictions.
  - intros Hbin. apply predict_output_binary in Hp as [Hlen Hpred].
    unfold calculateMetrics in Hm.
    destruct (count_loop_total txs predictions
                {| tp := 0; fp := 0; tn := 0; fn := 0 |})
      as (c & Hc & Htot); [done | done | done |].
    rewrite Hc in Hm. injection Hm as <-.
    exists (tn c), (fp c), (fn c), (tp c). split; [done | exact Htot].
Qed.

End PredictShape.

(** ** [DataAnalyzer]: the fraud summary and the terminal report *)

(** A number that is [===] to a finite non-zero number is that number. *)
Lemma eqb_finite x k s m e :
  Prim2SF k = S754_finite s m e → (x =? k)%float = true → x = k.
Proof.
  intros Hk. rewrite FloatAxioms.eqb_spec, Hk. intros H.
  apply Prim2SF_inj. rewrite Hk. unfold SFeqb, SFcompare in H.
  destruct (Prim2SF x) as [[]|[]| |[] mx ex], s; simpl in H; try discriminate.
  all: destruct (Z.compare_spec ex e); try discriminate; subst.
  all: change (Pos.compare_cont Eq mx m) with (Pos.compare mx m) in H.
  all: destruct (Pos.compare_spec mx m); try discriminate; by subst.
Qed.

Lemma scenario_tags_exclusive (v : option float) :
  (JS.strict_eq v 1 = true → JS.strict_eq v 2 = false ∧ JS.strict_eq v 3 = false)
  ∧ (JS.strict_eq v 2 = true → JS.strict_eq v 3 = false).
Proof.
  destruct v as [x|]; [|done]. simpl. split.
  - by intros ->%FloatFacts.eqb_one.
  - by intros ->%(eqb_finite x 2 false 4503599627370496 (-51) eq_refl).
Qed.

Lemma scenario_rows_le_fraud_rows txs :
  length (scenario_rows 1 txs) + length (scenario_rows 2 txs)
  + length (scenario_rows 3 txs)
  ≤ length (fraud_rows txs).
Proof.
  unfold scenario_rows, fraud_rows.
  induction txs as [|t txs IH]; [done|]. rewrite !filter_cons.
  destruct (scenario_tags_exclusive (TX_FRAUD_SCENARIO t)) as [H12 H23].
  destruct (JS.strict_eq (TX_FRAUD t) 1); simpl.
  2:{ repeat case_decide; try done; simpl; lia. }
  destruct (JS.strict_eq (TX_FRAUD_SCENARIO t) 1) eqn:H1.
  { destruct (H12 eq_refl) as [-> ->].
    repeat case_decide; try done; simpl; lia. }
  destruct (JS.strict_eq (TX_FRAUD_SCENARIO t) 2) eqn:H2.
  { rewrite (H23 eq_refl). repeat case_decide; try done; simpl; lia. }
  repeat case_decide; try done; simpl; lia.
Qed.

(** X13: in the fraud summary the total is the size of the batch, the
    fraud count is at most the total, and the three scenario counts
    together are at most the fraud count (a row has one scenario tag).  The
    average fraud amount is guarded: it is 0 when no row is fraudulent.
    The fraud rate and the average amount are not: on the empty batch both
    are [0 / 0], which is [NaN]. *)
Theorem analyzeFraudStats_counts_and_guards (txs : list Transaction) :
  let s := analyzeFraudStats txs in
  let b := FraudStats.scenarioBreakdown s in
  FraudStats.totalTransactions s = length txs
  ∧ FraudStats.fraudulentTransactions s ≤ FraudStats.totalTransactions s
  ∧ FraudStats.scenario1 b + FraudStats.scenario2 b + FraudStats.scenario3 b
    ≤ FraudStats.fraudulentTransactions s
  ∧ (FraudStats.fraudulentTransactions s = 0 →
     FraudStats.averageFraudAmount s = 0%float)
  ∧ (0 < FraudStats.fraudulentTransactions s →
     FraudStats.averageFraudAmount s
     = arithmetic_mean (TX_AMOUNT <$> fraud_rows txs))
  ∧ (txs = [] →
     is_nan (FraudStats.fraudRate s) = true
     ∧ is_nan (FraudStats.averageAmount s) = true).
Proof.
  cbv zeta. unfold analyzeFraudStats. simpl.
  split; [done|]. split; [apply length_filter|].
  split; [apply scenario_rows_le_fraud_rows|].
  rewrite length_fmap. split; [|split].
  - intros ->. by rewrite decide_False by lia.
  - intros H. by rewrite decide_True, <- (length_fmap TX_AMOUNT) by done.
  - by intros ->.
Qed.

Lemma insert_desc_Permutation {A : Type} (rate : A → float) a (l : list A) :
  insert_desc rate a l ≡ₚ a :: l.
Proof.
  induction l as [|b l IH]; simpl; [done|].
  destruct (JS.gt _ _); [|done]. rewrite IH. apply Permutation_swap.
Qed.

Lemma sort_desc_Permutation {A : Type} (rate : A → float) (l : list A) :
  sort_desc rate l ≡ₚ l.
Proof.
  induction l as [|a l IH]; simpl; [done|].
  by rewrite insert_desc_Permutation, IH.
Qed.

Lemma analyzeTerminalStats_Permutation txs entries :
  analyzeTerminalStats txs = Some entries →
  ∃ d, groupBy TERMINAL_ID txs = Some d
       ∧ entries ≡ₚ terminalReport_of <$> d.
Proof.
  intros (d & Hd & [= <-])%bind_Some. exists d. split; [done|].
  by rewrite sort_desc_Permutation, Object_entries_Permutation.
Qed.

Lemma analyzeTerminalStats_is_Some txs :
  is_Some (analyzeTerminalStats txs) ↔ plain_keys TERMINAL_ID txs.
Proof.
  rewrite <- groupBy_is_Some. unfold analyzeTerminalStats.
  destruct (groupBy TERMINAL_ID txs); simpl; split; intros [? ?]; by eauto.
Qed.

Lemma terminalId_terminalReport_of (d : list (string * list Transaction)) :
  TerminalReport.terminalId <$> (terminalReport_of <$> d) = d.*1.
Proof. rewrite <- list_fmap_compose. apply list_fmap_ext. by intros _ [k g] _. Qed.

(** X14: the terminal report throws exactly when a terminal id of the batch
    is the name of an inherited member.  When it returns, it has one entry
    per distinct terminal id of the batch; an entry holds the number of the
    terminal's rows (at least one), the number of those labelled exactly 1
    (at most the former), their ratio as fraud rate, the arithmetic mean of
    the amounts, and it is flagged suspicious exactly when the fraud rate
    is above 0.3. *)
Theorem analyzeTerminalStats_one_entry_per_terminal (txs : list Transaction) :
  (analyzeTerminalStats txs = None
   ↔ ∃ t, t ∈ txs ∧ TERMINAL_ID t ∈ Object_prototype_names)
  ∧ ∀ entries, analyzeTerminalStats txs = Some entries →
      NoDup (TerminalReport.terminalId <$> entries)
      ∧ (∀ k, k ∈ TerminalReport.terminalId <$> entries
              ↔ k ∈ TERMINAL_ID <$> txs)
      ∧ ∀ e, e ∈ entries →
          let rows := rows_of TERMINAL_ID (TerminalReport.terminalId e) txs in
          TerminalReport.totalTransactions e = length rows
          ∧ 1 ≤ TerminalReport.totalTransactions e
          ∧ TerminalReport.fraudTransactions e = length (fraud_rows rows)
          ∧ TerminalReport.fraudTransactions e
            ≤ TerminalReport.totalTransactions e
          ∧ TerminalReport.fraudRate e
            = (JS.of_length (TerminalReport.fraudTransactions e)
               / JS.of_length (TerminalReport.totalTransactions e))%float
          ∧ TerminalReport.averageAmount e
            = arithmetic_mean (TX_AMOUNT <$> rows)
          ∧ TerminalReport.suspiciousActivity e
            = JS.gt (TerminalReport.fraudRate e) 0x1.3333333333333p-2.
Proof.
  split; [apply None_iff_inherited, analyzeTerminalStats_is_Some|].
  intros entries (d & Hd & Hp)%analyzeTerminalStats_Permutation.
  cbv zeta. split; [|split].
  - rewrite Hp, terminalId_terminalReport_of. by eapply groupBy_NoDup.
  - intros k. rewrite Hp, terminalId_terminalReport_of, id_in_batch.
    rewrite list_elem_of_fmap. split.
    + intros ([k' g] & -> & Hin).
      by apply (groupBy_elem _ _ _ _ _ Hd) in Hin as [-> Hne].
    + intros Hne. exists (k, rows_of TERMINAL_ID k txs). split; [done|].
      by apply (groupBy_elem _ _ _ _ _ Hd).
  - intros e. rewrite Hp, list_elem_of_fmap.
    intros ([k g] & -> & Hin).
    apply (groupBy_elem _ _ _ _ _ Hd) in Hin as [-> Hne]. simpl.
    split; [done|]. split.
    { destruct (rows_of TERMINAL_ID k txs); [done | simpl; lia]. }
    split; [done|]. split; [apply length_filter|]. done.
Qed.

Lemma fraud_rows_weight txs :
  length (fraud_rows txs)
  = weigh (λ t, if decide (JS.strict_eq (TX_FRAUD t) 1 = true) then 1 else 0) txs.
Proof. symmetry. apply (weigh_filter (λ t, JS.strict_eq (TX_FRAUD t) 1 = true)). Qed.

Lemma groups_sum (f : string * list Transaction → nat) w key txs d :
  groupBy key txs = Some d →
  (∀ kv, f kv = weigh w kv.2) →
  sum_list_with f d = weigh w txs.
Proof.
  intros Hd Hf. rewrite <- (groupBy_weight key w txs d Hd). unfold groups_weight.
  apply sum_list_with_ext. intros kv _. apply Hf.
Qed.

(** X15: each report returns exactly on the batches without an inherited
    name among its keys, and a report that is returned agrees with the
    summary: the totals of the terminal entries add up to the total of the
    summary and their fraud counts to its fraud count, and likewise for
    the customer entries. *)
Theorem reports_add_up_to_the_summary (txs : list Transaction) :
  let s := analyzeFraudStats txs in
  (is_Some (analyzeTerminalStats txs) ↔ plain_keys TERMINAL_ID txs)
  ∧ (is_Some (DataAnalyzer.analyzeCustomerStats txs)
     ↔ plain_keys CUSTOMER_ID txs)
  ∧ (∀ entries, analyzeTerminalStats txs = Some entries →
       sum_list_with TerminalReport.totalTransactions entries
       = FraudStats.totalTransactions s
       ∧ sum_list_with TerminalReport.fraudTransactions entries
         = FraudStats.fraudulentTransactions s)
  ∧ (∀ entries, DataAnalyzer.analyzeCustomerStats txs = Some entries →
       sum_list_with DataAnalyzer.totalTransactions entries
       = FraudStats.totalTransactions s
       ∧ sum_list_with DataAnalyzer.fraudTransactions entries
         = FraudStats.fraudulentTransactions s).
Proof.
  cbv zeta. simpl.
  split; [apply analyzeTerminalStats_is_Some|].
  split; [apply analyzeCustomerStats_is_Some|]. split.
  - intros entries (d & Hd & Hp)%analyzeTerminalStats_Permutation.
    rewrite Hp, !sum_list_with_fmap, (fraud_rows_weight txs), <- (weigh_length txs).
    split; apply (groups_sum _ _ _ _ _ Hd); intros [k g]; simpl;
      by rewrite ?weigh_length, ?fraud_rows_weight.
  - intros entries (d & Hd & Hp)%analyzeCustomerStats_Permutation.
    rewrite Hp, !sum_list_with_fmap, (fraud_rows_weight txs), <- (weigh_length txs).
    split; apply (groups_sum _ _ _ _ _ Hd); intros [k g]; simpl;
      by rewrite ?weigh_length, ?fraud_rows_weight.
Qed.

(** ** [DataAnalyzer]: the time range and the anomalies *)

Lemma filter_none {A : Type} (P : A → Prop) `{!∀ x, Decision (P x)} (l : list A) :
  (∀ x, x ∈ l → ¬ P x) → filter P l = [].
Proof.
  induction l as [|x l IH]; intros Hall; [done|].
  rewrite filter_cons_False by (apply Hall; left).
  apply IH. intros y Hy. apply Hall. by right.
Qed.

(** X16: the time-range query returns, in batch order, exactly the rows
    whose day lies between the two bounds (both included); asking again
    with the same bounds changes nothing; and it returns nothing when a
    bound is [NaN] or when the end lies before the start. *)
Theorem getTransactionsByTimeRange_selects_the_days_in_range
    (txs : list Transaction) (startDay endDay : float) :
  let out := getTransactionsByTimeRange txs startDay endDay in
  sublist out txs
  ∧ (∀ t, t ∈ out ↔
       t ∈ txs ∧ (startDay <=? TX_TIME_DAYS t)%float = true
       ∧ (TX_TIME_DAYS t <=? endDay)%float = true)
  ∧ getTransactionsByTimeRange out startDay endDay = out
  ∧ (is_nan startDay = true ∨ is_nan endDay = true
     ∨ (endDay <? startDay)%float = true →
     out = []).
Proof.
  cbv zeta. unfold getTransactionsByTimeRange, js_ge, js_le.
  split; [apply sublist_filter|]. split; [|split].
  - intros t. rewrite list_elem_of_filter, andb_true_iff. tauto.
  - rewrite list_filter_filter. apply list_filter_iff. tauto.
  - intros H. apply filter_none. intros t _.
    rewrite andb_true_iff. intros [Hs He].
    destruct H as [H | [H | H]].
    + by rewrite (FloatOrder.leb_NaN_l startDay H) in Hs.
    + by rewrite (FloatOrder.leb_NaN_r endDay H) in He.
    + pose proof (FloatOrder.leb_trans _ _ _ Hs He) as Hse.
      apply FloatOrder.leb_not_ltb in Hse. congruence.
Qed.

Lemma Map_of_snoc {A : Type} (key : A → string) (l : list A) e :
  Map_of key (l ++ [e]) = <[key e := e]> (Map_of key l).
Proof. unfold Map_of. by rewrite foldl_snoc. Qed.

(** An entry of a list without repeated keys is found under its key. *)
Lemma Map_of_lookup {A : Type} (key : A → string) (l : list A) e :
  NoDup (key <$> l) → e ∈ l → Map_of key l !! key e = Some e.
Proof.
  induction l as [|x l IH] using rev_ind; intros Hnd Hin.
  { by apply elem_of_nil in Hin. }
  rewrite Map_of_snoc. rewrite fmap_app in Hnd.
  apply NoDup_app in Hnd as (Hnd & Hx & _).
  apply elem_of_app in Hin as [Hin | ->%list_elem_of_singleton].
  - rewrite lookup_insert_ne; [by apply IH|].
    intros Heq. apply (Hx (key e)).
    + apply list_elem_of_fmap. eauto.
    + rewrite <- Heq. apply list_elem_of_fmap. exists x. split; [done|by left].
  - apply lookup_insert_eq.
Qed.

Lemma customerMap_lookup txs entries i t :
  DataAnalyzer.analyzeCustomerStats txs = Some entries →
  txs !! i = Some t →
  Map_of DataAnalyzer.customerId entries !! CUSTOMER_ID t
  = Some (DataAnalyzer.customerStats_of
            (CUSTOMER_ID t, rows_of CUSTOMER_ID (CUSTOMER_ID t) txs)).
Proof.
  intros (d & Hd & Hp)%analyzeCustomerStats_Permutation Hi.
  apply (Map_of_lookup DataAnalyzer.customerId _
           (DataAnalyzer.customerStats_of
              (CUSTOMER_ID t, rows_of CUSTOMER_ID (CUSTOMER_ID t) txs))).
  - rewrite Hp, customerId_customerStats_of. by eapply groupBy_NoDup.
  - rewrite Hp. apply list_elem_of_fmap.
    eexists. split; [done|]. apply (groupBy_elem _ _ _ _ _ Hd). split; [done|].
    intros Hnil. pose proof (rows_of_lookup CUSTOMER_ID txs i t Hi) as Hin.
    rewrite Hnil in Hin. by apply elem_of_nil in Hin.
Qed.

Lemma terminalMap_lookup txs entries i t :
  analyzeTerminalStats txs = Some entries →
  txs !! i = Some t →
  Map_of TerminalReport.terminalId entries !! TERMINAL_ID t
  = Some (terminalReport_of
            (TERMINAL_ID t, rows_of TERMINAL_ID (TERMINAL_ID t) txs)).
Proof.
  intros (d & Hd & Hp)%analyzeTerminalStats_Permutation Hi.
  apply (Map_of_lookup TerminalReport.terminalId _
           (terminalReport_of
              (TERMINAL_ID t, rows_of TERMINAL_ID (TERMINAL_ID t) txs))).
  - rewrite Hp, terminalId_terminalReport_of. by eapply groupBy_NoDup.
  - rewrite Hp. apply list_elem_of_fmap.
    eexists. split; [done|]. apply (groupBy_elem _ _ _ _ _ Hd). split; [done|].
    intros Hnil. pose proof (rows_of_lookup TERMINAL_ID txs i t Hi) as Hin.
    rewrite Hnil in Hin. by apply elem_of_nil in Hin.
Qed.

Lemma detectAnomalies_Some txs anomalies :
  detectAnomalies txs = Some anomalies
  ↔ ∃ customerStats terminalStats,
      DataAnalyzer.analyzeCustomerStats txs = Some customerStats
      ∧ analyzeTerminalStats txs = Some terminalStats
      ∧ anomalies
        = filter (λ t, is_anomaly
                         (Map_of DataAnalyzer.customerId customerStats)
                         (Map_of TerminalReport.terminalId terminalStats) t
                       = true) txs.
Proof.
  unfold detectAnomalies. split.
  - intros (cs & Hcs & (ts & Hts & [= <-])%bind_Some)%bind_Some. eauto.
  - intros (cs & ts & Hcs & Hts & ->). by rewrite Hcs, Hts.
Qed.

Lemma detectAnomalies_is_Some txs :
  is_Some (detectAnomalies txs)
  ↔ plain_keys CUSTOMER_ID txs ∧ plain_keys TERMINAL_ID txs.
Proof.
  rewrite <- analyzeCustomerStats_is_Some, <- analyzeTerminalStats_is_Some.
  split.
  - intros [out (cs & ts & Hcs & Hts & _)%detectAnomalies_Some].
    split; by eexists.
  - intros [[cs Hcs] [ts Hts]]. eexists.
    apply detectAnomalies_Some. eauto.
Qed.

(** A fraud rate above one half is above three tenths. *)
Lemma above_half_is_suspicious r :
  JS.gt r 0.5 = true → JS.gt r 0x1.3333333333333p-2 = true.
Proof.
  unfold JS.gt. intros H.
  by apply (FloatOrder.ltb_trans 0x1.3333333333333p-2 0.5 r).
Qed.

(** X17: the anomaly filter throws exactly when a customer or terminal id
    of the batch is the name of an inherited member, the batches on which
    the rule-based classifier throws.  When it returns, it returns rows of
    the batch in batch order, it keeps every row whose amount is above
    220, and it keeps every row that the rule-based classifier labels as
    fraud on the same batch. *)
Theorem detectAnomalies_keeps_the_rule_based_frauds (txs : list Transaction) :
  (detectAnomalies txs = None
   ↔ ∃ t, t ∈ txs ∧ (CUSTOMER_ID t ∈ Object_prototype_names
                      ∨ TERMINAL_ID t ∈ Object_prototype_names))
  ∧ (detectAnomalies txs = None ↔ detectFraudRuleBased txs = None)
  ∧ ∀ anomalies, detectAnomalies txs = Some anomalies →
      sublist anomalies txs
      ∧ (∀ t, t ∈ txs → JS.gt (TX_AMOUNT t) 220 = true → t ∈ anomalies)
      ∧ ∃ out, detectFraudRuleBased txs = Some out
          ∧ ∀ i t r,
              txs !! i = Some t →
              out !! i = Some r →
              predicted_fraud r = Some 1%float →
              t ∈ anomalies.
Proof.
  split; [apply None_iff_inherited_either, detectAnomalies_is_Some|].
  split.
  { rewrite !eq_None_not_Some, detectAnomalies_is_Some.
    by rewrite detectFraudRuleBased_is_Some. }
  intros anomalies Hsome.
  destruct (proj1 (detectAnomalies_is_Some txs) ltac:(by eexists)) as [Hpc Hpt].
  destruct (proj2 (detectFraudRuleBased_is_Some txs) (conj Hpc Hpt)) as [out Hout].
  apply detectAnomalies_Some in Hsome as (customers & terminals & Hcr & Htr & ->).
  split; [apply sublist_filter|]. split.
  - intros t Hin Hhigh. apply list_elem_of_filter. split; [|done].
    unfold is_anomaly. by rewrite Hhigh.
  - exists out. split; [done|].
    apply detectFraudRuleBased_Some in Hout as (cmap & tmap & Hcm & Htm & ->).
    intros i t r Hi Hr Hfraud. apply list_elem_of_filter.
    split; [|by eapply list_elem_of_lookup_2].
    rewrite list_lookup_fmap, Hi in Hr. injection Hr as <-.
    unfold is_anomaly. rewrite (customerMap_lookup txs _ i t Hcr Hi).
    rewrite (terminalMap_lookup txs _ i t Htr Hi). cbn [from_option].
    destruct (own_customer_present txs _ i t Hcm Hi) as (cs & Hcs & -> & _).
    destruct (own_terminal_present txs _ i t Htm Hi) as (ts & Hts & -> & _).
    unfold rule_row in Hfraud. rewrite Hcs, Hts in Hfraud.
    destruct (JS.gt (TX_AMOUNT t) 220); [done|].
    unfold terminal_flagged, amount_spike in Hfraud.
    destruct (JS.gt (TerminalStat.fraudRate _) 0.5) eqn:Hrate.
    { apply above_half_is_suspicious in Hrate.
      simpl in Hrate |- *. by rewrite Hrate. }
    destruct (JS.gt (TX_AMOUNT t) (CustomerStat.avgAmount _ * 3)) eqn:Hspike;
      [|done].
    simpl in Hspike |- *. rewrite Hspike. by rewrite !orb_true_r.
Qed.

(** ** The reports are sorted *)

Lemma insert_desc_sorted {A : Type} (rate : A → float) a (l : list A) :
  is_nan (rate a) = false → Forall (λ x, is_nan (rate x) = false) l →
  StronglySorted (descending rate) l →
  StronglySorted (descending rate) (insert_desc rate a l).
Proof.
  intros Ha Hl Hs. induction l as [|b l IH]; simpl.
  { repeat constructor. }
  apply Forall_cons in Hl as [Hb Hl].
  apply StronglySorted_inv in Hs as [Hs Hbl].
  destruct (JS.gt (rate b - rate a) 0) eqn:Hgt.
  - constructor; [by apply IH|].
    rewrite insert_desc_Permutation. constructor; [|done].
    by apply FloatSub.sub_pos_leb.
  - pose proof (FloatSub.sub_not_pos_leb _ _ Ha Hb Hgt) as Hba.
    constructor; [by constructor|]. constructor; [done|].
    eapply Forall_impl; [exact Hbl|]. intros x Hx. unfold descending in *.
    by eapply FloatOrder.leb_trans.
Qed.

Lemma sort_desc_sorted {A : Type} (rate : A → float) (l : list A) :
  Forall (λ x, is_nan (rate x) = false) l →
  StronglySorted (descending rate) (sort_desc rate l).
Proof.
  induction l as [|a l IH]; simpl; intros Hl; [constructor|].
  apply Forall_cons in Hl as [Ha Hl].
  apply insert_desc_sorted; [done| |by apply IH].
  by rewrite sort_desc_Permutation.
Qed.

Lemma sort_by_rate_sort_desc l :
  DataAnalyzer.sort_by_rate l = sort_desc DataAnalyzer.fraudRate l.
Proof.
  assert (∀ a s, DataAnalyzer.insert_by_rate a s
                 = insert_desc DataAnalyzer.fraudRate a s) as Hins.
  { intros a s. induction s as [|b s IH]; simpl; [done|]. by rewrite IH. }
  induction l as [|a l IH]; simpl; [done|]. by rewrite Hins, IH.
Qed.

Lemma StronglySorted_lookup {A : Type} (R : relation A) (l : list A) i j a b :
  StronglySorted R l → i < j → l !! i = Some a → l !! j = Some b → R a b.
Proof.
  intros Hs. revert i j. induction Hs as [|x l Hs IH Hx]; intros i j Hij Hi Hj.
  { done. }
  destruct j as [|j]; [lia|]. simpl in Hj. destruct i as [|i].
  - simpl in Hi. injection Hi as ->.
    eapply Forall_forall; [exact Hx|]. by eapply list_elem_of_lookup_2.
  - simpl in Hi. apply (IH i j); [lia|done..].
Qed.

(** The fraud rate of a group of the batch is not [NaN]. *)
Lemma group_rate_not_nan key txs d k g :
  (Z.of_nat (length txs) < 2 ^ 32)%Z →
  groupBy key txs = Some d → (k, g) ∈ d →
  is_nan (JS.of_length (length (fraud_rows g)) / JS.of_length (length g))
  = false.
Proof.
  intros Hlen Hd Hin. apply (groupBy_elem _ _ _ _ _ Hd) in Hin as [-> Hne].
  pose proof (length_filter (λ t, key t = k) txs) as Hrows.
  pose proof (length_filter (λ t, JS.strict_eq (TX_FRAUD t) 1 = true)
                (rows_of key k txs)) as Hfraud.
  fold (rows_of key k txs) in Hrows. fold (fraud_rows (rows_of key k txs)) in Hfraud.
  apply FloatSub.div_of_length_not_nan; [lia| |lia].
  destruct (rows_of key k txs); [done|simpl; lia].
Qed.

(** A terminal report that is returned is sorted, and its flagged entries
    come first. *)
Lemma analyzeTerminalStats_sorted txs terminals :
  (Z.of_nat (length txs) < 2 ^ 32)%Z →
  analyzeTerminalStats txs = Some terminals →
  StronglySorted (descending TerminalReport.fraudRate) terminals
  ∧ ∀ i j a b,
      i < j →
      terminals !! i = Some a →
      terminals !! j = Some b →
      TerminalReport.suspiciousActivity b = true →
      TerminalReport.suspiciousActivity a = true.
Proof.
  intros Hlen Hsome.
  destruct (analyzeTerminalStats_Permutation txs terminals Hsome)
    as (d' & Hd' & Hp).
  apply bind_Some in Hsome as (d & Hd & [= <-]).
  assert (StronglySorted (descending TerminalReport.fraudRate)
            (sort_desc TerminalReport.fraudRate
               (terminalReport_of <$> Object_entries d))) as Hterminals.
  { apply sort_desc_sorted. rewrite Object_entries_Permutation.
    apply Forall_fmap, Forall_forall. intros [k g] Hin.
    by apply (group_rate_not_nan TERMINAL_ID txs d k g). }
  split; [exact Hterminals|].
  intros i j a b Hij Hi Hj Hb.
  pose proof (StronglySorted_lookup _ _ i j a b Hterminals Hij Hi Hj) as Hab.
  assert (a ∈ terminalReport_of <$> d') as Ha.
  { rewrite <- Hp. by eapply list_elem_of_lookup_2. }
  assert (b ∈ terminalReport_of <$> d') as Hb'.
  { rewrite <- Hp. by eapply list_elem_of_lookup_2. }
  apply list_elem_of_fmap in Ha as ([ka ga] & -> & _).
  apply list_elem_of_fmap in Hb' as ([kb gb] & -> & _).
  unfold descending in Hab. simpl in *. unfold JS.gt in *.
  by eapply FloatSub.ltb_leb_trans.
Qed.

(** X18: a report that is returned is in descending order of fraud rate:
    no entry has a lower rate than an entry after it; so the terminals
    flagged as suspicious come first in the terminal report. *)
Theorem reports_are_sorted_by_descending_fraud_rate (txs : list Transaction) :
  (Z.of_nat (length txs) < 2 ^ 32)%Z →
  (∀ terminals, analyzeTerminalStats txs = Some terminals →
     StronglySorted (descending TerminalReport.fraudRate) terminals
     ∧ ∀ i j a b,
         i < j →
         terminals !! i = Some a →
         terminals !! j = Some b →
         TerminalReport.suspiciousActivity b = true →
         TerminalReport.suspiciousActivity a = true)
  ∧ (∀ customers, DataAnalyzer.analyzeCustomerStats txs = Some customers →
       StronglySorted (descending DataAnalyzer.fraudRate) customers).
Proof.
  intros Hlen. split.
  - intros terminals. by apply analyzeTerminalStats_sorted.
  - intros customers (d & Hd & [= <-])%bind_Some.
    rewrite sort_by_rate_sort_desc.
    apply sort_desc_sorted. rewrite Object_entries_Permutation.
    apply Forall_fmap, Forall_forall. intros [k g] Hin.
    by apply (group_rate_not_nan CUSTOMER_ID txs d k g).
Qed.

(** ** The scoring handlers of [App] *)

Lemma rows_of_singleton key (t : Transaction) : rows_of key (key t) [t] = [t].
Proof. unfold rows_of. by rewrite filter_cons_True, filter_nil. Qed.

(** The statistics of a batch of one transaction. *)
Lemma singleton_stats t customerStats terminalStats :
  calculateCustomerStats [t] = Some customerStats →
  calculateTerminalStats [t] = Some terminalStats →
  customerStats !! CUSTOMER_ID t = Some (customerStat_of [t])
  ∧ terminalStats !! TERMINAL_ID t = Some (terminalStat_of [t]).
Proof.
  intros Hcs Hts.
  rewrite (calculateCustomerStats_lookup [t] _ _ Hcs).
  rewrite (calculateTerminalStats_lookup [t] _ _ Hts).
  by rewrite !rows_of_singleton.
Qed.

Section AppHandlers.

Variables Math_sin Math_cos : float -> float.
Variable js_rem : float -> float -> float.
Variable Model : Type.
Variable tf_predict : Model -> list (list float) -> string + list float.
Variable Tensor : Type.
Variable tf_tensor2d : list (list float) -> string + Tensor.
Variable tf_tensor2d_column : list (option float) -> string + Tensor.
Variable tf_sequential : nat -> string + Model.
Variable tf_compile_fit : Model -> Tensor -> Tensor -> Model * option string.

Local Abbreviation app_train :=
  (trainModel Math_sin Math_cos js_rem Model tf_predict Tensor
     tf_tensor2d tf_tensor2d_column tf_sequential tf_compile_fit).
Local Abbreviation app_predict :=
  (predict Math_sin Math_cos js_rem Model tf_predict).
Local Abbreviation onModelTrain :=
  (App.handleModelTrain Math_sin Math_cos js_rem Model tf_predict Tensor
     tf_tensor2d tf_tensor2d_column tf_sequential tf_compile_fit).
Local Abbreviation onPredict :=
  (App.handleSinglePrediction Math_sin Math_cos js_rem Model tf_predict).


(** X20: the training handler returns what [trainModel] returns and always
    resets its flag.  When that is an error, only the detector may have
    changed.  When it is metrics, the model is marked as trained, the
    metrics are stored, and the stored transactions are the scored rows the
    metrics were computed from: the old transactions with predictions
    added. *)
Theorem handleModelTrain_stores_what_it_scored (app : App.state Model) :
  let app' := (onModelTrain app).1 in
  let trained := app_train (App.fraudDetector app) (App.transactions app) in
  (onModelTrain app).2 = trained.2
  ∧ App.fraudDetector app' = trained.1
  ∧ App.isTraining app' = false
  ∧ (∀ error, trained.2 = inl error →
       App.transactions app' = App.transactions app
       ∧ App.modelMetrics app' = App.modelMetrics app
       ∧ App.isModelTrained app' = App.isModelTrained app)
  ∧ (∀ metrics, trained.2 = inr metrics →
       App.isModelTrained app' = true
       ∧ App.modelMetrics app' = Some metrics
       ∧ app_predict (App.fraudDetector app') (App.transactions app)
         = inr (App.transactions app')
       ∧ calculateMetrics (App.transactions app) (App.transactions app')
         = Some metrics
       ∧ Forall2 keeps_input (App.transactions app) (App.transactions app')).
Proof.
  cbv zeta. unfold App.handleModelTrain. simpl.
  destruct (app_train (App.fraudDetector app) (App.transactions app))
    as [detector [error|metrics]] eqn:Htrain; simpl.
  { split; [done|]. split; [done|]. split; [done|]. split; [|done].
    by intros ? _. }
  destruct (trainModel_inr _ _ _ _ _ _ _ _ _ _ _ _ _ _ Htrain)
    as (_ & _ & _ & _ & _ & predictions & Hp & Hm).
  rewrite Hp. simpl.
  split; [done|]. split; [done|]. split; [done|]. split; [done|].
  intros ? [= <-]. split; [done|]. split; [done|]. split; [done|].
  split; [done|].
  apply predict_inr in Hp as (m & s & features & probabilities & _ & _ & _ & _ & ->).
  apply Forall2_same_length_lookup. split; [by rewrite length_imap|].
  intros i t r Hi Hr. rewrite list_lookup_imap, Hi in Hr.
  injection Hr as <-. apply scored_keeps_input.
Qed.

(** X21: before anything is marked as trained, a single prediction is the
    verdict of the rules on the submitted transaction alone.  It throws a
    [TypeError] when the customer or terminal id of the transaction is the
    name of an inherited member.  Otherwise it returns, and reports fraud
    exactly when the amount is above 220, or the submitted label is 1, or
    the amount is above three times [(0 + amount) / 1]; the probability is
    1 or 0 accordingly. *)
Theorem single_prediction_falls_back_to_the_rules
    (app : App.state Model) (t : Transaction) :
  App.isModelTrained app = false →
  (CUSTOMER_ID t ∈ Object_prototype_names
   ∨ TERMINAL_ID t ∈ Object_prototype_names →
   onPredict app t = inl Thrown_TypeError)
  ∧ (CUSTOMER_ID t ∉ Object_prototype_names →
     TERMINAL_ID t ∉ Object_prototype_names →
     ∃ r, onPredict app t = inr r
       ∧ App.isFraud r
         = JS.gt (TX_AMOUNT t) 220
           || JS.strict_eq (TX_FRAUD t) 1
           || JS.gt (TX_AMOUNT t) ((0 + TX_AMOUNT t) / 1 * 3)
       ∧ App.probability r = (if App.isFraud r then 1%float else 0%float)
       ∧ App.scenario r
         = (if App.isFraud r
            then Some (if JS.gt (TX_AMOUNT t) 220
                       then "High Amount (Scenario 1)"%string
                       else "Pattern-based detection"%string)
            else None)).
Proof.
  intros Hno. unfold App.handleSinglePrediction. rewrite Hno. split.
  { intros Hinh.
    assert (detectFraudRuleBased [t] = None) as ->; [|done].
    apply (None_iff_inherited_either _ [t] (detectFraudRuleBased_is_Some [t])).
    exists t. split; [by left | done]. }
  intros Hc Ht.
  destruct (proj2 (detectFraudRuleBased_is_Some [t])) as [out Hout].
  { split; by repeat constructor. }
  rewrite Hout.
  apply detectFraudRuleBased_Some in Hout as (cs & ts & Hcs & Hts & ->).
  destruct (singleton_stats t cs ts Hcs Hts) as [Hcustomer Hterminal].
  cbn [fmap list_fmap lookup list_lookup].
  unfold rule_row. rewrite Hcustomer, Hterminal.
  unfold terminal_flagged, amount_spike.
  destruct (JS.gt (TX_AMOUNT t) 220) eqn:Hhigh.
  { eexists. split; [reflexivity|]. by cbn. }
  assert (JS.gt (TerminalStat.fraudRate (terminalStat_of [t])) 0.5
          = JS.strict_eq (TX_FRAUD t) 1) as ->.
  { unfold terminalStat_of, fraud_rows. cbn [TerminalStat.fraudRate].
    destruct (JS.strict_eq (TX_FRAUD t) 1) eqn:Hl.
    - by rewrite filter_cons_True.
    - rewrite filter_cons_False by (by rewrite Hl). done. }
  destruct (JS.strict_eq (TX_FRAUD t) 1) eqn:Hl.
  { eexists. split; [reflexivity|]. by cbn. }
  change (CustomerStat.avgAmount (customerStat_of [t]))
    with ((0 + TX_AMOUNT t) / 1)%float.
  destruct (JS.gt (TX_AMOUNT t) ((0 + TX_AMOUNT t) / 1 * 3)) eqn:Hspike.
  - eexists. split; [reflexivity|]. by cbn.
  - eexists. split; [reflexivity|]. by cbn.
Qed.

End AppHandlers.

(** ** The parser *)

Lemma split_nonempty sep s : CSV.split sep s ≠ [].
Proof.
  destruct s as [|c rest]; simpl; [done|].
  case_decide; [done|]. by destruct (CSV.split sep rest).
Qed.

Lemma or_else_zero_not_nan x : is_nan (JS.or_else x 0) = false.
Proof.
  unfold JS.or_else, JS.truthy.
  destruct (is_nan x) eqn:Hx; simpl; [done|].
  by destruct (x =? 0)%float.
Qed.

Lemma length_omap_le {A B : Type} (f : A → option B) (l : list A) :
  length (omap f l) ≤ length l.
Proof.
  induction l as [|x l IH]; csimpl; [done|]. destruct (f x); csimpl; lia.
Qed.

Lemma elem_of_omap_inv {A B : Type} (f : A → option B) (l : list A) y :
  y ∈ omap f l → ∃ x, x ∈ l ∧ f x = Some y.
Proof. intros Hy. apply list_elem_of_omap in Hy. naive_solver. Qed.

Section Parser.

Variable trim : string -> string.
Variables parseFloat parseInt : string -> float.

Local Abbreviation parse := (CSV.parseCSV trim parseFloat parseInt).
Local Abbreviation fill_with := (CSV.fill trim parseFloat parseInt).
Local Abbreviation assign_with := (CSV.assign parseFloat parseInt).
Local Abbreviation line_with := (CSV.parse_line trim parseFloat parseInt).

Lemma fill_snoc hs h values :
  fill_with (hs ++ [h]) values
  = assign_with (fill_with hs values) h (trim <$> values !! length hs).
Proof.
  unfold CSV.fill. rewrite imap_app, foldl_app. simpl.
  by rewrite Nat.add_0_r.
Qed.

Lemma assign_filled d hs h v :
  filled hs d → is_Some v → filled (hs ++ [h]) (assign_with d h v).
Proof.
  unfold filled, CSV.assign.
  intros (H1 & H2 & H3 & H4 & H5 & H6 & H7 & H8) Hv.
  repeat split; intros [Hin | <-%list_elem_of_singleton]%elem_of_app;
    repeat case_decide; simpl; try done; eauto.
Qed.

Lemma assign_sound d h v :
  numbers_sound d → numbers_sound (assign_with d h v).
Proof.
  unfold numbers_sound, CSV.assign, CSV.number_or_zero,
    CSV.number_or_undefined.
  intros (H1 & H2 & H3 & H4 & H5).
  repeat case_decide; simpl; repeat split; try done;
    try (intros x [= <-]; apply or_else_zero_not_nan).
  intros x. by destruct (JS.truthy (parseInt _)) eqn:Ht; intros [= <-].
Qed.

Lemma fill_filled hs values :
  length hs ≤ length values → filled hs (fill_with hs values).
Proof.
  induction hs as [|h hs IH] using rev_ind; intros Hlen.
  { unfold filled. by repeat split; intros ?%elem_of_nil. }
  rewrite length_app in Hlen. simpl in Hlen.
  rewrite fill_snoc. apply assign_filled; [apply IH; lia|].
  apply fmap_is_Some, lookup_lt_is_Some. lia.
Qed.

Lemma fill_sound hs values : numbers_sound (fill_with hs values).
Proof.
  induction hs as [|h hs IH] using rev_ind.
  { unfold numbers_sound. by repeat split. }
  rewrite fill_snoc. by apply assign_sound.
Qed.

(** A row made from a header line that names every required column is a
    well-formed transaction. *)
Lemma parse_line_well_formed headers line d :
  Forall (λ h, h ∈ headers) CSV.requiredHeaders →
  line_with headers line = Some d →
  ∃ t, complete d = Some t ∧ well_formed t.
Proof.
  intros Hreq. unfold CSV.parse_line.
  case_decide as Hlen; [done|].
  set (values := CSV.split "," line) in *.
  pose proof (fill_filled headers values ltac:(lia)) as Hfilled.
  pose proof (fill_sound headers values) as Hsound.
  destruct (fill_with headers values) as [id dt cid tid am sec days fr sc].
  unfold filled, numbers_sound in *. simpl in *.
  unfold CSV.requiredHeaders in Hreq. rewrite !Forall_cons in Hreq.
  destruct Hreq as (R1 & R2 & R3 & R4 & R5 & R6 & R7 & R8 & _).
  destruct Hfilled as (F1 & F2 & F3 & F4 & F5 & F6 & F7 & F8).
  destruct (F1 R1) as [id' ->], (F2 R2) as [dt' ->], (F3 R3) as [cid' ->],
    (F4 R4) as [tid' ->], (F5 R5) as [am' ->], (F6 R6) as [sec' ->],
    (F7 R7) as [days' ->], (F8 R8) as [fr' ->].
  destruct Hsound as (S1 & S2 & S3 & S4 & S5).
  unfold CSV.truthy_string.
  destruct (bool_decide (id' ≠ EmptyString)) eqn:Hid; [|done].
  destruct (bool_decide (cid' ≠ EmptyString)) eqn:Hcid; [|done].
  destruct (bool_decide (tid' ≠ EmptyString)) eqn:Htid; [|done].
  apply bool_decide_eq_true in Hid, Hcid, Htid.
  intros [= <-]. eexists. split; [reflexivity|].
  unfold well_formed. simpl. repeat split; eauto.
Qed.

Lemma required_present (headers : list string) :
  filter (λ h, h ∉ headers) CSV.requiredHeaders = [] ↔
  Forall (λ h, h ∈ headers) CSV.requiredHeaders.
Proof.
  split.
  - intros Hnil. apply Forall_forall. intros h Hh.
    destruct (decide (h ∈ headers)) as [|Hout]; [done|].
    by destruct (filter_nil_not_elem_of _ _ h Hnil Hout).
  - intros Hall. apply filter_none. intros h Hh Hout.
    rewrite Forall_forall in Hall. by apply Hout, Hall.
Qed.

(** X22: the parser throws exactly when the trimmed header line lacks a
    required column, and then an [Error] that lists the missing columns
    in the order of the required ones; it never fails otherwise, and it
    returns fewer rows than the content has lines. *)
Theorem parseCSV_throws_exactly_on_missing_columns (content : string) :
  let lines := CSV.split "010" (trim content) in
  let headers := trim <$> CSV.split "," (hd EmptyString lines) in
  let missing := filter (λ h, h ∉ headers) CSV.requiredHeaders in
  (Forall (λ h, h ∈ headers) CSV.requiredHeaders →
   ∃ rows, parse content = inr rows ∧ length rows < length lines)
  ∧ (¬ Forall (λ h, h ∈ headers) CSV.requiredHeaders →
     missing ≠ []
     ∧ parse content
       = inl (Thrown_Error
                ("Missing required columns: " +:+ String.concat ", " missing))).
Proof.
  cbv zeta. unfold CSV.parseCSV.
  pose proof (split_nonempty "010" (trim content)) as Hne.
  destruct (CSV.split "010" (trim content)) as [|line0 rest]; [done|].
  cbn [hd]. rewrite <- required_present.
  set (missing := filter _ CSV.requiredHeaders). split.
  - intros ->. simpl. eexists. split; [reflexivity|].
    pose proof (length_omap_le
                  (line_with (trim <$> CSV.split "," line0)) rest). lia.
  - intros Hmissing. split; [done|].
    rewrite decide_True; [done|]. destruct missing; [done|simpl; lia].
Qed.

(** X23: every row that the parser returns is a complete transaction: its
    eight required fields are set, its three ids are not empty, its amount,
    its two times and its label are numbers other than [NaN] (text that
    does not parse becomes 0, so a label is never missing), its scenario is
    either unset or a number other than 0 and [NaN], and it carries no
    prediction. *)
Theorem parseCSV_rows_are_complete_transactions
    (content : string) (rows : list CSV.draft) :
  parse content = inr rows →
  Forall (λ d, ∃ t, complete d = Some t ∧ well_formed t) rows.
Proof.
  unfold CSV.parseCSV.
  destruct (CSV.split "010" (trim content)) as [|line0 rest]; [done|].
  case_decide as Hmissing; [done|]. intros [= <-].
  assert (Forall (λ h, h ∈ trim <$> CSV.split "," line0) CSV.requiredHeaders)
    as Hreq.
  { apply required_present.
    destruct (filter _ CSV.requiredHeaders); [done|simpl in Hmissing; lia]. }
  apply Forall_forall. intros d (line & _ & Hline)%elem_of_omap_inv.
  by eapply parse_line_well_formed.
Qed.

End Parser.

(** ** Which metrics can be [NaN] *)

(** X24: precision, recall and F1 are never [NaN], whatever the batch; the
    accuracy is [NaN] exactly when the loop has counted no row, that is,
    when no row has both a ground-truth label and a predicted label that is
    0 or 1 (the empty batch is one case, a batch without labels
    another). *)
Theorem only_the_accuracy_can_be_NaN
    (actual predicted : list Transaction) (m : ModelMetrics) :
  (Z.of_nat (length actual) < 2 ^ 32)%Z →
  calculateMetrics actual predicted = Some m →
  is_nan (precision m) = false
  ∧ is_nan (recall m) = false
  ∧ is_nan (f1Score m) = false
  ∧ (is_nan (accuracy m) = true
     ↔ filter (λ ap, counted ap.1 ap.2 = true) (zip actual predicted) = []).
Proof.
  intros Hlen. unfold calculateMetrics.
  destruct (count_loop actual predicted _) as [c|] eqn:Hc; [|done].
  intros [= <-].
  split; [apply or_else_zero_not_nan|].
  split; [apply or_else_zero_not_nan|].
  split; [apply or_else_zero_not_nan|].
  apply count_loop_counted in Hc. unfold total in Hc. simpl in Hc.
  pose proof (length_filter (λ ap : Transaction * Transaction,
                               counted ap.1 ap.2 = true)
                (zip actual predicted)) as Hle.
  rewrite length_zip in Hle.
  destruct (filter _ (zip actual predicted)) as [|ap rest] eqn:Hf.
  - split; [done|]. intros _. apply accuracy_zero_denominator.
    simpl in Hc. lia.
  - split; [|done]. intros Hnan. exfalso.
    simpl in Hc, Hle. unfold metrics_of in Hnan. cbn [accuracy] in Hnan.
    rewrite FloatSub.div_of_length_not_nan in Hnan; [done|lia..].
Qed.

(** ** The figures of the analytics view *)

Lemma SFltb_not_leb x y : SFltb x y = true → SFleb y x = false.
Proof.
  unfold SFleb, SFltb, SFcompare.
  destruct x as [[]|[]| |[] mx ex], y as [[]|[]| |[] my ey];
    simpl; intros Hxy; try discriminate; try reflexivity;
    FloatOrder.sf_order.
Qed.

Lemma SFleb_ltb_trans x y z :
  SFleb x y = true → SFltb y z = true → SFltb x z = true.
Proof.
  unfold SFltb, SFleb, SFcompare.
  destruct x as [[]|[]| |[] mx ex], y as [[]|[]| |[] my ey],
    z as [[]|[]| |[] mz ez];
    simpl; intros Hxy Hyz; try discriminate; try reflexivity;
    FloatOrder.sf_order.
Qed.

Lemma ltb_not_leb x y : (x <? y)%float = true → (y <=? x)%float = false.
Proof.
  rewrite FloatAxioms.ltb_spec, FloatAxioms.leb_spec. apply SFltb_not_leb.
Qed.

Lemma leb_ltb_trans x y z :
  (x <=? y)%float = true → (y <? z)%float = true → (x <? z)%float = true.
Proof.
  rewrite !FloatAxioms.ltb_spec, FloatAxioms.leb_spec. apply SFleb_ltb_trans.
Qed.

Lemma leb_total x y :
  is_nan x = false → is_nan y = false →
  (x <=? y)%float = true ∨ (y <? x)%float = true.
Proof.
  rewrite !FloatSub.is_nan_spec, FloatAxioms.leb_spec, FloatAxioms.ltb_spec.
  apply FloatSub.SFleb_total.
Qed.

Lemma leb_true_not_nan x y :
  (x <=? y)%float = true → is_nan x = false ∧ is_nan y = false.
Proof.
  intros H. split.
  - destruct (is_nan x) eqn:Hx; [|done].
    by rewrite (FloatOrder.leb_NaN_l x Hx y) in H.
  - destruct (is_nan y) eqn:Hy; [|done].
    by rewrite (FloatOrder.leb_NaN_r y Hy x) in H.
Qed.

(** Two ranges that meet make up the range from the lower bound of the
    first to the upper bound of the second, and share no amount. *)
Lemma in_range_adjacent (r1 r2 r : Analytics.range) t :
  Analytics.max r1 = Analytics.min r2 →
  Analytics.min r = Analytics.min r1 → Analytics.max r = Analytics.max r2 →
  (Analytics.min r1 <=? Analytics.max r1)%float = true →
  (Analytics.min r2 <=? Analytics.max r2)%float = true →
  Analytics.in_range r1 t || Analytics.in_range r2 t = Analytics.in_range r t
  ∧ Analytics.in_range r1 t && Analytics.in_range r2 t = false.
Proof.
  unfold Analytics.in_range, js_ge, js_lt.
  intros Hmeet -> -> H1 H2. rewrite Hmeet in *.
  set (a := TX_AMOUNT t). set (lo := Analytics.min r1) in *.
  set (mid := Analytics.min r2) in *. set (hi := Analytics.max r2) in *.
  destruct (is_nan a) eqn:Ha.
  { by rewrite !(FloatOrder.leb_NaN_r a Ha). }
  destruct (leb_true_not_nan _ _ H2) as [Hmid _].
  destruct (leb_total mid a Hmid Ha) as [Hle | Hlt].
  - rewrite Hle, (FloatOrder.leb_not_ltb _ _ Hle),
      (FloatOrder.leb_trans _ _ _ H1 Hle).
    by destruct (a <? hi)%float.
  - rewrite Hlt, (ltb_not_leb _ _ Hlt),
      (FloatSub.ltb_leb_trans _ _ _ Hlt H2).
    by destruct (lo <=? a)%float.
Qed.

(** Two ranges that hold the same amount overlap. *)
Lemma in_range_overlap (r1 r2 : Analytics.range) t :
  Analytics.in_range r1 t = true → Analytics.in_range r2 t = true →
  (Analytics.min r2 <? Analytics.max r1)%float = true.
Proof.
  unfold Analytics.in_range, js_ge, js_lt.
  intros [_ H1]%andb_true_iff [H2 _]%andb_true_iff.
  by eapply leb_ltb_trans.
Qed.

Lemma length_filter_split {A : Type} (p q r : A → bool) (l : list A) :
  (∀ x, p x || q x = r x ∧ p x && q x = false) →
  length (filter (λ x, p x = true) l) + length (filter (λ x, q x = true) l)
  = length (filter (λ x, r x = true) l).
Proof.
  intros H. induction l as [|x l IH]; [done|].
  rewrite !filter_cons. destruct (H x) as [Hor Hand].
  destruct (p x), (q x), (r x); simpl in *; try done; lia.
Qed.

(** X25: the five ranges of the amount chart share no transaction, and
    together they hold exactly the transactions whose amount is at least 0
    and below infinity: a transaction with a negative, an infinite or a
    [NaN] amount is in no range.  In every range the fraud count is at most
    the total, and the fraud rate of a range without transactions is 0. *)
Theorem amount_ranges_partition_the_finite_non_negative_amounts
    (txs : list Transaction) :
  sum_list_with Analytics.total (Analytics.amountDistribution txs)
  = length (filter (λ t, js_ge (TX_AMOUNT t) 0
                         && js_lt (TX_AMOUNT t) infinity = true) txs)
  ∧ sum_list_with Analytics.total (Analytics.amountDistribution txs)
    ≤ length txs
  ∧ (∀ t r1 r2,
       r1 ∈ Analytics.amountRanges → r2 ∈ Analytics.amountRanges →
       Analytics.in_range r1 t = true → Analytics.in_range r2 t = true →
       r1 = r2)
  ∧ Forall (λ b, Analytics.fraud b ≤ Analytics.total b
                 ∧ (Analytics.total b = 0 → Analytics.fraudRate b = 0%float))
      (Analytics.amountDistribution txs).
Proof.
  assert (sum_list_with Analytics.total (Analytics.amountDistribution txs)
          = length (filter (λ t, js_ge (TX_AMOUNT t) 0
                                 && js_lt (TX_AMOUNT t) infinity = true) txs))
    as Hsum.
  { unfold Analytics.amountDistribution, Analytics.amountRanges.
    cbn [fmap list_fmap sum_list_with Analytics.total].
    set (upto hi := {| Analytics.label := EmptyString; Analytics.min := 0;
                       Analytics.max := hi;
                       Analytics.color := EmptyString |}).
    rewrite Nat.add_0_r, !Nat.add_assoc.
    rewrite (length_filter_split _ _ (Analytics.in_range (upto 100%float)))
      by (intros t; by apply in_range_adjacent).
    rewrite (length_filter_split _ _ (Analytics.in_range (upto 150%float)))
      by (intros t; by apply in_range_adjacent).
    rewrite (length_filter_split _ _ (Analytics.in_range (upto 220%float)))
      by (intros t; by apply in_range_adjacent).
    rewrite (length_filter_split _ _ (Analytics.in_range (upto infinity)))
      by (intros t; by apply in_range_adjacent).
    done. }
  split; [exact Hsum|]. split; [rewrite Hsum; apply length_filter|]. split.
  - intros t r1 r2 Hr1 Hr2 H1 H2.
    pose proof (in_range_overlap r1 r2 t H1 H2) as H12.
    pose proof (in_range_overlap r2 r1 t H2 H1) as H21.
    unfold Analytics.amountRanges in Hr1, Hr2.
    repeat (apply elem_of_cons in Hr1 as [-> | Hr1]);
      try (by apply elem_of_nil in Hr1);
      repeat (apply elem_of_cons in Hr2 as [-> | Hr2]);
      try (by apply elem_of_nil in Hr2);
      try reflexivity; by vm_compute in H12, H21.
  - apply Forall_fmap, Forall_forall. intros r _. simpl. split.
    + apply length_filter.
    + intros ->. by rewrite decide_False by lia.
Qed.

Lemma filter_of_upward_closed {A : Type} (P : A → Prop)
    `{!∀ x, Decision (P x)} (l : list A) :
  (∀ i j a b, i < j → l !! i = Some a → l !! j = Some b → P b → P a) →
  filter P l = take (length (filter P l)) l.
Proof.
  induction l as [|x l IH]; intros Hup; [done|].
  destruct (decide (P x)) as [Hx|Hx].
  - rewrite filter_cons_True by done. simpl. f_equal. apply IH.
    intros i j a b Hij Hi Hj. by apply (Hup (S i) (S j) a b); [lia|..].
  - rewrite filter_cons_False by done.
    rewrite (filter_none P l); [done|].
    intros y [j Hj]%list_elem_of_lookup Hy.
    by apply Hx, (Hup 0 (S j) x y); [lia|..].
Qed.

(** X26: the risky terminals of the analytics view are the head of the
    terminal report: at most five entries, taken from its front, each
    flagged as suspicious; when fewer than five are shown, every suspicious
    terminal is shown; and no terminal of the report that is left out has
    a higher fraud rate than one that is shown. *)
Theorem risky_terminals_are_the_head_of_the_report
    (txs : list Transaction) (report : list TerminalReport.t) :
  (Z.of_nat (length txs) < 2 ^ 32)%Z →
  analyzeTerminalStats txs = Some report →
  let shown := Analytics.riskyTerminals report in
  shown = take (length shown) report
  ∧ length shown ≤ 5
  ∧ Forall (λ e, TerminalReport.suspiciousActivity e = true) shown
  ∧ (length shown < 5 →
     ∀ e, e ∈ report → TerminalReport.suspiciousActivity e = true → e ∈ shown)
  ∧ ∀ i j a b,
      shown !! i = Some a → report !! j = Some b → length shown ≤ j →
      descending TerminalReport.fraudRate a b.
Proof.
  intros Hlen Hreport. cbv zeta.
  set (flagged := filter (λ ts, TerminalReport.suspiciousActivity ts = true)
                    report).
  destruct (analyzeTerminalStats_sorted txs report Hlen Hreport)
    as [Hsorted Hfirst].
  assert (flagged = take (length flagged) report) as Hflagged
    by by apply filter_of_upward_closed.
  assert (Analytics.riskyTerminals report
          = take (length (Analytics.riskyTerminals report)) report) as Hshown.
  { unfold Analytics.riskyTerminals. fold flagged.
    rewrite Hflagged at 1. rewrite take_take, length_take. done. }
  split; [exact Hshown|].
  split. { unfold Analytics.riskyTerminals. rewrite length_take. lia. }
  split.
  { unfold Analytics.riskyTerminals. apply Forall_take, Forall_forall.
    by intros e [He _]%list_elem_of_filter. }
  split.
  - unfold Analytics.riskyTerminals. fold flagged. rewrite length_take.
    intros Hfew e He Hs. rewrite take_ge by lia.
    by apply list_elem_of_filter.
  - intros i j a b Hi Hj Hout. rewrite Hshown in Hi.
    apply lookup_take_Some in Hi as [Hi Hlt].
    apply (StronglySorted_lookup _ _ i j a b Hsorted); [lia|done..].
Qed.

(** * Further worked examples *)

(** The terminal of the quiet batch: ten rows, one of them fraudulent. *)
Lemma terminal_aggregation_of_quiet_batch :
  ∃ m s, calculateTerminalStats quiet_batch = Some m
         ∧ m !! "T1"%string = Some s
         ∧ TerminalStat.transactionCount s = 10
         ∧ TerminalStat.fraudRate s = (1 / 10)%float.
Proof.
  destruct (terminal_aggregation_per_distinct_id quiet_batch) as [_ H].
  destruct (calculateTerminalStats quiet_batch) as [m|] eqn:Hm;
    [|by vm_compute in Hm].
  destruct (H m eq_refl) as [_ Hentry].
  vm_compute in Hm. injection Hm as <-.
  eexists _, _. split; [reflexivity|]. split; [vm_compute; reflexivity|].
  destruct (Hentry "T1"%string _ ltac:(vm_compute; reflexivity))
    as (Hn & _ & _ & _ & Hr).
  split; [exact Hn|]. rewrite Hr. vm_compute. reflexivity.
Defined.

(** The scored batch differs from the ground truth only in its predicted
    fields, so the rules give both the same verdicts. *)
Lemma verdicts_of_scored_batch_are_those_of_truth_batch :
  Forall2 same_for_stats truth_batch scored_batch
  ∧ is_Some (detectFraudRuleBased truth_batch)
  ∧ verdicts_of <$> detectFraudRuleBased truth_batch
    = verdicts_of <$> detectFraudRuleBased scored_batch.
Proof.
  assert (Forall2 same_for_stats truth_batch scored_batch) as Hsame
    by (repeat constructor).
  split; [exact Hsame|]. split; [vm_compute; by eexists|].
  exact (rule_verdicts_read_only_ids_amounts_and_labels _ _ Hsame).
Defined.

(** The verdicts on the quiet batch are returned again when the rules run
    on them. *)
Lemma classifying_quiet_batch_twice :
  ∃ out, detectFraudRuleBased quiet_batch = Some out
         ∧ detectFraudRuleBased out = Some out.
Proof.
  destruct (detectFraudRuleBased quiet_batch) as [out|] eqn:Hout;
    [|by vm_compute in Hout].
  exists out. split; [reflexivity|].
  exact (detectFraudRuleBased_idempotent quiet_batch out Hout).
Defined.

(** Four ground-truth rows against no prediction fail; against the four
    predictions followed by four more rows they evaluate as against the
    four predictions. *)
Lemma metrics_need_a_prediction_per_row :
  calculateMetrics truth_batch [] = None
  ∧ calculateMetrics truth_batch (scored_batch ++ truth_batch)
    = calculateMetrics truth_batch scored_batch.
Proof.
  destruct (calculateMetrics_fails_iff_predictions_run_out truth_batch [])
    as [[_ Hnone] _].
  destruct (calculateMetrics_fails_iff_predictions_run_out
              truth_batch scored_batch) as [_ Hmore].
  split.
  - apply Hnone. simpl. lia.
  - apply Hmore. vm_compute. lia.
Defined.

(** Of a labelled row and an unlabelled row only the first is counted. *)
Lemma unlabelled_row_is_left_out_of_the_matrix :
  ∃ m (tn fp fn tp : nat),
    calculateMetrics half_labelled_batch half_labelled_batch = Some m
    ∧ confusion_matrix m = [[tn; fp]; [fn; tp]]
    ∧ tn + fp + fn + tp = 1.
Proof.
  destruct (confusion_matrix_counts_only_binary_rows
              half_labelled_batch half_labelled_batch ltac:(simpl; lia))
    as (m & tn & fp & fn & tp & Hm & Hc & Hsum & _).
  exists m, tn, fp, fn, tp. split; [exact Hm|]. split; [exact Hc|].
  rewrite Hsum. vm_compute. reflexivity.
Defined.

(** Fitting on the empty matrix leaves a fresh detector fresh. *)
Lemma fitting_nothing_stores_nothing :
  (normalizeFeatures (@new_FraudDetector nat) []).1 = new_FraudDetector.
Proof.
  destruct (applying_the_fitted_scaler_reproduces_the_fit
              (@new_FraudDetector nat) []) as (_ & H & _).
  exact (H eq_refl).
Defined.


(** Training that fails at the first tensor has already replaced the
    scaler, and has not yet touched the model; training on a batch with the
    customer [constructor] fails before that and leaves no scaler. *)
Lemma training_without_tensors_keeps_the_new_scaler :
  (failing_trainModel new_FraudDetector truth_batch).2
  = inl (Thrown_Error "out of memory")
  ∧ is_Some (scaler (failing_trainModel new_FraudDetector truth_batch).1)
  ∧ model (failing_trainModel new_FraudDetector truth_batch).1 = None
  ∧ (sample_trainModel new_FraudDetector inherited_customer_batch).2
    = inl Thrown_TypeError
  ∧ scaler (sample_trainModel new_FraudDetector inherited_customer_batch).1
    = None.
Proof.
  destruct (trainModel_replaces_the_scaler_once_the_features_exist
              small_angle_sin small_angle_cos rem_below_modulus nat
              sample_predict (list (list float)) failing_tensor2d
              sample_tensor2d_column sample_sequential sample_compile_fit
              new_FraudDetector truth_batch)
    as (_ & _ & Hfit).
  destruct (extractFeatures small_angle_sin small_angle_cos rem_below_modulus
              truth_batch) as [features|] eqn:Hf; [|by vm_compute in Hf].
  destruct (Hfit features eq_refl ltac:(discriminate)) as (Hs & _ & H).
  destruct (H "out of memory"%string eq_refl) as [Hthrown Hmodel].
  destruct (trainModel_replaces_the_scaler_once_the_features_exist
              small_angle_sin small_angle_cos rem_below_modulus nat
              sample_predict (list (list float)) sample_tensor2d
              sample_tensor2d_column sample_sequential sample_compile_fit
              new_FraudDetector inherited_customer_batch)
    as (_ & Hthrow & _).
  destruct (Hthrow ltac:(vm_compute; reflexivity)) as (Htype & Hscaler & _).
  split; [exact Hthrown|]. split; [exact Hs|]. split; [exact Hmodel|].
  split; [exact Htype | exact Hscaler].
Defined.

(** Training on the four rows of the ground truth returns metrics whose
    confusion matrix covers the four rows. *)
Lemma training_on_truth_batch_covers_four_rows :
  ∃ this' metrics,
    sample_trainModel new_FraudDetector truth_batch = (this', inr metrics)
    ∧ is_Some (model this')
    ∧ ∃ tn fp fn tp : nat,
        confusion_matrix metrics = [[tn; fp]; [fn; tp]]
        ∧ tn + fp + fn + tp = 4.
Proof.
  pose proof (trainModel_metrics_are_those_of_its_own_predictions
                small_angle_sin small_angle_cos rem_below_modulus nat
                sample_predict (list (list float)) sample_tensor2d
                sample_tensor2d_column sample_sequential sample_compile_fit
                new_FraudDetector) as H.
  do 2 eexists. split; [vm_compute; reflexivity|].
  match goal with
  | |- is_Some (model ?d) ∧ (∃ tn fp fn tp, confusion_matrix ?m = _ ∧ _) =>
      destruct (H d truth_batch m) as (_ & Hm & _ & _ & _ & Hc);
        [vm_compute; reflexivity|]
  end.
  split; [exact Hm|]. apply Hc. repeat constructor.
Defined.

(** The quiet batch has one fraudulent row, of amount 30; the empty batch
    has no fraud rate. *)
Lemma fraud_summary_of_quiet_and_empty_batch :
  FraudStats.averageFraudAmount (analyzeFraudStats quiet_batch) = 30%float
  ∧ FraudStats.averageFraudAmount (analyzeFraudStats truth_batch) = 10%float
  ∧ is_nan (FraudStats.fraudRate (analyzeFraudStats [])) = true.
Proof.
  pose proof (analyzeFraudStats_counts_and_guards quiet_batch) as Hq.
  pose proof (analyzeFraudStats_counts_and_guards truth_batch) as Ht.
  pose proof (analyzeFraudStats_counts_and_guards []) as He.
  cbv zeta in Hq, Ht, He.
  destruct Hq as (_ & _ & _ & _ & Hq & _).
  destruct Ht as (_ & _ & _ & _ & Ht & _).
  destruct He as (_ & _ & _ & _ & _ & He).
  split; [|split].
  - rewrite Hq; [vm_compute; reflexivity | vm_compute; lia].
  - rewrite Ht; [vm_compute; reflexivity | vm_compute; lia].
  - exact (proj1 (He eq_refl)).
Defined.

(** The terminal of the precedence batch: ten rows, flagged suspicious. *)
Lemma terminal_report_of_precedence_batch :
  ∃ entries e,
    analyzeTerminalStats precedence_batch = Some entries
    ∧ e ∈ entries
    ∧ TerminalReport.totalTransactions e = 10
    ∧ TerminalReport.fraudTransactions e = 9
    ∧ TerminalReport.suspiciousActivity e = true.
Proof.
  destruct (analyzeTerminalStats_one_entry_per_terminal precedence_batch)
    as [_ H].
  destruct (analyzeTerminalStats precedence_batch) as [entries|] eqn:He;
    [|by vm_compute in He].
  destruct (H entries eq_refl) as (_ & _ & Hentry).
  exists entries, (terminalReport_of ("T1"%string, precedence_batch)).
  split; [reflexivity|].
  assert (terminalReport_of ("T1"%string, precedence_batch) ∈ entries) as Hin.
  { vm_compute in He. injection He as <-. vm_compute. left. }
  split; [exact Hin|].
  destruct (Hentry _ Hin) as (Hn & _ & Hf & _ & _ & _ & Hs).
  split; [exact Hn|]. split; [exact Hf|].
  rewrite Hs. vm_compute. reflexivity.
Defined.

(** No day lies between 3 and 1, and none is comparable with [NaN]. *)
Lemma time_range_with_unusable_bounds_is_empty :
  getTransactionsByTimeRange quiet_batch 3 1 = []
  ∧ getTransactionsByTimeRange quiet_batch nan 1 = [].
Proof.
  pose proof (getTransactionsByTimeRange_selects_the_days_in_range
                quiet_batch 3 1) as H1.
  pose proof (getTransactionsByTimeRange_selects_the_days_in_range
                quiet_batch nan 1) as H2.
  cbv zeta in H1, H2.
  destruct H1 as (_ & _ & _ & H1). destruct H2 as (_ & _ & _ & H2).
  split; [apply H1 | apply H2].
  - right. right. vm_compute. reflexivity.
  - left. vm_compute. reflexivity.
Defined.

(** The second row of the precedence batch, amount 50 at a terminal with
    fraud rate 0.9, is scenario 2 for the rules and an anomaly. *)
Lemma scenario_two_row_is_an_anomaly :
  ∃ anomalies,
    detectAnomalies precedence_batch = Some anomalies
    ∧ labelled_tx "C2" "T1" 50 1 ∈ anomalies.
Proof.
  destruct (detectAnomalies_keeps_the_rule_based_frauds precedence_batch)
    as (_ & _ & H).
  destruct (detectAnomalies precedence_batch) as [anomalies|] eqn:Ha;
    [|by vm_compute in Ha].
  destruct (H anomalies eq_refl) as (_ & _ & out & Hout & Hkept).
  exists anomalies. split; [reflexivity|].
  vm_compute in Hout. injection Hout as <-.
  eapply (Hkept 1).
  - reflexivity.
  - reflexivity.
  - reflexivity.
Defined.

(** The fraudulent terminal T2 is listed before the quiet terminal T1. *)
Lemma two_terminals_are_listed_by_descending_rate :
  ∃ terminals,
    analyzeTerminalStats two_terminal_batch = Some terminals
    ∧ TerminalReport.terminalId <$> terminals = ["T2"%string; "T1"%string]
    ∧ StronglySorted (descending TerminalReport.fraudRate) terminals.
Proof.
  destruct (reports_are_sorted_by_descending_fraud_rate two_terminal_batch)
    as [H _]; [simpl; lia|].
  destruct (analyzeTerminalStats two_terminal_batch) as [terminals|] eqn:Ht;
    [|by vm_compute in Ht].
  destruct (H terminals eq_refl) as [Hsorted _].
  exists terminals. split; [reflexivity|]. split; [|exact Hsorted].
  vm_compute in Ht. injection Ht as <-. vm_compute. reflexivity.
Defined.


(** Training from the fresh component returns metrics, marks the model as
    trained and stores the metrics. *)
Lemma training_handler_on_fresh_app_stores_metrics :
  ∃ metrics,
    (sample_handleModelTrain fresh_app).2 = inr metrics
    ∧ App.isModelTrained (sample_handleModelTrain fresh_app).1 = true
    ∧ App.modelMetrics (sample_handleModelTrain fresh_app).1 = Some metrics
    ∧ calculateMetrics truth_batch
        (App.transactions (sample_handleModelTrain fresh_app).1)
      = Some metrics.
Proof.
  pose proof (handleModelTrain_stores_what_it_scored
                small_angle_sin small_angle_cos rem_below_modulus nat
                sample_predict (list (list float)) sample_tensor2d
                sample_tensor2d_column sample_sequential sample_compile_fit
                fresh_app) as H.
  cbv zeta in H. destruct H as (Hres & _ & _ & _ & Hok).
  eexists. split; [vm_compute; reflexivity|].
  match goal with
  | |- _ ∧ _ = Some ?m ∧ _ =>
      destruct (Hok m) as (Ht & Hm & _ & Hc & _); [vm_compute; reflexivity|]
  end.
  split; [exact Ht|]. split; [exact Hm | exact Hc].
Defined.

(** Before anything is trained, an amount of 500 is reported as fraud, and
    a transaction of the customer [constructor] makes the handler throw. *)
Lemma untrained_single_prediction_flags_high_amount :
  (∃ r, sample_handleSinglePrediction fresh_app (labelled_tx "C" "T" 500 0)
        = inr r
        ∧ App.isFraud r = true
        ∧ App.scenario r = Some "High Amount (Scenario 1)"%string)
  ∧ sample_handleSinglePrediction fresh_app
      (labelled_tx "constructor" "T" 500 0)
    = inl Thrown_TypeError.
Proof.
  split.
  - destruct (single_prediction_falls_back_to_the_rules
                small_angle_sin small_angle_cos rem_below_modulus nat
                sample_predict fresh_app (labelled_tx "C" "T" 500 0) eq_refl)
      as [_ H].
    destruct H as (r & Hr & Hf & _ & Hs).
    { refine (bool_decide_unpack _ _). vm_compute. exact I. }
    { refine (bool_decide_unpack _ _). vm_compute. exact I. }
    assert (App.isFraud r = true) as Hfraud by (rewrite Hf; reflexivity).
    exists r. split; [exact Hr|]. split; [exact Hfraud|].
    rewrite Hs, Hfraud. reflexivity.
  - destruct (single_prediction_falls_back_to_the_rules
                small_angle_sin small_angle_cos rem_below_modulus nat
                sample_predict fresh_app
                (labelled_tx "constructor" "T" 500 0) eq_refl)
      as [H _].
    apply H. left. refine (bool_decide_unpack _ _). vm_compute. exact I.
Defined.

(** Content without the required columns is refused with their names. *)
Lemma content_without_columns_is_refused :
  sample_parseCSV "a,b"
  = inl (Thrown_Error
           "Missing required columns: TRANSACTION_ID, TX_DATETIME, CUSTOMER_ID, TERMINAL_ID, TX_AMOUNT, TX_TIME_SECONDS, TX_TIME_DAYS, TX_FRAUD").
Proof.
  pose proof (parseCSV_throws_exactly_on_missing_columns
                trim_of_trimmed parse_of_digits parse_of_digits "a,b") as H.
  cbv zeta in H. destruct H as [_ H].
  destruct H as [_ H].
  { refine (proj1 (bool_decide_eq_false _) _). vm_compute. reflexivity. }
  etrans; [exact H|]. vm_compute. reflexivity.
Defined.

(** Of the three data lines of the sample only the first becomes a row,
    and its unparsable label becomes 0. *)
Lemma sample_csv_has_one_row :
  ∃ d, sample_parseCSV sample_csv = inr [d]
       ∧ CSV.TX_FRAUD d = Some 0%float
       ∧ ∃ t, complete d = Some t ∧ well_formed t.
Proof.
  eexists. split; [vm_compute; reflexivity|]. split; [reflexivity|].
  match goal with
  | |- ∃ t, complete ?d = _ ∧ _ =>
      pose proof (parseCSV_rows_are_complete_transactions
                    trim_of_trimmed parse_of_digits parse_of_digits
                    sample_csv [d] ltac:(vm_compute; reflexivity)) as H
  end.
  apply Forall_cons in H as [H _]. exact H.
Defined.

(** The parser accepts a row whose customer id is [constructor]; on the
    batch of that row aggregation, classification and feature extraction
    throw. *)
Lemma inherited_name_passes_the_parser :
  ∃ d t, sample_parseCSV inherited_csv = inr [d]
         ∧ complete d = Some t
         ∧ well_formed t
         ∧ CUSTOMER_ID t = "constructor"%string
         ∧ calculateCustomerStats [t] = None
         ∧ detectFraudRuleBased [t] = None
         ∧ extractFeatures small_angle_sin small_angle_cos rem_below_modulus [t]
           = None
         ∧ DataAnalyzer.analyzeCustomerStats [t] = None.
Proof.
  eexists _, _. split; [vm_compute; reflexivity|].
  split; [vm_compute; reflexivity|]. split.
  { unfold well_formed. cbn.
    repeat split; try done. by exists 0%float. }
  repeat split; vm_compute; reflexivity.
Qed.

(** A batch of one unlabelled row: nothing is counted, so there is no
    accuracy, but the guarded metrics are numbers. *)
Lemma unlabelled_batch_has_no_accuracy :
  ∃ m, calculateMetrics [sample_tx "C" "T" 10 None] [sample_tx "C" "T" 10 None]
       = Some m
       ∧ is_nan (accuracy m) = true
       ∧ is_nan (f1Score m) = false.
Proof.
  eexists. split; [vm_compute; reflexivity|].
  match goal with
  | |- is_nan (accuracy ?m) = true ∧ _ =>
      destruct (only_the_accuracy_can_be_NaN
                  [sample_tx "C" "T" 10 None] [sample_tx "C" "T" 10 None] m
                  ltac:(simpl; lia) ltac:(vm_compute; reflexivity))
        as (_ & _ & Hf & Ha)
  end.
  split; [|exact Hf]. apply Ha. vm_compute. reflexivity.
Defined.

(** Of the amounts -5, 30 and 250 the first is in no range. *)
Lemma negative_amount_is_in_no_range :
  sum_list_with Analytics.total
    (Analytics.amountDistribution
       [labelled_tx "C" "T" (-5) 0; labelled_tx "C" "T" 30 0;
        labelled_tx "C" "T" 250 0])
  = 2.
Proof.
  destruct (amount_ranges_partition_the_finite_non_negative_amounts
              [labelled_tx "C" "T" (-5) 0; labelled_tx "C" "T" 30 0;
               labelled_tx "C" "T" 250 0]) as [H _].
  rewrite H. vm_compute. reflexivity.
Defined.

(** Of the two terminals only the fraudulent one is shown as risky. *)
Lemma only_the_fraudulent_terminal_is_shown :
  ∃ report,
    analyzeTerminalStats two_terminal_batch = Some report
    ∧ TerminalReport.terminalId <$> Analytics.riskyTerminals report
      = ["T2"%string]
    ∧ Analytics.riskyTerminals report = take 1 report.
Proof.
  destruct (analyzeTerminalStats two_terminal_batch) as [report|] eqn:Hr;
    [|by vm_compute in Hr].
  pose proof (risky_terminals_are_the_head_of_the_report two_terminal_batch
                report ltac:(simpl; lia) Hr) as H.
  cbv zeta in H. destruct H as [H _].
  exists report. split; [reflexivity|].
  vm_compute in Hr. injection Hr as <-.
  split; [vm_compute; reflexivity|].
  etrans; [exact H|]. f_equal.
Defined.
